(** * bzr-fastimport: cache manager, marks file and info processor

    A shallow embedding of [cache_manager.py], [marks_file.py] and the
    handlers of [processors/info_processor.py], with the properties of the
    blob cache and its teardown, of head tracking, of the marks codec and of
    the statistics and reference counts harvested by the informational
    pass. *)

From Stdlib Require Import ZArith Ascii String.
From stdpp Require Import gmap strings stringmap list sorting.

Local Open Scope Z_scope.

(** ** Python values *)

(** A Python 2 [str] is a sequence of 8-bit characters: [string]. *)
Definition len (s : string) : Z := Z.of_nat (String.length s).

(** [c * n]: the string of [n] copies of the character [c]. *)
Fixpoint str_repeat (c : ascii) (n : nat) : string :=
  match n with
  | O => EmptyString
  | S n' => String c (str_repeat c n')
  end.

(** [f.seek(offset); f.read(n_bytes)] on a file whose content is [content]. *)
Definition read_at (offset n_bytes : Z) (content : string) : string :=
  String.substring (Z.to_nat offset) (Z.to_nat n_bytes) content.

(** The exceptions the modelled code can raise. *)
Inductive exn :=
  | KeyError | IndexError | AttributeError | NameError
  | IOError | OSError | ValueError.

Inductive outcome (A : Type) :=
  | Return (a : A)
  | Raise (e : exn).
Arguments Return {A} a.
Arguments Raise {A} e.

(** The iteration order of a Python 2 dictionary is an unspecified function
    of the dictionary: any enumeration of its items. *)
Class DictOrder := {
  dict_items : ∀ {V : Type}, gmap string V → list (string * V);
  dict_items_perm : ∀ {V : Type} (m : gmap string V),
    dict_items m ≡ₚ map_to_list m
}.

Definition dict_keys `{DictOrder} {V : Type} (m : gmap string V) : list string :=
  (dict_items m).*1.
Definition dict_values `{DictOrder} {V : Type} (m : gmap string V) : list V :=
  (dict_items m).*2.

(** [l.sort(key=key)]: Python's sort is stable, and a stable sort is unique;
    insertion sort computes it. *)
Section sort.
Context {A : Type} (key : A → Z).

Fixpoint sort_insert (x : A) (l : list A) : list A :=
  match l with
  | [] => [x]
  | y :: l' => if bool_decide (key x ≤ key y) then x :: l
               else y :: sort_insert x l'
  end.

Fixpoint list_sort (l : list A) : list A :=
  match l with
  | [] => []
  | x :: l' => sort_insert x (list_sort l')
  end.
End sort.

(** ** The state of a cache manager and of the files it owns *)

(** [_Cleanup.disk_blobs] is either [None] or the very dictionary object that
    [CacheManager._disk_blobs] names. *)
Inductive dict_ref := shared_disk_blobs.

Record _Cleanup := mk_Cleanup {
  disk_blobs : option dict_ref;
  tempdir : option string;
  (** the open [TemporaryFile], given by its content *)
  small_blobs : option string
}.

Record CacheManager := mkCacheManager {
  _blobs : gmap string string;
  _sticky_blobs : gmap string string;
  _sticky_memory_bytes : Z;
  _tempdir : option string;
  (** id => (offset, n_bytes, fname) *)
  _disk_blobs : gmap string (Z * Z * option string);
  _cleanup : _Cleanup;
  revision_ids : gmap string string;
  last_ref : option string;
  last_ids : gmap string string;
  heads : gmap string (gset string);
  _blob_ref_counts : gmap string Z
}.

(** One [trace.note] of a flush: count, total_blobs, bytes, n_small_bytes. *)
Record flush_note := mk_note {
  note_count : Z; note_total : Z; note_bytes : Z; note_small_bytes : Z
}.

Record World := mkWorld {
  mgr : CacheManager;
  (** the named files of the file system, by path *)
  files : gmap string string;
  (** the temporary directories created by [mkdtemp] *)
  dirs : gset string;
  notes : list flush_note
}.

(** *** Field updates *)

Definition set_disk_blobs_ref (v : option dict_ref) (c : _Cleanup) : _Cleanup :=
  mk_Cleanup v (tempdir c) (small_blobs c).
Definition set_tempdir (v : option string) (c : _Cleanup) : _Cleanup :=
  mk_Cleanup (disk_blobs c) v (small_blobs c).
Definition set_small_blobs (v : option string) (c : _Cleanup) : _Cleanup :=
  mk_Cleanup (disk_blobs c) (tempdir c) v.

Definition set__blobs (v : gmap string string) (m : CacheManager) :=
  mkCacheManager v (_sticky_blobs m) (_sticky_memory_bytes m) (_tempdir m)
    (_disk_blobs m) (_cleanup m) (revision_ids m) (last_ref m) (last_ids m)
    (heads m) (_blob_ref_counts m).
Definition set__sticky_blobs (v : gmap string string) (m : CacheManager) :=
  mkCacheManager (_blobs m) v (_sticky_memory_bytes m) (_tempdir m)
    (_disk_blobs m) (_cleanup m) (revision_ids m) (last_ref m) (last_ids m)
    (heads m) (_blob_ref_counts m).
Definition set__sticky_memory_bytes (v : Z) (m : CacheManager) :=
  mkCacheManager (_blobs m) (_sticky_blobs m) v (_tempdir m)
    (_disk_blobs m) (_cleanup m) (revision_ids m) (last_ref m) (last_ids m)
    (heads m) (_blob_ref_counts m).
Definition set__tempdir (v : option string) (m : CacheManager) :=
  mkCacheManager (_blobs m) (_sticky_blobs m) (_sticky_memory_bytes m) v
    (_disk_blobs m) (_cleanup m) (revision_ids m) (last_ref m) (last_ids m)
    (heads m) (_blob_ref_counts m).
Definition set__disk_blobs (v : gmap string (Z * Z * option string))
    (m : CacheManager) :=
  mkCacheManager (_blobs m) (_sticky_blobs m) (_sticky_memory_bytes m)
    (_tempdir m) v (_cleanup m) (revision_ids m) (last_ref m) (last_ids m)
    (heads m) (_blob_ref_counts m).
Definition set__cleanup (v : _Cleanup) (m : CacheManager) :=
  mkCacheManager (_blobs m) (_sticky_blobs m) (_sticky_memory_bytes m)
    (_tempdir m) (_disk_blobs m) v (revision_ids m) (last_ref m) (last_ids m)
    (heads m) (_blob_ref_counts m).
Definition set_revision_ids (v : gmap string string) (m : CacheManager) :=
  mkCacheManager (_blobs m) (_sticky_blobs m) (_sticky_memory_bytes m)
    (_tempdir m) (_disk_blobs m) (_cleanup m) v (last_ref m) (last_ids m)
    (heads m) (_blob_ref_counts m).
Definition set_last_ref (v : option string) (m : CacheManager) :=
  mkCacheManager (_blobs m) (_sticky_blobs m) (_sticky_memory_bytes m)
    (_tempdir m) (_disk_blobs m) (_cleanup m) (revision_ids m) v (last_ids m)
    (heads m) (_blob_ref_counts m).
Definition set_last_ids (v : gmap string string) (m : CacheManager) :=
  mkCacheManager (_blobs m) (_sticky_blobs m) (_sticky_memory_bytes m)
    (_tempdir m) (_disk_blobs m) (_cleanup m) (revision_ids m) (last_ref m) v
    (heads m) (_blob_ref_counts m).
Definition set_heads (v : gmap string (gset string)) (m : CacheManager) :=
  mkCacheManager (_blobs m) (_sticky_blobs m) (_sticky_memory_bytes m)
    (_tempdir m) (_disk_blobs m) (_cleanup m) (revision_ids m) (last_ref m)
    (last_ids m) v (_blob_ref_counts m).
Definition set__blob_ref_counts (v : gmap string Z) (m : CacheManager) :=
  mkCacheManager (_blobs m) (_sticky_blobs m) (_sticky_memory_bytes m)
    (_tempdir m) (_disk_blobs m) (_cleanup m) (revision_ids m) (last_ref m)
    (last_ids m) (heads m) v.

Definition set_mgr (v : CacheManager) (w : World) : World :=
  mkWorld v (files w) (dirs w) (notes w).
Definition set_files (v : gmap string string) (w : World) : World :=
  mkWorld (mgr w) v (dirs w) (notes w).
Definition set_dirs (v : gset string) (w : World) : World :=
  mkWorld (mgr w) (files w) v (notes w).
Definition set_notes (v : list flush_note) (w : World) : World :=
  mkWorld (mgr w) (files w) (dirs w) v.

(** ** A state and exception monad

    A method runs on a world and leaves a world behind, also when it raises:
    what it wrote before the exception stays written. *)

Definition St (S A : Type) : Type := S → outcome A * S.

#[global] Instance St_ret {S} : MRet (St S) := λ A a s, (Return a, s).
#[global] Instance St_bind {S} : MBind (St S) := λ A B k m s,
  match m s with
  | (Return a, s') => k a s'
  | (Raise e, s') => (Raise e, s')
  end.

Definition raise {S A} (e : exn) : St S A := λ s, (Raise e, s).
Definition get_state {S} : St S S := λ s, (Return s, s).
Definition update {S} (f : S → S) : St S unit := λ s, (Return tt, f s).

(** The methods of the cache manager run on a world. *)
Abbreviation M := (St World).

Definition gets {A} (f : CacheManager → A) : M A := λ w, (Return (f (mgr w)), w).
Definition modify (f : CacheManager → CacheManager) : M unit :=
  λ w, (Return tt, set_mgr (f (mgr w)) w).
Definition modify_world (f : World → World) : M unit := λ w, (Return tt, f w).

(** A method that only reads and writes the attributes of the manager. *)
Definition on_mgr {A} (m : St CacheManager A) : M A := λ w,
  let '(r, c) := m (mgr w) in (r, set_mgr c w).

(** ** The operating system calls the cache manager makes *)

(** [tempfile.mkdtemp(prefix=...)]: a directory that did not exist. *)
Definition mkdtemp (prefix : string) : M string := λ w,
  let d := fresh_string_of_set prefix (dirs w) in
  (Return d, set_dirs ({[d]} ∪ dirs w) w).

(** [tempfile.mkstemp(prefix=..., dir=...)]: a new, empty file whose path did
    not exist. *)
Definition mkstemp (prefix dir : string) : M string := λ w,
  let name := fresh_string (dir +:+ "/" +:+ prefix) (files w) in
  (Return name, set_files (<[name := ""]> (files w)) w).

(** [os.write(fd, blob); os.close(fd)] on the descriptor [mkstemp] returned
    for [name]. *)
Definition os_write (name blob : string) : M unit :=
  modify_world (λ w, set_files (<[name := blob]> (files w)) w).

Definition os_unlink (name : string) : M unit := λ w,
  match files w !! name with
  | Some _ => (Return tt, set_files (delete name (files w)) w)
  | None => (Raise OSError, w)
  end.

(** [fp = open(fn, 'rb'); content = fp.read(); fp.close()] *)
Definition open_read (fn : string) : M string := λ w,
  match files w !! fn with
  | Some content => (Return content, w)
  | None => (Raise IOError, w)
  end.

(** ** cache_manager.py: class CacheManager *)

Definition _small_blob_threshold : Z := 75 * 1024.
Definition _sticky_cache_size : Z := 300 * 1024 * 1024.
Definition _sticky_flushed_size : Z := 100 * 1024 * 1024.

(** [int(s)] for a decimal literal: optional surrounding white space, an
    optional sign, at least one digit. *)
Definition is_space (c : ascii) : bool :=
  bool_decide (c ∈ [" "; "009"; "010"; "011"; "012"; "013"]%char).

Fixpoint lstrip (s : list ascii) : list ascii :=
  match s with
  | c :: s' => if is_space c then lstrip s' else s
  | [] => []
  end.

Definition digit_of (c : ascii) : option Z :=
  let n := Z.of_nat (nat_of_ascii c) in
  if bool_decide (48 ≤ n ≤ 57) then Some (n - 48) else None.

Fixpoint digits_value (acc : Z) (s : list ascii) : option Z :=
  match s with
  | [] => Some acc
  | c :: s' => d ← digit_of c; digits_value (10 * acc + d) s'
  end.

Definition py_int (s : string) : outcome Z :=
  let body := reverse (lstrip (reverse (lstrip (list_ascii_of_string s)))) in
  let '(sign, ds) :=
    match body with
    | "-"%char :: ds => (-1, ds)
    | "+"%char :: ds => (1, ds)
    | _ => (1, body)
    end in
  match ds, digits_value 0 ds with
  | _ :: _, Some n => Return (sign * n)
  | _, _ => Raise ValueError
  end.

(** The output of the info processor read back: section, key, list value. *)
Abbreviation ConfigObj := (gmap string (gmap string (list string))).

Definition new_CacheManager : CacheManager := {|
  _blobs := ∅; _sticky_blobs := ∅; _sticky_memory_bytes := 0;
  _tempdir := None; _disk_blobs := ∅;
  _cleanup := mk_Cleanup (Some shared_disk_blobs) None None;
  revision_ids := ∅; last_ref := None; last_ids := ∅; heads := ∅;
  _blob_ref_counts := ∅
|}.

Inductive cache := the__disk_blobs | the__sticky_blobs.

(** A file command of a commit ([commands.py] is not part of the sources at
    hand; a command is given by the attributes the code reads). *)
Inductive FileCommand :=
  | FileModifyCommand (name : string) (is_executable : bool) (kind : string)
      (dataref : option string)
  | FileRenameCommand (name : string) (old_path : string)
  | FileCopyCommand (name : string) (src_path : string)
  | FileDeleteCommand (name : string)
  | FileDeleteAllCommand (name : string).

Record CommitCommand := mkCommit {
  commit_name : string;
  commit_ref : string;
  commit_id : string;
  commit_author : option string;
  commit_committer : string;
  commit_from_ : option string;
  commit_merges : list string;
  commit_file_iter : list FileCommand
}.

Section CacheManager.
Context `{DictOrder}.

(** The loop of [__init__] over [blobs_by_counts.items()]. *)
Fixpoint read_ref_counts (items : list (string * list string))
    (counts : gmap string Z) : outcome (gmap string Z) :=
  match items with
  | [] => Return counts
  | (count, blob_list) :: items' =>
      match py_int count with
      | Raise e => Raise e
      | Return n =>
          read_ref_counts items'
            (foldl (λ counts b, <[b := n]> counts) counts blob_list)
      end
  end.

Definition CacheManager_init (info : option ConfigObj) : outcome CacheManager :=
  match info with
  | None => Return new_CacheManager
  | Some info =>
      match info !! "Blob reference counts" with
      | None => (* KeyError, caught: info not in file *)
          Return new_CacheManager
      | Some blobs_by_counts =>
          match read_ref_counts (dict_items blobs_by_counts) ∅ with
          | Return counts =>
              Return (set__blob_ref_counts counts new_CacheManager)
          | Raise e => Raise e
          end
      end
  end.

Definition clear_all : M unit :=
  modify (set__blobs ∅);;
  modify (set__sticky_blobs ∅);;
  modify (set_revision_ids ∅);;
  modify (set_last_ids ∅);;
  modify (set_heads ∅).

(** The body of the [while] loop of [_flush_blobs_to_disk] after
    [id = blobs.pop()]. *)
Definition flush_one (id : string) : M (Z * Z) :=
  sticky ← gets _sticky_blobs;
  match sticky !! id with
  | None => raise KeyError
  | Some blob =>
      modify (set__sticky_blobs (delete id sticky));;
      let n_bytes := len blob in
      modify (λ m, set__sticky_memory_bytes (_sticky_memory_bytes m - n_bytes) m);;
      if bool_decide (n_bytes < _small_blob_threshold) then
        f ← gets (λ m, small_blobs (_cleanup m));
        match f with
        | None => raise AttributeError
        | Some content =>
            (* f.seek(0, os.SEEK_END); f.tell() is the length of the file *)
            modify (λ m, set__disk_blobs
              (<[id := (len content, n_bytes, None)]> (_disk_blobs m)) m);;
            modify (λ m, set__cleanup
              (set_small_blobs (Some (content +:+ blob)) (_cleanup m)) m);;
            mret (n_bytes, n_bytes)
        end
      else
        dir ← gets _tempdir;
        name ← mkstemp "blob-" (default "" dir);
        os_write name blob;;
        modify (λ m, set__disk_blobs
          (<[id := (0, n_bytes, Some name)]> (_disk_blobs m)) m);;
        mret (n_bytes, 0)
  end.

(** The [while] loop. [blobs.pop()] takes the last element of [blobs], so
    the loop runs over [stack], the list [blobs] read from its end; the
    accumulators are [count], [bytes] and [n_small_bytes]. *)
Fixpoint flush_loop (stack : list string) (count bytes n_small_bytes : Z)
    : M (Z * Z * Z) :=
  mem ← gets _sticky_memory_bytes;
  if bool_decide (_sticky_flushed_size < mem) then
    match stack with
    | [] => raise IndexError
    | id :: stack' =>
        '(n_bytes, n_small) ← flush_one id;
        flush_loop stack' (count + 1) (bytes + n_bytes)
          (n_small_bytes + n_small)
    end
  else mret (count, bytes, n_small_bytes).

Definition _flush_blobs_to_disk : M unit :=
  sticky_blobs ← gets _sticky_blobs;
  let blobs := dict_keys sticky_blobs in
  let total_blobs := Z.of_nat (size sticky_blobs) in
  let blobs := list_sort (λ k, len (default "" (sticky_blobs !! k))) blobs in
  dir ← gets _tempdir;
  (match dir with
   | None =>
       d ← mkdtemp "bzr_fastimport_blobs-";
       modify (set__tempdir (Some d));;
       modify (λ m, set__cleanup (set_tempdir (Some d) (_cleanup m)) m);;
       modify (λ m, set__cleanup (set_small_blobs (Some "") (_cleanup m)) m)
   | Some _ => mret tt
   end);;
  '(count, bytes, n_small_bytes) ← flush_loop (reverse blobs) 0 0 0;
  modify_world (λ w, set_notes
    (notes w ++ [mk_note count total_blobs bytes n_small_bytes]) w).

Definition store_blob (id data : string) : M unit :=
  counts ← gets _blob_ref_counts;
  if bool_decide (counts = ∅ ∨ is_Some (counts !! id)) then
    modify (λ m, set__sticky_blobs (<[id := data]> (_sticky_blobs m)) m);;
    modify (λ m, set__sticky_memory_bytes (_sticky_memory_bytes m + len data) m);;
    mem ← gets _sticky_memory_bytes;
    if bool_decide (_sticky_cache_size < mem) then _flush_blobs_to_disk
    else mret tt
  else if bool_decide (data = "") then
    (* Empty data is always sticky *)
    modify (λ m, set__sticky_blobs (<[id := data]> (_sticky_blobs m)) m)
  else
    modify (λ m, set__blobs (<[id := data]> (_blobs m)) m).

(** [del cache[id]] *)
Definition cache_del (c : cache) (id : string) : M unit :=
  match c with
  | the__disk_blobs =>
      d ← gets _disk_blobs;
      if d !! id is Some _ then modify (set__disk_blobs (delete id d))
      else raise KeyError
  | the__sticky_blobs =>
      d ← gets _sticky_blobs;
      if d !! id is Some _ then modify (set__sticky_blobs (delete id d))
      else raise KeyError
  end.

Definition _decref (id : string) (c : cache) (fn : option string) : M bool :=
  counts ← gets _blob_ref_counts;
  if bool_decide (counts = ∅) then mret false else
  match counts !! id with
  | Some count =>
      let count := count - 1 in
      if bool_decide (count ≤ 0) then
        cache_del c id;;
        (match fn with
         | Some name => os_unlink name
         | None => mret tt
         end);;
        modify (λ m, set__blob_ref_counts (delete id (_blob_ref_counts m)) m);;
        mret true
      else
        modify (λ m, set__blob_ref_counts (<[id := count]> (_blob_ref_counts m)) m);;
        mret false
  | None => mret false
  end.

Definition fetch_blob (id : string) : M string :=
  blobs ← gets _blobs;
  match blobs !! id with
  | Some data => modify (set__blobs (delete id blobs));; mret data
  | None =>
      disk ← gets _disk_blobs;
      match disk !! id with
      | Some (offset, n_bytes, fn) =>
          content ←
            match fn with
            | None =>
                f ← gets (λ m, small_blobs (_cleanup m));
                match f with
                | None => raise AttributeError
                | Some bytes => mret (read_at offset n_bytes bytes)
                end
            | Some name => open_read name
            end;
          _decref id the__disk_blobs fn;;
          mret content
      | None =>
          sticky ← gets _sticky_blobs;
          match sticky !! id with
          | None => raise KeyError
          | Some content =>
              gone ← _decref id the__sticky_blobs None;
              (if gone : bool then
                 modify (λ m, set__sticky_memory_bytes
                   (_sticky_memory_bytes m - len content) m)
               else mret tt);;
              mret content
          end
      end
  end.

(** ** cache_manager.py: class _Cleanup *)

(** The loop of [finalize] over [self.disk_blobs.itervalues()]. *)
Fixpoint unlink_all (infos : list (Z * Z * option string)) : M unit :=
  match infos with
  | [] => mret tt
  | (_, _, fn) :: infos' =>
      (match fn with
       | Some name => os_unlink name
       | None => mret tt
       end);;
      unlink_all infos'
  end.

Definition finalize : M unit :=
  c ← gets _cleanup;
  (match disk_blobs c with
   | Some shared_disk_blobs =>
       disk ← gets _disk_blobs;
       unlink_all (dict_values disk);;
       modify (λ m, set__cleanup (set_disk_blobs_ref None (_cleanup m)) m)
   | None => mret tt
   end);;
  c ← gets _cleanup;
  (match small_blobs c with
   | Some _ =>
       (* closing the TemporaryFile deletes it *)
       modify (λ m, set__cleanup (set_small_blobs None (_cleanup m)) m)
   | None => mret tt
   end);;
  c ← gets _cleanup;
  match tempdir c with
  | Some _ =>
      (* [shutils.rmtree(self.tempdir)]: the module imports [shutil];
         no name [shutils] is bound *)
      raise NameError
  | None => mret tt
  end.
End CacheManager.

(** *** Head tracking *)

Definition track_heads_for_ref (cmd_ref cmd_id : string)
    (parents : option (list string)) : St CacheManager unit :=
  (match parents with
   | Some parents =>
       update (λ m, set_heads
         (foldl (λ heads parent, delete parent heads) (heads m) parents) m)
   | None => mret tt
   end);;
  (* self.heads.setdefault(cmd_id, set()).add(cmd_ref) *)
  update (λ m, set_heads
    (<[cmd_id := default ∅ (heads m !! cmd_id) ∪ {[cmd_ref]}]> (heads m)) m);;
  update (λ m, set_last_ids (<[cmd_ref := cmd_id]> (last_ids m)) m);;
  update (set_last_ref (Some cmd_ref)).

Definition track_heads (cmd : CommitCommand) : St CacheManager (list string) :=
  m ← get_state;
  let parents :=
    match commit_from_ cmd with
    | Some from_ => [from_]
    | None =>
        match last_ids m !! commit_ref cmd with
        | Some last_id => [last_id]
        | None => []
        end
    end in
  let parents := parents ++ commit_merges cmd in
  track_heads_for_ref (commit_ref cmd) (commit_id cmd) (Some parents);;
  mret parents.


(** ** marks_file.py *)

(** The files the marks codec opens: [file(filename)] raises [IOError] on a
    path that does not exist or cannot be read, [file(filename, 'w')] on a
    path that cannot be written. *)
Record FileSystem := mkFS {
  fs_files : gmap string string;
  fs_unreadable : gset string;
  fs_unwritable : gset string
}.

(** What a call of the codec works on: the file system and the warnings
    [bzrlib.trace.warning] has logged. *)
Record MarksEnv := mkMarksEnv {
  fs : FileSystem;
  logged : list string
}.

Definition warning (msg : string) : St MarksEnv unit :=
  update (λ e, mkMarksEnv (fs e) (logged e ++ [msg])).

Definition file_open_read (filename : string) : St MarksEnv string := λ e,
  if bool_decide (filename ∈ fs_unreadable (fs e)) then (Raise IOError, e)
  else match fs_files (fs e) !! filename with
       | Some content => (Return content, e)
       | None => (Raise IOError, e)
       end.

(** [file(filename, 'w')] creates the file or truncates it. *)
Definition file_open_write (filename : string) : St MarksEnv unit := λ e,
  if bool_decide (filename ∈ fs_unwritable (fs e)) then (Raise IOError, e)
  else (Return tt,
        mkMarksEnv (mkFS (<[filename := ""]> (fs_files (fs e)))
                         (fs_unreadable (fs e)) (fs_unwritable (fs e)))
                   (logged e)).

(** [f.write(s)] on the file opened for writing at [filename]. *)
Definition file_write (filename s : string) : St MarksEnv unit :=
  update (λ e,
    mkMarksEnv (mkFS (<[filename := default "" (fs_files (fs e) !! filename) +:+ s]>
                        (fs_files (fs e)))
                     (fs_unreadable (fs e)) (fs_unwritable (fs e)))
               (logged e)).

Definition newline : ascii := "010"%char.

(** [for line in f]: the lines of the content, each with its newline. *)
Fixpoint file_lines (content : string) : list string :=
  match content with
  | EmptyString => []
  | String c rest =>
      if bool_decide (c = newline) then String c "" :: file_lines rest
      else match file_lines rest with
           | [] => [String c ""]
           | line :: lines => String c line :: lines
           end
  end.

(** [line.rstrip('\n')] *)
Fixpoint rstrip_newline (line : string) : string :=
  match line with
  | EmptyString => EmptyString
  | String c rest =>
      let rest' := rstrip_newline rest in
      if bool_decide (c = newline ∧ rest' = "") then "" else String c rest'
  end.

(** [line.split(' ', 1)] *)
Fixpoint split_space_1 (line : string) : list string :=
  match line with
  | EmptyString => [""]
  | String c rest =>
      if bool_decide (c = " "%char) then [""; rest]
      else match split_space_1 rest with
           | head :: tail => String c head :: tail
           | [] => [String c ""]
           end
  end.

(** [if mark.startswith(':'): mark = mark[1:]] *)
Definition strip_colon (mark : string) : string :=
  match mark with
  | String ":" rest => rest
  | _ => mark
  end.

(** The loop of [import_marks] over the lines of the file. *)
Fixpoint import_lines (lines : list string) (revision_ids : gmap string string)
    : outcome (gmap string string) :=
  match lines with
  | [] => Return revision_ids
  | line :: lines' =>
      let line := rstrip_newline line in
      match split_space_1 line with
      | [mark; revid] =>
          import_lines lines' (<[strip_colon mark := revid]> revision_ids)
      | _ => (* unpacking into [mark, revid] fails *) Raise ValueError
      end
  end.

(** [None] is Python's [None]. *)
Definition import_marks (filename : string)
    : St MarksEnv (option (gmap string string)) := λ e,
  match file_open_read filename e with
  | (Raise IOError, e') =>
      (warning ("Could not import marks file " +:+ filename +:+
                " - not importing marks");;
       mret None) e'
  | (Raise x, e') => (Raise x, e')
  | (Return content, e') =>
      match import_lines (file_lines content) ∅ with
      | Return revision_ids => (Return (Some revision_ids), e')
      | Raise x => (Raise x, e')
      end
  end.

(** [':%s %s\n' % (mark, revid)] *)
Definition marks_line (mark revid : string) : string :=
  ":" +:+ mark +:+ " " +:+ revid +:+ String newline "".

Section export_marks.
Context `{DictOrder}.

Fixpoint export_lines (filename : string) (items : list (string * string))
    : St MarksEnv unit :=
  match items with
  | [] => mret tt
  | (mark, revid) :: items' =>
      file_write filename (marks_line mark revid);;
      export_lines filename items'
  end.

Definition export_marks (filename : string) (revision_ids : gmap string string)
    : St MarksEnv unit := λ e,
  match file_open_write filename e with
  | (Raise IOError, e') =>
      warning ("Could not open export-marks file " +:+ filename +:+
               " - not exporting marks") e'
  | (Raise x, e') => (Raise x, e')
  | (Return _, e') => export_lines filename (dict_items revision_ids) e'
  end.
End export_marks.

(** ** processors/info_processor.py: class InfoProcessor *)

Record BlobCommand := mkBlob {
  blob_name : string;
  blob_mark : option string;
  blob_id : string
}.

Record ResetCommand := mkReset {
  reset_name : string;
  reset_ref : string;
  reset_from_ : option string
}.

Inductive Command :=
  | Blob (cmd : BlobCommand)
  | Commit (cmd : CommitCommand)
  | Reset (cmd : ResetCommand)
  | Progress (name : string)
  | Checkpoint (name : string)
  | Tag (name : string)
  | Feature (name feature_name : string).

(** [self.blobs]: a dictionary with the four keys ['new'], ['used'],
    ['unknown'] and ['unmarked'] from [pre_process] on, each a set. *)
Record BlobUsage := mkBlobUsage {
  blobs_new : gset string;
  blobs_used : gset string;
  blobs_unknown : gset string;
  blobs_unmarked : gset string
}.

Record InfoProcessor := mkInfoProcessor {
  cmd_counts : gmap string Z;
  file_cmd_counts : gmap string Z;
  parent_counts : gmap Z Z;
  max_parent_count : Z;
  committers : gset string;
  separate_authors_found : bool;
  symlinks_found : bool;
  executables_found : bool;
  sha_blob_references : bool;
  lightweight_tags : Z;
  blobs : BlobUsage;
  blob_ref_counts : gmap string Z;
  cache_mgr : CacheManager;
  merges : gmap string Z;
  rename_old_paths : gmap string (gset string);
  copy_source_paths : gmap string (gset string);
  warnings : list string
}.

Definition with_cmd_counts (v : gmap string Z) (s : InfoProcessor) : InfoProcessor :=
  mkInfoProcessor v (file_cmd_counts s) (parent_counts s) (max_parent_count
    s) (committers s) (separate_authors_found s) (symlinks_found s)
    (executables_found s) (sha_blob_references s) (lightweight_tags s)
    (blobs s) (blob_ref_counts s) (cache_mgr s) (merges s) (rename_old_paths
    s) (copy_source_paths s) (warnings s).
Definition with_file_cmd_counts (v : gmap string Z) (s : InfoProcessor) : InfoProcessor :=
  mkInfoProcessor (cmd_counts s) v (parent_counts s) (max_parent_count s)
    (committers s) (separate_authors_found s) (symlinks_found s)
    (executables_found s) (sha_blob_references s) (lightweight_tags s)
    (blobs s) (blob_ref_counts s) (cache_mgr s) (merges s) (rename_old_paths
    s) (copy_source_paths s) (warnings s).
Definition with_parent_counts (v : gmap Z Z) (s : InfoProcessor) : InfoProcessor :=
  mkInfoProcessor (cmd_counts s) (file_cmd_counts s) v (max_parent_count s)
    (committers s) (separate_authors_found s) (symlinks_found s)
    (executables_found s) (sha_blob_references s) (lightweight_tags s)
    (blobs s) (blob_ref_counts s) (cache_mgr s) (merges s) (rename_old_paths
    s) (copy_source_paths s) (warnings s).
Definition with_max_parent_count (v : Z) (s : InfoProcessor) : InfoProcessor :=
  mkInfoProcessor (cmd_counts s) (file_cmd_counts s) (parent_counts s) v
    (committers s) (separate_authors_found s) (symlinks_found s)
    (executables_found s) (sha_blob_references s) (lightweight_tags s)
    (blobs s) (blob_ref_counts s) (cache_mgr s) (merges s) (rename_old_paths
    s) (copy_source_paths s) (warnings s).
Definition with_committers (v : gset string) (s : InfoProcessor) : InfoProcessor :=
  mkInfoProcessor (cmd_counts s) (file_cmd_counts s) (parent_counts s)
    (max_parent_count s) v (separate_authors_found s) (symlinks_found s)
    (executables_found s) (sha_blob_references s) (lightweight_tags s)
    (blobs s) (blob_ref_counts s) (cache_mgr s) (merges s) (rename_old_paths
    s) (copy_source_paths s) (warnings s).
Definition with_separate_authors_found (v : bool) (s : InfoProcessor) : InfoProcessor :=
  mkInfoProcessor (cmd_counts s) (file_cmd_counts s) (parent_counts s)
    (max_parent_count s) (committers s) v (symlinks_found s)
    (executables_found s) (sha_blob_references s) (lightweight_tags s)
    (blobs s) (blob_ref_counts s) (cache_mgr s) (merges s) (rename_old_paths
    s) (copy_source_paths s) (warnings s).
Definition with_symlinks_found (v : bool) (s : InfoProcessor) : InfoProcessor :=
  mkInfoProcessor (cmd_counts s) (file_cmd_counts s) (parent_counts s)
    (max_parent_count s) (committers s) (separate_authors_found s) v
    (executables_found s) (sha_blob_references s) (lightweight_tags s)
    (blobs s) (blob_ref_counts s) (cache_mgr s) (merges s) (rename_old_paths
    s) (copy_source_paths s) (warnings s).
Definition with_executables_found (v : bool) (s : InfoProcessor) : InfoProcessor :=
  mkInfoProcessor (cmd_counts s) (file_cmd_counts s) (parent_counts s)
    (max_parent_count s) (committers s) (separate_authors_found s)
    (symlinks_found s) v (sha_blob_references s) (lightweight_tags s) (blobs
    s) (blob_ref_counts s) (cache_mgr s) (merges s) (rename_old_paths s)
    (copy_source_paths s) (warnings s).
Definition with_sha_blob_references (v : bool) (s : InfoProcessor) : InfoProcessor :=
  mkInfoProcessor (cmd_counts s) (file_cmd_counts s) (parent_counts s)
    (max_parent_count s) (committers s) (separate_authors_found s)
    (symlinks_found s) (executables_found s) v (lightweight_tags s) (blobs
    s) (blob_ref_counts s) (cache_mgr s) (merges s) (rename_old_paths s)
    (copy_source_paths s) (warnings s).
Definition with_lightweight_tags (v : Z) (s : InfoProcessor) : InfoProcessor :=
  mkInfoProcessor (cmd_counts s) (file_cmd_counts s) (parent_counts s)
    (max_parent_count s) (committers s) (separate_authors_found s)
    (symlinks_found s) (executables_found s) (sha_blob_references s) v
    (blobs s) (blob_ref_counts s) (cache_mgr s) (merges s) (rename_old_paths
    s) (copy_source_paths s) (warnings s).
Definition with_blobs (v : BlobUsage) (s : InfoProcessor) : InfoProcessor :=
  mkInfoProcessor (cmd_counts s) (file_cmd_counts s) (parent_counts s)
    (max_parent_count s) (committers s) (separate_authors_found s)
    (symlinks_found s) (executables_found s) (sha_blob_references s)
    (lightweight_tags s) v (blob_ref_counts s) (cache_mgr s) (merges s)
    (rename_old_paths s) (copy_source_paths s) (warnings s).
Definition with_blob_ref_counts (v : gmap string Z) (s : InfoProcessor) : InfoProcessor :=
  mkInfoProcessor (cmd_counts s) (file_cmd_counts s) (parent_counts s)
    (max_parent_count s) (committers s) (separate_authors_found s)
    (symlinks_found s) (executables_found s) (sha_blob_references s)
    (lightweight_tags s) (blobs s) v (cache_mgr s) (merges s)
    (rename_old_paths s) (copy_source_paths s) (warnings s).
Definition with_cache_mgr (v : CacheManager) (s : InfoProcessor) : InfoProcessor :=
  mkInfoProcessor (cmd_counts s) (file_cmd_counts s) (parent_counts s)
    (max_parent_count s) (committers s) (separate_authors_found s)
    (symlinks_found s) (executables_found s) (sha_blob_references s)
    (lightweight_tags s) (blobs s) (blob_ref_counts s) v (merges s)
    (rename_old_paths s) (copy_source_paths s) (warnings s).
Definition with_merges (v : gmap string Z) (s : InfoProcessor) : InfoProcessor :=
  mkInfoProcessor (cmd_counts s) (file_cmd_counts s) (parent_counts s)
    (max_parent_count s) (committers s) (separate_authors_found s)
    (symlinks_found s) (executables_found s) (sha_blob_references s)
    (lightweight_tags s) (blobs s) (blob_ref_counts s) (cache_mgr s) v
    (rename_old_paths s) (copy_source_paths s) (warnings s).
Definition with_rename_old_paths (v : gmap string (gset string)) (s : InfoProcessor) : InfoProcessor :=
  mkInfoProcessor (cmd_counts s) (file_cmd_counts s) (parent_counts s)
    (max_parent_count s) (committers s) (separate_authors_found s)
    (symlinks_found s) (executables_found s) (sha_blob_references s)
    (lightweight_tags s) (blobs s) (blob_ref_counts s) (cache_mgr s) (merges
    s) v (copy_source_paths s) (warnings s).
Definition with_copy_source_paths (v : gmap string (gset string)) (s : InfoProcessor) : InfoProcessor :=
  mkInfoProcessor (cmd_counts s) (file_cmd_counts s) (parent_counts s)
    (max_parent_count s) (committers s) (separate_authors_found s)
    (symlinks_found s) (executables_found s) (sha_blob_references s)
    (lightweight_tags s) (blobs s) (blob_ref_counts s) (cache_mgr s) (merges
    s) (rename_old_paths s) v (warnings s).
Definition with_warnings (v : list string) (s : InfoProcessor) : InfoProcessor :=
  mkInfoProcessor (cmd_counts s) (file_cmd_counts s) (parent_counts s)
    (max_parent_count s) (committers s) (separate_authors_found s)
    (symlinks_found s) (executables_found s) (sha_blob_references s)
    (lightweight_tags s) (blobs s) (blob_ref_counts s) (cache_mgr s) (merges
    s) (rename_old_paths s) (copy_source_paths s) v.

(** [d[key] += 1] *)
Definition dict_incr (key : string) (d : gmap string Z) : outcome (gmap string Z) :=
  match d !! key with
  | Some n => Return (<[key := n + 1]> d)
  | None => Raise KeyError
  end.

(** [self.cmd_counts[cmd.name] += 1] *)
Definition count_cmd (name : string) : St InfoProcessor unit := λ s,
  match dict_incr name (cmd_counts s) with
  | Return d => (Return tt, with_cmd_counts d s)
  | Raise e => (Raise e, s)
  end.

Definition count_file_cmd (name : string) : St InfoProcessor unit := λ s,
  match dict_incr name (file_cmd_counts s) with
  | Return d => (Return tt, with_file_cmd_counts d s)
  | Raise e => (Raise e, s)
  end.

(** The head tracking is delegated to the cache manager. *)
Definition on_cache_mgr {A} (m : St CacheManager A) : St InfoProcessor A := λ s,
  let '(r, c) := m (cache_mgr s) in (r, with_cache_mgr c s).

(** [d.setdefault(key, set()).add(x)] *)
Definition setdefault_add (key x : string) (d : gmap string (gset string))
    : gmap string (gset string) :=
  <[key := default ∅ (d !! key) ∪ {[x]}]> d.

Section InfoProcessor.
(** The constants of [commands.py], which is not among the sources. *)
Context (COMMAND_NAMES FILE_COMMAND_NAMES : list string) (SYMLINK_KIND : string).

Definition pre_process : InfoProcessor := {|
  cmd_counts := list_to_map ((λ cmd, (cmd, 0)) <$> COMMAND_NAMES);
  file_cmd_counts := list_to_map ((λ fc, (fc, 0)) <$> FILE_COMMAND_NAMES);
  parent_counts := ∅;
  max_parent_count := 0;
  committers := ∅;
  separate_authors_found := false;
  symlinks_found := false;
  executables_found := false;
  sha_blob_references := false;
  lightweight_tags := 0;
  blobs := mkBlobUsage ∅ ∅ ∅ ∅;
  blob_ref_counts := ∅;
  cache_mgr := new_CacheManager;
  merges := ∅;
  rename_old_paths := ∅;
  copy_source_paths := ∅;
  warnings := []
|}.

Definition _track_blob (mark : string) : St InfoProcessor unit :=
  update (λ s,
    let b := blobs s in
    match blob_ref_counts s !! mark with
    | Some n => with_blob_ref_counts (<[mark := n + 1]> (blob_ref_counts s)) s
    | None =>
        if bool_decide (mark ∈ blobs_used b) then
          with_blobs
            (mkBlobUsage (blobs_new b) (blobs_used b ∖ {[mark]})
               (blobs_unknown b) (blobs_unmarked b))
            (with_blob_ref_counts (<[mark := 2]> (blob_ref_counts s)) s)
        else if bool_decide (mark ∈ blobs_new b) then
          with_blobs
            (mkBlobUsage (blobs_new b ∖ {[mark]}) (blobs_used b ∪ {[mark]})
               (blobs_unknown b) (blobs_unmarked b)) s
        else
          with_blobs
            (mkBlobUsage (blobs_new b) (blobs_used b)
               (blobs_unknown b ∪ {[mark]}) (blobs_unmarked b)) s
    end).

Definition blob_handler (cmd : BlobCommand) : St InfoProcessor unit :=
  count_cmd (blob_name cmd);;
  update (λ s,
    let b := blobs s in
    match blob_mark cmd with
    | None =>
        with_blobs
          (mkBlobUsage (blobs_new b) (blobs_used b) (blobs_unknown b)
             (blobs_unmarked b ∪ {[blob_id cmd]})) s
    | Some _ =>
        (* Marks can be re-used so remove it from used if already there. *)
        with_blobs
          (mkBlobUsage (blobs_new b ∪ {[blob_id cmd]})
             (blobs_used b ∖ {[blob_id cmd]}) (blobs_unknown b)
             (blobs_unmarked b)) s
    end).

(** The body of the loop of [commit_handler] over [cmd.file_iter()]. *)
Definition file_cmd_handler (cmd : CommitCommand) (fc : FileCommand)
    : St InfoProcessor unit :=
  match fc with
  | FileModifyCommand name is_executable kind dataref =>
      count_file_cmd name;;
      (if is_executable then update (with_executables_found true) else mret tt);;
      (if bool_decide (kind = SYMLINK_KIND) then update (with_symlinks_found true)
       else mret tt);;
      match dataref with
      | None => mret tt
      | Some EmptyString => (* dataref[0] *) raise IndexError
      | Some (String c _ as dataref) =>
          if bool_decide (c = ":"%char) then _track_blob dataref
          else update (with_sha_blob_references true)
      end
  | FileRenameCommand name old_path =>
      count_file_cmd name;;
      update (λ s, with_rename_old_paths
        (setdefault_add (commit_id cmd) old_path (rename_old_paths s)) s)
  | FileCopyCommand name src_path =>
      count_file_cmd name;;
      update (λ s, with_copy_source_paths
        (setdefault_add (commit_id cmd) src_path (copy_source_paths s)) s)
  | FileDeleteCommand name | FileDeleteAllCommand name =>
      count_file_cmd name
  end.

Fixpoint file_cmds_handler (cmd : CommitCommand) (fcs : list FileCommand)
    : St InfoProcessor unit :=
  match fcs with
  | [] => mret tt
  | fc :: fcs' => file_cmd_handler cmd fc;; file_cmds_handler cmd fcs'
  end.

(** [for merge in cmd.merges]: count the merge. *)
Definition count_merge (merges : gmap string Z) (merge : string) : gmap string Z :=
  match merges !! merge with
  | Some n => <[merge := n + 1]> merges
  | None => <[merge := 1]> merges
  end.

Definition commit_handler (cmd : CommitCommand) : St InfoProcessor unit :=
  count_cmd (commit_name cmd);;
  update (λ s, with_committers (committers s ∪ {[commit_committer cmd]}) s);;
  (if commit_author cmd is Some _ then update (with_separate_authors_found true)
   else mret tt);;
  file_cmds_handler cmd (commit_file_iter cmd);;
  (* Track the heads *)
  parents ← on_cache_mgr (track_heads cmd);
  (* Track the parent counts *)
  let parent_count := Z.of_nat (length parents) in
  update (λ s,
    match parent_counts s !! parent_count with
    | Some n => with_parent_counts (<[parent_count := n + 1]> (parent_counts s)) s
    | None =>
        let s := with_parent_counts (<[parent_count := 1]> (parent_counts s)) s in
        if bool_decide (max_parent_count s < parent_count)
        then with_max_parent_count parent_count s else s
    end);;
  (* Remember the merges *)
  update (λ s, with_merges (foldl count_merge (merges s) (commit_merges cmd)) s).

Definition reset_handler (cmd : ResetCommand) : St InfoProcessor unit :=
  count_cmd (reset_name cmd);;
  if String.prefix "refs/tags/" (reset_ref cmd) then
    update (λ s, with_lightweight_tags (lightweight_tags s + 1) s)
  else
    match reset_from_ cmd with
    | Some from_ => on_cache_mgr (track_heads_for_ref (reset_ref cmd) from_ None)
    | None => mret tt
    end.

Definition feature_handler (name feature_name : string) : St InfoProcessor unit :=
  count_cmd name;;
  update (λ s, with_warnings
    (warnings s ++ ["assuming feature " +:+ feature_name +:+ " is supported"]) s).

(** The dispatch of a command to its handler. *)
Definition handle (cmd : Command) : St InfoProcessor unit :=
  match cmd with
  | Blob cmd => blob_handler cmd
  | Commit cmd => commit_handler cmd
  | Reset cmd => reset_handler cmd
  | Progress name | Checkpoint name | Tag name => count_cmd name
  | Feature name feature_name => feature_handler name feature_name
  end.

Fixpoint handle_all (cmds : list Command) : St InfoProcessor unit :=
  match cmds with
  | [] => mret tt
  | cmd :: cmds' => handle cmd;; handle_all cmds'
  end.

(** The informational pass over a stream of commands. *)
Definition info_pass (cmds : list Command) : outcome unit * InfoProcessor :=
  handle_all cmds pre_process.
End InfoProcessor.

(** *** Formatting of the statistics *)

(** [sorted(s)] on strings: Python 2 compares [str] values byte by byte, a
    proper prefix first, as [String.leb] does; the sorted list of a list is
    unique, and insertion sort computes it. *)
Fixpoint sorted_insert (x : string) (l : list string) : list string :=
  match l with
  | [] => [x]
  | y :: l' => if String.leb x y then x :: l else y :: sorted_insert x l'
  end.

Fixpoint sorted (l : list string) : list string :=
  match l with
  | [] => []
  | x :: l' => sorted_insert x (sorted l')
  end.

(** [sep.join(items)] *)
Fixpoint join (sep : string) (items : list string) : string :=
  match items with
  | [] => ""
  | [x] => x
  | x :: items' => x +:+ sep +:+ join sep items'
  end.

(** [s] is the iterable, given by the order in which it yields its items. *)
Definition _iterable_as_config_list (s : list string) : string :=
  let items := sorted s in
  if bool_decide (length items = 1%nat) then
    match items with
    | item :: _ => item +:+ ","
    | [] => "" (* not reached: [len(items) == 1] *)
    end
  else join ", " items.

(** * Vocabulary of the properties *)

(** The dictionary order of the examples: the order of [map_to_list]. *)
#[local] Program Instance map_order : DictOrder :=
  {| dict_items V m := map_to_list m |}.
Next Obligation. done. Qed.

(** The parents [track_heads] resolves for a commit. *)
Definition true_parents (cmd : CommitCommand) (m : CacheManager) : list string :=
  match commit_from_ cmd with
  | Some from_ => [from_]
  | None => option_list (last_ids m !! commit_ref cmd)
  end ++ commit_merges cmd.

(** A commit with neither [from_] nor merges. *)
Definition root_commit (ref id : string) : CommitCommand :=
  mkCommit "commit" ref id None "committer" None [] [].

(** The manager after the commits [cmds] have been tracked, in order. *)
Definition track_all (cmds : list CommitCommand) (m : CacheManager) : CacheManager :=
  foldl (λ m cmd, (track_heads cmd m).2) m cmds.

(** [c in s] *)
Fixpoint contains (c : ascii) (s : string) : bool :=
  match s with
  | EmptyString => false
  | String c' s' => bool_decide (c' = c) || contains c s'
  end.

(** A mark and its identifier that fit on one line of the marks file. *)
Definition fits_one_line (mark revid : string) : Prop :=
  contains " " mark = false ∧ contains newline mark = false ∧
  contains newline revid = false.

#[global] Instance fits_one_line_dec mark revid : Decision (fits_one_line mark revid).
Proof. unfold fits_one_line. apply _. Defined.

(** A file system with no file and no restriction. *)
Definition empty_env : MarksEnv := mkMarksEnv (mkFS ∅ ∅ ∅) [].

(** [fc] is a Modify file command whose content reference is [mark]. *)
Definition refers_to (mark : string) (fc : FileCommand) : bool :=
  match fc with
  | FileModifyCommand _ _ _ (Some dataref) => bool_decide (dataref = mark)
  | _ => false
  end.

(** [dataref[0] == ':']: the reference is a mark, not a SHA. *)
Definition is_mark (dataref : string) : Prop := ∃ rest, dataref = String ":" rest.

(** How many Modify file commands of [cmd], of [cmds], refer to [mark]. *)
Definition references_in (mark : string) (cmd : Command) : nat :=
  match cmd with
  | Commit cmd => length (filter (λ fc, refers_to mark fc = true) (commit_file_iter cmd))
  | _ => 0%nat
  end.

Definition references (mark : string) (cmds : list Command) : nat :=
  sum_list_with (references_in mark) cmds.

(** [cmd] is a Blob command with the id [mark]. *)
Definition declares (mark : string) (cmd : Command) : Prop :=
  match cmd with
  | Blob b => blob_id b = mark
  | _ => False
  end.

#[global] Instance declares_dec mark cmd : Decision (declares mark cmd).
Proof. destruct cmd; simpl; apply _. Defined.

(** One Blob command of [cmds] has the id [mark]; it carries a mark and no
    command before it refers to [mark]. *)
Definition declared_once_before_use (mark : string) (cmds : list Command) : Prop :=
  ∃ before b after,
    cmds = before ++ Blob b :: after ∧
    blob_id b = mark ∧ is_Some (blob_mark b) ∧
    Forall (λ cmd, ¬ declares mark cmd) before ∧
    Forall (λ cmd, ¬ declares mark cmd) after ∧
    references mark before = 0%nat.

Definition never_declared (mark : string) (cmds : list Command) : Prop :=
  Forall (λ cmd, ¬ declares mark cmd) cmds.

(** What the info processor knows of one mark: its reference count and
    whether it is in ['new'], ['used'], ['unknown'], ['unmarked']. *)
Definition mark_status (mark : string) (s : InfoProcessor)
    : option Z * bool * bool * bool * bool :=
  (blob_ref_counts s !! mark,
   bool_decide (mark ∈ blobs_new (blobs s)),
   bool_decide (mark ∈ blobs_used (blobs s)),
   bool_decide (mark ∈ blobs_unknown (blobs s)),
   bool_decide (mark ∈ blobs_unmarked (blobs s))).

(** The effect of one [_track_blob(mark)] on the status of [mark]. *)
Definition track_status (st : option Z * bool * bool * bool * bool)
    : option Z * bool * bool * bool * bool :=
  let '(count, new, used, unknown, unmarked) := st in
  match count with
  | Some n => (Some (n + 1), new, used, unknown, unmarked)
  | None =>
      if used then (Some 2, new, false, unknown, unmarked)
      else if new then (None, false, true, unknown, unmarked)
      else (None, new, used, true, unmarked)
  end.

(** A world with no file and no temporary directory. *)
Definition init_world (m : CacheManager) : World := mkWorld m ∅ ∅ [].

(** The blob [data] of [id] is in the disk tier: its entry gives its length,
    and either no file name, and then the blob is below the threshold and is
    what the small-blob file holds at the recorded offset, or the name of a
    file of its own that holds the blob, and then the blob is not below the
    threshold and the recorded offset is 0. *)
Definition on_disk (w : World) (id data : string) : Prop :=
  ∃ offset fn,
    _disk_blobs (mgr w) !! id = Some (offset, len data, fn) ∧
    match fn with
    | None =>
        len data < _small_blob_threshold ∧
        ∃ content, small_blobs (_cleanup (mgr w)) = Some content ∧
                   read_at offset (len data) content = data
    | Some name =>
        _small_blob_threshold ≤ len data ∧ offset = 0 ∧
        files w !! name = Some data
    end.

(** [id] is in none of the three tiers. *)
Definition in_no_tier (w : World) (id : string) : Prop :=
  _blobs (mgr w) !! id = None ∧ _sticky_blobs (mgr w) !! id = None ∧
  _disk_blobs (mgr w) !! id = None.

(** [id] is in at most one of the three tiers. *)
Definition in_at_most_one_tier (w : World) (id : string) : Prop :=
  (_blobs (mgr w) !! id = None ∧ _sticky_blobs (mgr w) !! id = None) ∨
  (_blobs (mgr w) !! id = None ∧ _disk_blobs (mgr w) !! id = None) ∨
  (_sticky_blobs (mgr w) !! id = None ∧ _disk_blobs (mgr w) !! id = None).

(** The blob [data] of [id] is cached, in the sticky map or in the disk
    tier, and in one of them only. *)
Definition held (w : World) (id data : string) : Prop :=
  _blobs (mgr w) !! id = None ∧
  ((_sticky_blobs (mgr w) !! id = Some data ∧ _disk_blobs (mgr w) !! id = None) ∨
   (_sticky_blobs (mgr w) !! id = None ∧ on_disk w id data)).

(** A blob of one byte more than the high-water mark. *)
Definition big_blob : string :=
  str_repeat "x" (Z.to_nat (_sticky_cache_size + 1)).

Section runs.
Context `{DictOrder}.

(** [n] calls of [fetch_blob(id)] in a row: what they return, in order, up to
    the first that raises, and the world they leave. *)
Fixpoint fetch_times (n : nat) (id : string) (w : World)
    : list (outcome string) * World :=
  match n with
  | O => ([], w)
  | S n' =>
      let '(r, w1) := fetch_blob id w in
      let '(rs, w2) := fetch_times n' id w1 in
      (r :: rs, w2)
  end.

(** The operations on the blob store. *)
Inductive blob_op :=
  | Store (id data : string)
  | Fetch (id : string)
  | Flush.

Definition run_op (op : blob_op) (w : World) : World :=
  match op with
  | Store id data => (store_blob id data w).2
  | Fetch id => (fetch_blob id w).2
  | Flush => (_flush_blobs_to_disk w).2
  end.

(** The worlds a new manager reaches by any sequence of operations. *)
Inductive reachable : World → Prop :=
  | reachable_init info m :
      CacheManager_init info = Return m → reachable (init_world m)
  | reachable_op op w : reachable w → reachable (run_op op w).

(** The worlds a new manager reaches when no blob is stored under an id that
    is in one of the tiers. *)
Inductive reachable_fresh : World → Prop :=
  | reachable_fresh_init info m :
      CacheManager_init info = Return m → reachable_fresh (init_world m)
  | reachable_fresh_store id data w :
      reachable_fresh w → in_no_tier w id →
      reachable_fresh (run_op (Store id data) w)
  | reachable_fresh_fetch id w :
      reachable_fresh w → reachable_fresh (run_op (Fetch id) w)
  | reachable_fresh_flush w :
      reachable_fresh w → reachable_fresh (run_op Flush w).
End runs.

(** The manager once [blob] has been popped from the sticky map. *)
Definition popped (id blob : string) (m : CacheManager) : CacheManager :=
  set__sticky_memory_bytes (_sticky_memory_bytes m - len blob)
    (set__sticky_blobs (delete id (_sticky_blobs m)) m).

(** What a flush leaves alone: the transient map and the reference counts
    stay, the sticky map only loses blobs, and an entry of the disk tier
    changes only for a blob that leaves the sticky map. *)
Definition flush_frame (w w' : World) : Prop :=
  _blobs (mgr w') = _blobs (mgr w) ∧
  _blob_ref_counts (mgr w') = _blob_ref_counts (mgr w) ∧
  (∀ x d, _sticky_blobs (mgr w') !! x = Some d →
          _sticky_blobs (mgr w) !! x = Some d) ∧
  (∀ x, _disk_blobs (mgr w') !! x ≠ _disk_blobs (mgr w) !! x →
        is_Some (_sticky_blobs (mgr w) !! x) ∧
        _sticky_blobs (mgr w') !! x = None).

(** The world in which the loop of a flush starts: the temporary directory
    and the small-blob file exist. *)
Definition flush_prepare (w : World) : World :=
  match _tempdir (mgr w) with
  | Some _ => w
  | None =>
      let d := fresh_string_of_set "bzr_fastimport_blobs-" (dirs w) in
      set_mgr
        (set__cleanup
           (set_small_blobs (Some "")
              (set_tempdir (Some d) (_cleanup (mgr w))))
           (set__tempdir (Some d) (mgr w)))
        (set_dirs ({[d]} ∪ dirs w) w)
  end.

(** The size of the sticky blob [k], the sort key of a flush. *)
Definition sticky_size (w : World) (k : string) : Z :=
  len (default "" (_sticky_blobs (mgr w) !! k)).

(** The sticky blobs in the order in which a flush pops them. *)
Definition flush_stack `{DictOrder} (w : World) : list string :=
  reverse (list_sort (sticky_size w) (dict_keys (_sticky_blobs (mgr w)))).

(** The world once [store_blob] has put a blob into the sticky map and
    counted its size. *)
Definition stored_sticky (id data : string) (w : World) : World :=
  set_mgr
    (set__sticky_memory_bytes (_sticky_memory_bytes (mgr w) + len data)
       (set__sticky_blobs (<[id := data]> (_sticky_blobs (mgr w))) (mgr w))) w.

(** [store_blob] treats the blob as reference counted. *)
Definition counted (w : World) (id : string) : Prop :=
  _blob_ref_counts (mgr w) = ∅ ∨ is_Some (_blob_ref_counts (mgr w) !! id).

(** No tier of [w'] holds anything that the same tier of [w] did not hold. *)
Definition tiers_shrink (w w' : World) : Prop :=
  ∀ x,
    (_blobs (mgr w') !! x = None ∨ _blobs (mgr w') !! x = _blobs (mgr w) !! x) ∧
    (_sticky_blobs (mgr w') !! x = None ∨
     _sticky_blobs (mgr w') !! x = _sticky_blobs (mgr w) !! x) ∧
    (_disk_blobs (mgr w') !! x = None ∨
     _disk_blobs (mgr w') !! x = _disk_blobs (mgr w) !! x).

(** The content [export_lines] appends for a list of items. *)
Definition marks_text (items : list (string * string)) : string :=
  foldr (λ '(mark, revid) text, marks_line mark revid +:+ text) "" items.

(** The bytes the sticky map holds. *)
Definition sticky_bytes (m : gmap string string) : Z :=
  map_fold (λ _ blob total, len blob + total) 0 m.

(** The memory counter counts the bytes of the sticky map, and the small-blob
    file is open once the temporary directory is set. *)
Definition consistent (w : World) : Prop :=
  _sticky_memory_bytes (mgr w) = sticky_bytes (_sticky_blobs (mgr w)) ∧
  (_tempdir (mgr w) = None ∨ is_Some (small_blobs (_cleanup (mgr w)))).

(** ** Vocabulary of the further properties *)

(** *** The marks file *)

(** One line of a marks file, with or without the colon before the mark. *)
Definition marks_file_line (colon : bool) (mark revid : string) : string :=
  (if colon then ":" else "") +:+ mark +:+ String " " (revid +:+ String newline "").

(** The line is read as [mark] and [revid]: both fit on one line, and a mark
    that starts with a colon is written with the colon before it. *)
Definition reads_as (colon : bool) (mark revid : string) : Prop :=
  fits_one_line mark revid ∧ (colon = true ∨ strip_colon mark = mark).

#[global] Instance reads_as_dec colon mark revid : Decision (reads_as colon mark revid).
Proof. unfold reads_as. apply _. Defined.

(** A marks file of the lines [entries], in order. *)
Definition marks_file_text (entries : list (bool * string * string)) : string :=
  foldr (λ '(colon, mark, revid) text, marks_file_line colon mark revid +:+ text)
    "" entries.

(** The environment [e] with the content of [filename] replaced. *)
Definition with_file (filename content : string) (e : MarksEnv) : MarksEnv :=
  mkMarksEnv (mkFS (<[filename := content]> (fs_files (fs e)))
                   (fs_unreadable (fs e)) (fs_unwritable (fs e)))
             (logged e).

(** *** The informational pass *)

(** [cmd.name] *)
Definition cmd_name (cmd : Command) : string :=
  match cmd with
  | Blob cmd => blob_name cmd
  | Commit cmd => commit_name cmd
  | Reset cmd => reset_name cmd
  | Progress name | Checkpoint name | Tag name => name
  | Feature name _ => name
  end.

(** [fc.name] *)
Definition file_cmd_name (fc : FileCommand) : string :=
  match fc with
  | FileModifyCommand name _ _ _ => name
  | FileRenameCommand name _ => name
  | FileCopyCommand name _ => name
  | FileDeleteCommand name => name
  | FileDeleteAllCommand name => name
  end.

(** The file commands of a command: those of a commit, none otherwise. *)
Definition file_cmds_of (cmd : Command) : list FileCommand :=
  match cmd with
  | Commit cmd => commit_file_iter cmd
  | _ => []
  end.

(** How many elements of [l] satisfy [P]. *)
Definition count_where {A} (P : A → Prop) `{∀ x, Decision (P x)} (l : list A) : Z :=
  Z.of_nat (length (filter P l)).

(** A file command the pass can count: its name is a key of
    [file_cmd_counts], and its content reference, if it has one, is not the
    empty string. *)
Definition known_file_cmd (names : list string) (fc : FileCommand) : Prop :=
  file_cmd_name fc ∈ names ∧
  match fc with
  | FileModifyCommand _ _ _ (Some dataref) => dataref ≠ ""
  | _ => True
  end.

#[global] Instance known_file_cmd_dec names fc : Decision (known_file_cmd names fc).
Proof. unfold known_file_cmd. destruct fc as [? ? ? [?|]| | | |]; apply _. Defined.

(** A command the pass can count: its name is a key of [cmd_counts], and so
    are its file commands. *)
Definition known_cmd (cmd_names file_cmd_names : list string) (cmd : Command)
    : Prop :=
  cmd_name cmd ∈ cmd_names ∧
  Forall (known_file_cmd file_cmd_names) (file_cmds_of cmd).

#[global] Instance known_cmd_dec cmd_names file_cmd_names cmd :
  Decision (known_cmd cmd_names file_cmd_names cmd).
Proof. unfold known_cmd. apply _. Defined.

(** The merges of a command: those of a commit, none otherwise. *)
Definition merges_of (cmd : Command) : list string :=
  match cmd with
  | Commit cmd => commit_merges cmd
  | _ => []
  end.

(** A Reset command on a ref under [refs/tags/]. *)
Definition tag_reset (cmd : Command) : Prop :=
  match cmd with
  | Reset cmd => String.prefix "refs/tags/" (reset_ref cmd) = true
  | _ => False
  end.

#[global] Instance tag_reset_dec cmd : Decision (tag_reset cmd).
Proof. destruct cmd; simpl; apply _. Defined.

(** [cmd] is a Commit command. *)
Definition is_commit (cmd : Command) : Prop :=
  match cmd with
  | Commit _ => True
  | _ => False
  end.

#[global] Instance is_commit_dec cmd : Decision (is_commit cmd).
Proof. destruct cmd; simpl; apply _. Defined.

(** The sum of the values of a dictionary of counts. *)
Definition total_count {K} `{Countable K} (d : gmap K Z) : Z :=
  map_fold (λ _ n total, n + total) 0 d.

(** What the handling of file commands leaves alone. *)
Definition file_cmd_frame (s s' : InfoProcessor) : Prop :=
  cmd_counts s' = cmd_counts s ∧ parent_counts s' = parent_counts s ∧
  max_parent_count s' = max_parent_count s ∧ committers s' = committers s ∧
  separate_authors_found s' = separate_authors_found s ∧
  lightweight_tags s' = lightweight_tags s ∧ cache_mgr s' = cache_mgr s ∧
  merges s' = merges s ∧ warnings s' = warnings s.

(** The flags a file command raises. *)
Definition is_executable_cmd (fc : FileCommand) : bool :=
  match fc with
  | FileModifyCommand _ is_executable _ _ => is_executable
  | _ => false
  end.

Definition is_symlink_cmd (symlink_kind : string) (fc : FileCommand) : bool :=
  match fc with
  | FileModifyCommand _ _ kind _ => bool_decide (kind = symlink_kind)
  | _ => false
  end.

Definition refers_by_sha (fc : FileCommand) : bool :=
  match fc with
  | FileModifyCommand _ _ _ (Some (String c _)) => bool_decide (c ≠ ":"%char)
  | _ => false
  end.

(** A commit that names an author. *)
Definition has_author (cmd : Command) : bool :=
  match cmd with
  | Commit cmd => bool_decide (is_Some (commit_author cmd))
  | _ => false
  end.

(** [d] with [k] more counted under every key it has, [k] given by [count]. *)
Definition counted_up (count : string → Z) (d d' : gmap string Z) : Prop :=
  ∀ name, d' !! name = (λ n, n + count name) <$> d !! name.

(** The computation [m] keeps the invariant [I], whether it returns or
    raises. *)
Definition preserves {S A} (I : S → Prop) (m : St S A) : Prop :=
  ∀ s, I s → I (m s).2.

(** Whatever the computation [m] raises satisfies [P]. *)
Definition raises_only {S A} (P : exn → Prop) (m : St S A) : Prop :=
  ∀ s e s', m s = (Raise e, s') → P e.

(** The usage sets and the reference counts fit together: no mark is both
    new and used, and a mark with a reference count has one of 2 or more and
    is not in the set of the marks used once. *)
Definition usage_ok (s : InfoProcessor) : Prop :=
  (∀ mark, mark ∈ blobs_new (blobs s) → mark ∉ blobs_used (blobs s)) ∧
  (∀ mark n, blob_ref_counts s !! mark = Some n →
     2 ≤ n ∧ mark ∉ blobs_used (blobs s)).

(** [max_parent_count] is the largest key of [parent_counts], and 0 as long
    as there is none; the keys are not negative and the counts are
    positive. *)
Definition parent_counts_ok (s : InfoProcessor) : Prop :=
  (∀ k n, parent_counts s !! k = Some n → 0 ≤ k ≤ max_parent_count s ∧ 1 ≤ n) ∧
  (parent_counts s = ∅ ∧ max_parent_count s = 0 ∨
   is_Some (parent_counts s !! max_parent_count s)).

(** The file commands and the merges of a stream, in order. *)
Definition all_file_cmds (cmds : list Command) : list FileCommand :=
  concat (file_cmds_of <$> cmds).

Definition all_merges (cmds : list Command) : list string :=
  concat (merges_of <$> cmds).

(** The keys of the dictionary of counts [d] are [names]. *)
Definition has_keys (names : list string) (d : gmap string Z) : Prop :=
  ∀ name, is_Some (d !! name) ↔ name ∈ names.

(** A stream of the examples: a blob, a commit of it by an author on a
    branch, a merge commit that refers to a blob by its SHA, and the reset of
    a tag. *)
Definition example_stream : list Command :=
  [Blob (mkBlob "blob" (Some "1") ":1");
   Commit (mkCommit "commit" "refs/heads/master" ":2" (Some "author")
             "committer" None []
             [FileModifyCommand "filemodify" true "file" (Some ":1")]);
   Commit (mkCommit "commit" "refs/heads/master" ":3" None "committer" None
             [":9"; ":9"]
             [FileModifyCommand "filemodify" false "symlink" (Some "0a1b");
              FileDeleteCommand "filedelete"]);
   Reset (mkReset "reset" "refs/tags/v1" (Some ":3"))].

(** The pass over the stream of the examples. *)
Definition example_pass : outcome unit * InfoProcessor :=
  info_pass ["blob"; "commit"; "reset"; "tag"] ["filemodify"; "filedelete"]
    "symlink" example_stream.

(** *** Head tracking *)

(** A commit on [ref] that names neither a parent nor a merge: it follows
    the last commit of its ref. *)
Definition follows_on (ref : string) (cmd : CommitCommand) : Prop :=
  commit_ref cmd = ref ∧ commit_from_ cmd = None ∧ commit_merges cmd = [].

#[global] Instance follows_on_dec ref cmd : Decision (follows_on ref cmd).
Proof. unfold follows_on. apply _. Defined.

(** The ids a stream can make a head: the id of a commit, and the [from_] of
    a reset. *)
Definition names_head (id : string) (cmd : Command) : Prop :=
  match cmd with
  | Commit cmd => commit_id cmd = id
  | Reset cmd => reset_from_ cmd = Some id
  | _ => False
  end.

(** The heads of [m] are ids of the stream [cmds], on refs that have a last
    id, and no head is left without a ref. *)
Definition heads_ok (cmds : list Command) (m : CacheManager) : Prop :=
  ∀ id refs, heads m !! id = Some refs →
    Exists (names_head id) cmds ∧ refs ≠ ∅ ∧
    ∀ ref, ref ∈ refs → is_Some (last_ids m !! ref).

(** *** The blob cache *)

(** A blob of 200 MiB: above the low-water mark, below the high-water
    mark. *)
Definition sizeable_blob : string :=
  str_repeat "x" (Z.to_nat (200 * 1024 * 1024)).

(** The file of its own that an entry of the disk tier names, if any. *)
Definition spill_file (info : Z * Z * option string) : option string := info.2.

(** The files of the world are the spill files of the disk tier: an entry
    that names a file has it, no two entries name the same file, and every
    file is named by an entry. The cleanup helper shares the dictionary of
    the disk tier and knows the temporary directory of the manager. *)
Definition spill_files_ok (w : World) : Prop :=
  (∀ id info name, _disk_blobs (mgr w) !! id = Some info →
     spill_file info = Some name → is_Some (files w !! name)) ∧
  (∀ id1 id2 info1 info2 name,
     _disk_blobs (mgr w) !! id1 = Some info1 →
     _disk_blobs (mgr w) !! id2 = Some info2 →
     spill_file info1 = Some name → spill_file info2 = Some name → id1 = id2) ∧
  (∀ name, is_Some (files w !! name) →
     ∃ id info, _disk_blobs (mgr w) !! id = Some info ∧
                spill_file info = Some name) ∧
  disk_blobs (_cleanup (mgr w)) = Some shared_disk_blobs ∧
  tempdir (_cleanup (mgr w)) = _tempdir (mgr w).

(** * Properties *)

#[local] Set Warnings "-clear-no-such-hyp".

Ltac monad_unfold :=
  unfold mbind, St_bind, mret, St_ret, gets, modify, modify_world, update,
    raise, get_state, on_mgr in *.

(** ** The monad *)

Lemma bind_Return {S A B} (m : St S A) (k : A → St S B) s b s' :
  (m ≫= k) s = (Return b, s') →
  ∃ a s1, m s = (Return a, s1) ∧ k a s1 = (Return b, s').
Proof.
  unfold mbind, St_bind. destruct (m s) as [[a|e] s1]; [eauto|done].
Qed.

Lemma bind_run {S A B} (m : St S A) (k : A → St S B) s a s1 :
  m s = (Return a, s1) → (m ≫= k) s = k a s1.
Proof. unfold mbind, St_bind. by intros ->. Qed.

Lemma bind_Raise {S A B} (m : St S A) (k : A → St S B) s e s1 :
  m s = (Raise e, s1) → (m ≫= k) s = (Raise e, s1).
Proof. unfold mbind, St_bind. by intros ->. Qed.

(** ** Head tracking *)

Lemma lookup_foldl_delete {V} (ks : list string) (m : gmap string V) k :
  foldl (λ h p, delete p h) m ks !! k = if decide (k ∈ ks) then None else m !! k.
Proof.
  revert m. induction ks as [|p ks IH]; intros m; simpl.
  - destruct (decide (k ∈ [])) as [Hin|]; [|done]. by apply elem_of_nil in Hin.
  - rewrite IH. destruct (decide (k ∈ ks)) as [Hin|Hnin].
    + destruct (decide (k ∈ p :: ks)) as [|Hn]; [done|]. set_solver.
    + destruct (decide (k = p)) as [->|Hne].
      * rewrite lookup_delete_eq.
        destruct (decide (p ∈ p :: ks)) as [|Hn]; [done|]. set_solver.
      * rewrite lookup_delete_ne by done.
        destruct (decide (k ∈ p :: ks)) as [Hin'|]; [|done].
        apply elem_of_cons in Hin' as [?|?]; done.
Qed.

Lemma track_heads_run cmd m :
  ∃ m', track_heads cmd m = (Return (true_parents cmd m), m') ∧
    (∀ k, heads m' !! k =
       if decide (k = commit_id cmd) then
         Some ((if decide (k ∈ true_parents cmd m) then ∅
                else default ∅ (heads m !! k)) ∪ {[commit_ref cmd]})
       else if decide (k ∈ true_parents cmd m) then None
       else heads m !! k) ∧
    last_ids m' = <[commit_ref cmd := commit_id cmd]> (last_ids m) ∧
    last_ref m' = Some (commit_ref cmd).
Proof.
  exists (track_heads cmd m).2.
  assert (Hrun : track_heads cmd m = (Return (true_parents cmd m),
    set_last_ref (Some (commit_ref cmd))
      (set_last_ids (<[commit_ref cmd := commit_id cmd]> (last_ids m))
        (let h := foldl (λ h p, delete p h) (heads m) (true_parents cmd m) in
         set_heads (<[commit_id cmd :=
                      default ∅ (h !! commit_id cmd) ∪ {[commit_ref cmd]}]> h) m)))).
  { unfold track_heads, track_heads_for_ref, true_parents. monad_unfold. simpl.
    destruct (commit_from_ cmd); [reflexivity|].
    destruct (last_ids m !! commit_ref cmd); reflexivity. }
  rewrite Hrun. simpl. split; [done|]. split; [|done].
  intros k. destruct (decide (k = commit_id cmd)) as [->|Hne].
  - rewrite lookup_insert_eq, lookup_foldl_delete.
    by destruct (decide _).
  - rewrite lookup_insert_ne by done. apply lookup_foldl_delete.
Qed.

(** C3. [track_heads] returns [from_] if there is one, else the last id seen
    on the ref if there is one, else nothing, followed by the merges; no
    returned parent other than the commit itself is a head afterwards, the
    commit is a head of its ref, every other head is untouched. After two
    commits without parents, [c1] on [r1] and [c2] on [r2], tracking a commit
    [c3] on [r1] with [from_ = c1] and [merges = [c2]] returns [[c1; c2]] and
    leaves exactly the heads [{c3: {r1}}]. *)
Theorem track_heads_parents_and_heads :
  (∀ cmd m, ∃ m',
     track_heads cmd m = (Return (true_parents cmd m), m') ∧
     (∀ k, heads m' !! k =
        if decide (k = commit_id cmd) then
          Some ((if decide (k ∈ true_parents cmd m) then ∅
                 else default ∅ (heads m !! k)) ∪ {[commit_ref cmd]})
        else if decide (k ∈ true_parents cmd m) then None
        else heads m !! k) ∧
     last_ids m' = <[commit_ref cmd := commit_id cmd]> (last_ids m) ∧
     last_ref m' = Some (commit_ref cmd)) ∧
  (∀ c1 c2 c3 r1 r2 name author committer files,
     let m2 := track_all [root_commit r1 c1; root_commit r2 c2] new_CacheManager in
     let cmd3 := mkCommit name r1 c3 author committer (Some c1) [c2] files in
     (track_heads cmd3 m2).1 = Return [c1; c2] ∧
     heads (track_heads cmd3 m2).2 = {[ c3 := {[ r1 ]} ]}).
Proof.
  split; [exact track_heads_run|].
  intros c1 c2 c3 r1 r2 name author committer fs. cbv zeta.
  unfold track_all. cbn [foldl].
  destruct (track_heads_run (root_commit r1 c1) new_CacheManager)
    as (m1 & E1 & Hh1 & _).
  rewrite E1. cbn [snd].
  destruct (track_heads_run (root_commit r2 c2) m1) as (m2 & E2 & Hh2 & _).
  rewrite E2. cbn [snd].
  destruct (track_heads_run
    (mkCommit name r1 c3 author committer (Some c1) [c2] fs) m2)
    as (m3 & E3 & Hh3 & _).
  rewrite E3. cbn [fst snd]. split; [done|].
  assert (Hm3 : ∀ k, heads m3 !! k =
    if decide (k = c3) then
      Some ((if decide (k ∈ [c1; c2]) then ∅ else default ∅ (heads m2 !! k))
            ∪ {[r1]})
    else if decide (k ∈ [c1; c2]) then None else heads m2 !! k) by exact Hh3.
  apply map_eq. intros k. rewrite Hm3.
  assert (Hm1 : ∀ j, j ≠ c1 → heads m1 !! j = None).
  { intros j Hj. rewrite Hh1. cbn [commit_id root_commit].
    rewrite decide_False by done. destruct (decide _); [done|].
    apply lookup_empty. }
  assert (Hm2 : ∀ j, j ≠ c1 → j ≠ c2 → heads m2 !! j = None).
  { intros j Hj1 Hj2. rewrite Hh2. cbn [commit_id root_commit].
    rewrite decide_False by done. destruct (decide _); [done|].
    by apply Hm1. }
  destruct (decide (k = c3)) as [->|Hne].
  - rewrite lookup_singleton_eq. f_equal.
    destruct (decide (c3 ∈ [c1; c2])) as [|Hnin]; [set_solver|].
    rewrite Hm2 by set_solver. set_solver.
  - rewrite lookup_singleton_ne by done.
    destruct (decide (k ∈ [c1; c2])) as [|Hnin]; [done|].
    apply Hm2; set_solver.
Qed.

(** ** The marks file *)

Lemma string_app_cons (x : ascii) (a b : string) :
  String x a +:+ b = String x (a +:+ b).
Proof. reflexivity. Qed.

Lemma string_app_nil_l (b : string) : "" +:+ b = b.
Proof. reflexivity. Qed.

Lemma string_app_assoc (a b c : string) : (a +:+ b) +:+ c = a +:+ b +:+ c.
Proof.
  induction a as [|x a IH]; [done|]. rewrite !string_app_cons. by f_equal.
Qed.

Lemma string_app_nil_r (a : string) : a +:+ "" = a.
Proof. induction a as [|x a IH]; [done|]. rewrite string_app_cons. by f_equal. Qed.

Lemma file_lines_line (s rest : string) :
  contains newline s = false →
  file_lines (s +:+ String newline rest) =
    (s +:+ String newline "") :: file_lines rest.
Proof.
  induction s as [|c s IH]; intros Hs;
    rewrite ?string_app_nil_l, ?string_app_cons; cbn [file_lines].
  - by rewrite bool_decide_eq_true_2.
  - cbn [contains] in Hs.
    apply orb_false_iff in Hs as [Hc Hs]. apply bool_decide_eq_false in Hc.
    rewrite bool_decide_eq_false_2 by done. by rewrite IH.
Qed.

Lemma rstrip_newline_line (s : string) :
  contains newline s = false →
  rstrip_newline (s +:+ String newline "") = s.
Proof.
  induction s as [|c s IH]; intros Hs;
    rewrite ?string_app_nil_l, ?string_app_cons; cbn [rstrip_newline].
  - by rewrite bool_decide_eq_true_2.
  - cbn [contains] in Hs.
    apply orb_false_iff in Hs as [Hc Hs]. apply bool_decide_eq_false in Hc.
    rewrite IH by done. rewrite bool_decide_eq_false_2; [done|]. by intros [? _].
Qed.

Lemma split_space_1_pair (a b : string) :
  contains " " a = false →
  split_space_1 (a +:+ String " " b) = [a; b].
Proof.
  induction a as [|c a IH]; intros Ha;
    rewrite ?string_app_nil_l, ?string_app_cons; cbn [split_space_1].
  - by rewrite bool_decide_eq_true_2.
  - cbn [contains] in Ha.
    apply orb_false_iff in Ha as [Hc Ha]. apply bool_decide_eq_false in Hc.
    rewrite bool_decide_eq_false_2 by done. by rewrite IH.
Qed.

Lemma contains_app c (a b : string) :
  contains c (a +:+ b) = contains c a || contains c b.
Proof.
  induction a as [|x a IH]; [done|].
  rewrite string_app_cons. cbn [contains]. by rewrite IH, orb_assoc.
Qed.

Lemma export_lines_run (filename : string) items e :
  export_lines filename items e =
    (Return tt,
     match items with
     | [] => e
     | _ => mkMarksEnv
         (mkFS (<[filename := default "" (fs_files (fs e) !! filename)
                               +:+ marks_text items]> (fs_files (fs e)))
               (fs_unreadable (fs e)) (fs_unwritable (fs e)))
         (logged e)
     end).
Proof.
  revert e. induction items as [|[mark revid] items IH]; intros e; [done|].
  cbn [export_lines]. unfold mbind, St_bind, file_write, update.
  rewrite IH. destruct items as [|i items].
  - simpl. by rewrite string_app_nil_r.
  - cbn [fs fs_files fs_unreadable fs_unwritable logged].
    rewrite lookup_insert_eq, insert_insert_eq. cbn [from_option]. unfold id.
    cbn [marks_text foldr]. by rewrite string_app_assoc.
Qed.

Lemma marks_line_app (mark revid rest : string) :
  marks_line mark revid +:+ rest =
    String ":" (mark +:+ String " " revid) +:+ String newline rest.
Proof.
  unfold marks_line.
  repeat (rewrite ?string_app_assoc, ?string_app_cons, ?string_app_nil_l).
  done.
Qed.

Lemma import_lines_marks_text items acc :
  Forall (λ '(mark, revid), fits_one_line mark revid) items →
  import_lines (file_lines (marks_text items)) acc =
    Return (foldl (λ acc '(mark, revid), <[mark := revid]> acc) acc items).
Proof.
  revert acc. induction items as [|[mark revid] items IH]; intros acc Hfit.
  - done.
  - apply Forall_cons in Hfit as [(Hsp & Hnl & Hnl') Hfit].
    assert (Hline : contains newline (String ":" (mark +:+ String " " revid)) = false).
    { cbn [contains]. rewrite contains_app. cbn [contains].
      rewrite Hnl, Hnl'. done. }
    cbn [marks_text foldr]. rewrite marks_line_app.
    rewrite file_lines_line by done.
    cbn [import_lines]. rewrite rstrip_newline_line by done.
    rewrite <- string_app_cons.
    rewrite split_space_1_pair by (cbn [contains]; by rewrite Hsp).
    cbn [strip_colon foldl]. by rewrite IH.
Qed.

Lemma foldl_insert_list_to_map (items : list (string * string)) :
  foldl (λ acc '(mark, revid), <[mark := revid]> acc) ∅ items =
    (list_to_map (reverse items) : gmap string string).
Proof.
  rewrite <- (reverse_involutive items) at 1.
  generalize (reverse items) as l. intros l.
  induction l as [|[k v] l IH]; [done|].
  rewrite reverse_cons, foldl_app. simpl. by rewrite IH.
Qed.

(** C4, as amended. A mapping whose marks hold no space and no newline and
    whose identifiers hold no newline, exported to a path that can be written
    and read, is what [import_marks] reads back from that path. *)
Theorem marks_roundtrip `{DictOrder} (filename : string)
    (m : gmap string string) (e : MarksEnv) :
  filename ∉ fs_unwritable (fs e) →
  filename ∉ fs_unreadable (fs e) →
  map_Forall fits_one_line m →
  ∃ e1, export_marks filename m e = (Return tt, e1) ∧
        import_marks filename e1 = (Return (Some m), e1).
Proof.
  intros Hw Hr Hfit. unfold export_marks, file_open_write.
  rewrite bool_decide_eq_false_2 by done.
  rewrite export_lines_run. eexists. split; [reflexivity|].
  assert (Hitems : Forall (λ '(mark, revid), fits_one_line mark revid) (dict_items m)).
  { apply Forall_forall. intros [mark revid] Hin.
    rewrite (dict_items_perm m) in Hin. apply elem_of_map_to_list in Hin.
    by apply Hfit. }
  assert (Hm : foldl (λ acc '(mark, revid), <[mark := revid]> acc) ∅ (dict_items m) = m).
  { rewrite foldl_insert_list_to_map.
    rewrite <- (list_to_map_to_list m) at 2.
    apply list_to_map_proper.
    - rewrite fmap_reverse, reverse_Permutation, (dict_items_perm m).
      apply NoDup_fst_map_to_list.
    - rewrite reverse_Permutation. apply dict_items_perm. }
  unfold import_marks, file_open_read.
  destruct (dict_items m) as [|i items] eqn:Ei.
  - cbn [fs fs_unreadable fs_files].
    rewrite bool_decide_eq_false_2 by done. rewrite lookup_insert_eq.
    cbn [file_lines import_lines]. rewrite <- Hm. done.
  - cbn [fs fs_unreadable fs_files].
    rewrite bool_decide_eq_false_2 by done. rewrite !lookup_insert_eq.
    cbn [from_option]. unfold id. rewrite string_app_nil_l.
    rewrite import_lines_marks_text by done. by rewrite Hm.
Qed.

Lemma marks_roundtrip_witness :
  ∃ e1,
    export_marks "marks" {[ "1" := "rev-a"; "2" := "rev-b" ]} empty_env
      = (Return tt, e1) ∧
    import_marks "marks" e1
      = (Return (Some {[ "1" := "rev-a"; "2" := "rev-b" ]}), e1).
Proof.
  apply (marks_roundtrip "marks" {[ "1" := "rev-a"; "2" := "rev-b" ]} empty_env).
  - vm_compute. set_solver.
  - vm_compute. set_solver.
  - apply (bool_decide_unpack _). vm_compute. exact I.
Defined.

(** C4, as stated, fails: the identifier of the mark ["1"] is ["a"], a
    newline, ["b"]. It is written as the two lines [":1 a"] and ["b"], and
    [import_marks] raises [ValueError] on the second one, which has no
    space. *)
Lemma marks_roundtrip_counterexample :
  let m : gmap string string := {[ "1" := String "a" (String newline "b") ]} in
  let e1 := (export_marks "marks" m empty_env).2 in
  fs_files (fs e1) !! "marks"
    = Some (":1 a" +:+ String newline ("b" +:+ String newline "")) ∧
  (import_marks "marks" e1).1 = Raise ValueError.
Proof. cbv zeta. split; by vm_compute. Qed.

(** C9. [import_marks] on a path that is missing or cannot be read returns
    [None] and logs a warning; [export_marks] to a path that cannot be
    written returns normally, logs a warning and writes nothing. Neither
    raises. *)
Theorem marks_io_failure_degrades `{DictOrder} (filename : string) (e : MarksEnv) :
  (filename ∈ fs_unreadable (fs e) ∨ fs_files (fs e) !! filename = None →
   import_marks filename e =
     (Return None,
      mkMarksEnv (fs e)
        (logged e ++ ["Could not import marks file " +:+ filename +:+
                      " - not importing marks"]))) ∧
  (filename ∈ fs_unwritable (fs e) →
   ∀ revision_ids,
     export_marks filename revision_ids e =
       (Return tt,
        mkMarksEnv (fs e)
          (logged e ++ ["Could not open export-marks file " +:+ filename +:+
                        " - not exporting marks"]))).
Proof.
  split.
  - intros Hbad. unfold import_marks, file_open_read.
    destruct (bool_decide (filename ∈ fs_unreadable (fs e))) eqn:Hu; [done|].
    apply bool_decide_eq_false in Hu. destruct Hbad as [? | ->]; done.
  - intros Hbad revision_ids. unfold export_marks, file_open_write.
    by rewrite bool_decide_eq_true_2.
Qed.

Lemma marks_io_failure_degrades_witness :
  let e := mkMarksEnv (mkFS ∅ ∅ {[ "/readonly/marks" ]}) [] in
  import_marks "/nonexistent" e =
    (Return None,
     mkMarksEnv (fs e)
       ["Could not import marks file /nonexistent - not importing marks"]) ∧
  export_marks "/readonly/marks" {[ "1" := "rev-a" ]} e =
    (Return tt,
     mkMarksEnv (fs e)
       ["Could not open export-marks file /readonly/marks - not exporting marks"]).
Proof.
  cbv zeta. split.
  - apply (proj1 (marks_io_failure_degrades "/nonexistent"
      (mkMarksEnv (mkFS ∅ ∅ {[ "/readonly/marks" ]}) []))).
    right. reflexivity.
  - apply (proj2 (marks_io_failure_degrades "/readonly/marks"
      (mkMarksEnv (mkFS ∅ ∅ {[ "/readonly/marks" ]}) []))).
    cbn. set_solver.
Defined.

(** ** The reference counts of the informational pass *)

Section info_processor_facts.
Context (COMMAND_NAMES FILE_COMMAND_NAMES : list string) (SYMLINK_KIND : string).
Context (mark : string).

Lemma count_cmd_status name s s' :
  count_cmd name s = (Return tt, s') → mark_status mark s' = mark_status mark s.
Proof.
  unfold count_cmd. destruct (dict_incr name (cmd_counts s)); intros [=<-]; done.
Qed.

Lemma count_file_cmd_status name s s' :
  count_file_cmd name s = (Return tt, s') → mark_status mark s' = mark_status mark s.
Proof.
  unfold count_file_cmd.
  destruct (dict_incr name (file_cmd_counts s)); intros [=<-]; done.
Qed.

Lemma _track_blob_same s :
  mark_status mark (_track_blob mark s).2 = track_status (mark_status mark s).
Proof.
  unfold _track_blob, update, mark_status, track_status. cbn [snd].
  destruct (blob_ref_counts s !! mark) as [n|] eqn:Hc.
  - cbn. by rewrite lookup_insert_eq.
  - destruct (bool_decide (mark ∈ blobs_used (blobs s))) eqn:Hu.
    + cbn. rewrite lookup_insert_eq. repeat f_equal.
      apply bool_decide_eq_false. set_solver.
    + destruct (bool_decide (mark ∈ blobs_new (blobs s))) eqn:Hn.
      * cbn. rewrite Hc. repeat f_equal.
        -- apply bool_decide_eq_false. set_solver.
        -- apply bool_decide_eq_true. set_solver.
      * cbn. rewrite Hc, Hn, Hu. repeat f_equal.
        apply bool_decide_eq_true. set_solver.
Qed.

Lemma _track_blob_other mark' s :
  mark' ≠ mark →
  mark_status mark (_track_blob mark' s).2 = mark_status mark s.
Proof.
  intros Hne. unfold _track_blob, update, mark_status. cbn [snd].
  destruct (blob_ref_counts s !! mark') as [n|] eqn:Hc.
  - cbn. by rewrite lookup_insert_ne.
  - destruct (bool_decide (mark' ∈ blobs_used (blobs s))) eqn:Hu.
    + cbn. rewrite lookup_insert_ne by done. repeat f_equal.
      apply bool_decide_ext. set_solver.
    + destruct (bool_decide (mark' ∈ blobs_new (blobs s))) eqn:Hn.
      * cbn. repeat f_equal; apply bool_decide_ext; set_solver.
      * cbn. repeat f_equal; apply bool_decide_ext; set_solver.
Qed.

Lemma file_cmd_handler_status cmd fc s s' :
  is_mark mark →
  file_cmd_handler SYMLINK_KIND cmd fc s = (Return tt, s') →
  mark_status mark s' =
    if refers_to mark fc then track_status (mark_status mark s)
    else mark_status mark s.
Proof.
  intros Hcolon. destruct fc as [name ex kind dataref| | | |];
    cbn [file_cmd_handler refers_to]; intros Hrun.
  - apply bind_Return in Hrun as ([] & s1 & H1 & Hrun).
    apply count_file_cmd_status in H1.
    apply bind_Return in Hrun as ([] & s2 & H2 & Hrun).
    assert (E2 : mark_status mark s2 = mark_status mark s1).
    { destruct ex; injection H2 as <-; done. }
    apply bind_Return in Hrun as ([] & s3 & H3 & Hrun).
    assert (E3 : mark_status mark s3 = mark_status mark s2).
    { destruct (bool_decide (kind = SYMLINK_KIND)); injection H3 as <-; done. }
    destruct dataref as [[|c d]|].
    + done.
    + destruct (bool_decide (c = ":"%char)) eqn:Hc.
      * destruct (bool_decide (String c d = mark)) eqn:Hm.
        -- apply bool_decide_eq_true in Hm. rewrite Hm in Hrun.
           replace s' with (_track_blob mark s3).2 by (by rewrite Hrun).
           rewrite _track_blob_same. congruence.
        -- apply bool_decide_eq_false in Hm.
           replace s' with (_track_blob (String c d) s3).2 by (by rewrite Hrun).
           rewrite _track_blob_other by done. congruence.
      * injection Hrun as <-.
        rewrite bool_decide_eq_false_2;
          [change (mark_status mark s3 = mark_status mark s); congruence|].
        intros Heq. apply bool_decide_eq_false in Hc.
        destruct Hcolon as [rest Hrest]. rewrite Hrest in Heq.
        by injection Heq as ? ?.
    + injection Hrun as <-. congruence.
  - apply bind_Return in Hrun as ([] & s1 & H1 & Hrun).
    apply count_file_cmd_status in H1. injection Hrun as <-. done.
  - apply bind_Return in Hrun as ([] & s1 & H1 & Hrun).
    apply count_file_cmd_status in H1. injection Hrun as <-. done.
  - by apply count_file_cmd_status in Hrun.
  - by apply count_file_cmd_status in Hrun.
Qed.

Lemma file_cmds_handler_status cmd fcs s s' :
  is_mark mark →
  file_cmds_handler SYMLINK_KIND cmd fcs s = (Return tt, s') →
  mark_status mark s' =
    Nat.iter (length (filter (λ fc, refers_to mark fc = true) fcs))
      track_status (mark_status mark s).
Proof.
  intros Hcolon. revert s.
  induction fcs as [|fc fcs IH]; intros s; cbn [file_cmds_handler].
  - by intros [=<-].
  - intros Hrun. apply bind_Return in Hrun as ([] & s1 & H1 & Hrun).
    apply file_cmd_handler_status in H1; [|done].
    rewrite (IH _ Hrun), H1. rewrite filter_cons.
    destruct (refers_to mark fc) eqn:Hfc.
    + rewrite decide_True by done. cbn [length]. by rewrite Nat.iter_succ_r.
    + by rewrite decide_False by done.
Qed.

Lemma handle_status cmd s s' :
  is_mark mark →
  ¬ declares mark cmd →
  handle SYMLINK_KIND cmd s = (Return tt, s') →
  mark_status mark s' =
    Nat.iter (references_in mark cmd) track_status (mark_status mark s).
Proof.
  intros Hcolon Hdecl. destruct cmd as [b|c|r|name|name|name|name feature];
    cbn [handle references_in Nat.iter]; intros Hrun.
  - unfold blob_handler in Hrun.
    apply bind_Return in Hrun as ([] & s1 & H1 & Hrun).
    apply count_cmd_status in H1. injection Hrun as <-.
    rewrite <- H1. cbn in Hdecl. unfold mark_status.
    destruct (blob_mark b); cbn; repeat f_equal; apply bool_decide_ext; set_solver.
  - unfold commit_handler in Hrun.
    apply bind_Return in Hrun as ([] & s1 & H1 & Hrun).
    apply count_cmd_status in H1.
    apply bind_Return in Hrun as ([] & s2 & H2 & Hrun).
    injection H2 as <-.
    apply bind_Return in Hrun as ([] & s3 & H3 & Hrun).
    assert (E3 : mark_status mark s3 = mark_status mark s1).
    { destruct (commit_author c); injection H3 as <-; done. }
    apply bind_Return in Hrun as ([] & s4 & H4 & Hrun).
    apply file_cmds_handler_status in H4; [|done].
    apply bind_Return in Hrun as (parents & s5 & H5 & Hrun).
    assert (E5 : mark_status mark s5 = mark_status mark s4).
    { unfold on_cache_mgr in H5.
      destruct (track_heads c (cache_mgr s4)) as [r5 c5]. by injection H5 as _ <-. }
    apply bind_Return in Hrun as ([] & s6 & H6 & Hrun).
    assert (E6 : mark_status mark s6 = mark_status mark s5).
    { injection H6 as <-.
      destruct (parent_counts s5 !! _); [done|].
      by destruct (bool_decide _). }
    injection Hrun as <-.
    change (mark_status mark s6 = Nat.iter
      (length (filter (λ fc, refers_to mark fc = true) (commit_file_iter c)))
      track_status (mark_status mark s)).
    congruence.
  - unfold reset_handler in Hrun.
    apply bind_Return in Hrun as ([] & s1 & H1 & Hrun).
    apply count_cmd_status in H1. rewrite <- H1.
    destruct (String.prefix _ _); [by injection Hrun as <-|].
    destruct (reset_from_ r); [|by injection Hrun as <-].
    unfold on_cache_mgr in Hrun.
    destruct (track_heads_for_ref _ _ _ _) as [r5 c5]. by injection Hrun as _ <-.
  - by apply count_cmd_status in Hrun.
  - by apply count_cmd_status in Hrun.
  - by apply count_cmd_status in Hrun.
  - unfold feature_handler in Hrun.
    apply bind_Return in Hrun as ([] & s1 & H1 & Hrun).
    apply count_cmd_status in H1. by injection Hrun as <-.
Qed.

Lemma handle_all_status cmds s s' :
  is_mark mark →
  Forall (λ cmd, ¬ declares mark cmd) cmds →
  handle_all SYMLINK_KIND cmds s = (Return tt, s') →
  mark_status mark s' =
    Nat.iter (references mark cmds) track_status (mark_status mark s).
Proof.
  intros Hcolon. revert s.
  induction cmds as [|cmd cmds IH]; intros s Hdecl; cbn [handle_all].
  - by intros [=<-].
  - apply Forall_cons in Hdecl as [Hd Hdecl]. intros Hrun.
    apply bind_Return in Hrun as ([] & s1 & H1 & Hrun).
    apply handle_status in H1; [|done..].
    rewrite (IH _ Hdecl Hrun), H1.
    unfold references. cbn [sum_list_with].
    by rewrite Nat.add_comm, Nat.iter_add.
Qed.

Lemma handle_all_app cmds1 cmds2 s s' :
  handle_all SYMLINK_KIND (cmds1 ++ cmds2) s = (Return tt, s') →
  ∃ s1, handle_all SYMLINK_KIND cmds1 s = (Return tt, s1) ∧
        handle_all SYMLINK_KIND cmds2 s1 = (Return tt, s').
Proof.
  revert s. induction cmds1 as [|cmd cmds1 IH]; intros s; cbn [app handle_all].
  - eauto.
  - intros Hrun. apply bind_Return in Hrun as ([] & s1 & H1 & Hrun).
    destruct (IH _ Hrun) as (s2 & H2 & H3). exists s2. split; [|done].
    by rewrite (bind_run _ _ _ _ _ H1).
Qed.
End info_processor_facts.

Lemma track_status_declared (k : nat) :
  Nat.iter k track_status (None, true, false, false, false) =
    match k with
    | 0%nat => (None, true, false, false, false)
    | 1%nat => (None, false, true, false, false)
    | _ => (Some (Z.of_nat k), false, false, false, false)
    end.
Proof.
  induction k as [|k IH]; [done|]. rewrite Nat.iter_succ, IH.
  destruct k as [|[|k]]; [done|done|].
  cbn [track_status]. repeat f_equal. lia.
Qed.

Lemma track_status_undeclared (k : nat) :
  Nat.iter (S k) track_status (None, false, false, false, false) =
    (None, false, false, true, false).
Proof. induction k as [|k IH]; [done|]. by rewrite Nat.iter_succ, IH. Qed.

Lemma references_app mark cmds1 cmds2 :
  references mark (cmds1 ++ cmds2) =
    (references mark cmds1 + references mark cmds2)%nat.
Proof. apply sum_list_with_app. Qed.

Lemma blob_handler_declares mark b s s' :
  blob_id b = mark → is_Some (blob_mark b) →
  blob_handler b s = (Return tt, s') →
  mark_status mark s' =
    let '(count, _, _, unknown, unmarked) := mark_status mark s in
    (count, true, false, unknown, unmarked).
Proof.
  intros Hid [m Hm] Hrun. unfold blob_handler in Hrun.
  apply bind_Return in Hrun as ([] & s1 & H1 & Hrun).
  apply (count_cmd_status mark) in H1. injection Hrun as <-.
  rewrite <- H1, Hm, Hid. unfold mark_status. cbn.
  repeat f_equal.
  - apply bool_decide_eq_true. set_solver.
  - apply bool_decide_eq_false. set_solver.
Qed.

(** C10, as amended. In the informational pass over a stream that is
    processed to its end, let [k] be the number of Modify file commands that
    refer to the mark [mark]. If [mark] is the id of exactly one Blob command,
    which carries a mark and comes before every reference, then [k >= 2] gives
    [blob_ref_counts[mark] == k], and [k = 1] gives no reference count, with
    [mark] in ['used'] and in no other usage set. If no Blob command has the id
    [mark] and [k >= 1], then [mark] is in ['unknown'] and has no reference
    count. *)
Theorem blob_reference_counts COMMAND_NAMES FILE_COMMAND_NAMES SYMLINK_KIND
    (mark : string) (cmds : list Command) (s : InfoProcessor) :
  is_mark mark →
  info_pass COMMAND_NAMES FILE_COMMAND_NAMES SYMLINK_KIND cmds = (Return tt, s) →
  let k := references mark cmds in
  (declared_once_before_use mark cmds →
     ((2 ≤ k)%nat → blob_ref_counts s !! mark = Some (Z.of_nat k)) ∧
     (k = 1%nat →
        blob_ref_counts s !! mark = None ∧
        mark ∈ blobs_used (blobs s) ∧ (mark ∉ blobs_new (blobs s)) ∧
        (mark ∉ blobs_unknown (blobs s)) ∧ (mark ∉ blobs_unmarked (blobs s)))) ∧
  (never_declared mark cmds → (1 ≤ k)%nat →
     mark ∈ blobs_unknown (blobs s) ∧ blob_ref_counts s !! mark = None ∧
     (mark ∉ blobs_new (blobs s)) ∧ (mark ∉ blobs_used (blobs s))).
Proof.
  intros Hmark Hrun k. unfold info_pass in Hrun.
  set (s0 := pre_process COMMAND_NAMES FILE_COMMAND_NAMES) in *.
  assert (H0 : mark_status mark s0 = (None, false, false, false, false)).
  { unfold mark_status, s0. cbn. rewrite lookup_empty.
    repeat f_equal; apply bool_decide_eq_false; set_solver. }
  split.
  - intros (before & b & after & -> & Hid & Hmk & Hbefore & Hafter & Hrefs).
    apply handle_all_app in Hrun as (s1 & Hrun1 & Hrun).
    apply (handle_all_status SYMLINK_KIND mark) in Hrun1; [|done..].
    rewrite Hrefs, H0 in Hrun1. change (Nat.iter 0 track_status ?x) with x in Hrun1.
    cbn [handle_all] in Hrun.
    apply bind_Return in Hrun as ([] & s2 & Hrun2 & Hrun).
    apply (blob_handler_declares mark) in Hrun2; [|done..].
    rewrite Hrun1 in Hrun2.
    apply (handle_all_status SYMLINK_KIND mark) in Hrun; [|done..].
    rewrite Hrun2, track_status_declared in Hrun.
    assert (Hk : k = references mark after).
    { unfold k. rewrite references_app, Hrefs.
      unfold references at 1. cbn [sum_list_with references_in].
      fold (references mark after). lia. }
    rewrite <- Hk in Hrun. unfold mark_status in Hrun. split.
    + intros Hk2. destruct k as [|[|k']]; [lia|lia|]. by injection Hrun.
    + intros ->. injection Hrun as Hc Hn Hu Hun Hum.
      apply bool_decide_eq_false in Hn, Hun, Hum.
      apply bool_decide_eq_true in Hu. done.
  - intros Hnever Hk1.
    apply (handle_all_status SYMLINK_KIND mark) in Hrun; [|done..].
    fold k in Hrun. destruct k as [|k']; [lia|].
    rewrite H0, track_status_undeclared in Hrun.
    unfold mark_status in Hrun. injection Hrun as Hc Hn Hu Hun Hum.
    apply bool_decide_eq_false in Hn, Hu. apply bool_decide_eq_true in Hun.
    done.
Qed.

Lemma blob_reference_counts_witness :
  let modify := FileModifyCommand "filemodify" false "file" (Some ":1") in
  let cmds :=
    [Blob (mkBlob "blob" (Some "1") ":1");
     Commit (mkCommit "commit" "refs/heads/master" ":2" None "committer" None []
               [modify; modify])] in
  blob_ref_counts
    (info_pass ["blob"; "commit"] ["filemodify"] "symlink" cmds).2 !! ":1"
  = Some 2.
Proof.
  cbv zeta.
  set (modify := FileModifyCommand "filemodify" false "file" (Some ":1")).
  set (cmds := [Blob (mkBlob "blob" (Some "1") ":1");
     Commit (mkCommit "commit" "refs/heads/master" ":2" None "committer" None []
               [modify; modify])]).
  refine (proj1 (proj1 (blob_reference_counts ["blob"; "commit"] ["filemodify"]
    "symlink" ":1" cmds _ _ _) _) _).
  - by eexists.
  - by vm_compute.
  - exists [], (mkBlob "blob" (Some "1") ":1"),
      [Commit (mkCommit "commit" "refs/heads/master" ":2" None "committer" None []
                 [modify; modify])].
    split; [done|]. split; [done|]. split; [by eexists|].
    split; [by constructor|]. split; [|done].
    constructor; [|by constructor]. by intros [].
  - vm_compute. lia.
Defined.

(** C10, as stated, fails: a mark can be declared again, and it can be
    referred to before it is declared. In the stream blob [:1], commit
    (modify [:1]), blob [:1], commit (modify [:1]) two Modify file commands
    refer to [":1"], and the pass ends with no reference count for it: the
    second Blob command takes the mark out of ['used'] and puts it in ['new'],
    so that the second reference moves it to ['used'] as a first one does. In
    the stream commit (modify [:1]), blob [:1], commit (modify [:1],
    modify [:1]) three refer to [":1"], a Blob command declares it, and the
    pass ends with the count 2 and the mark in ['unknown']. *)
Lemma blob_reference_counts_counterexample :
  let modify := FileModifyCommand "filemodify" false "file" (Some ":1") in
  let blob := Blob (mkBlob "blob" (Some "1") ":1") in
  let commit id fcs :=
    Commit (mkCommit "commit" "refs/heads/master" id None "committer" None []
              fcs) in
  let declared_again :=
    [blob; commit ":2" [modify]; blob; commit ":3" [modify]] in
  let declared_late :=
    [commit ":2" [modify]; blob; commit ":3" [modify; modify]] in
  (∃ s, info_pass ["blob"; "commit"] ["filemodify"] "symlink" declared_again
          = (Return tt, s) ∧
        references ":1" declared_again = 2%nat ∧
        blob_ref_counts s !! ":1" = None ∧
        ":1" ∈ blobs_used (blobs s)) ∧
  (∃ s, info_pass ["blob"; "commit"] ["filemodify"] "symlink" declared_late
          = (Return tt, s) ∧
        references ":1" declared_late = 3%nat ∧
        ¬ never_declared ":1" declared_late ∧
        blob_ref_counts s !! ":1" = Some 2 ∧
        ":1" ∈ blobs_unknown (blobs s)).
Proof.
  cbv zeta.
  set (modify := FileModifyCommand "filemodify" false "file" (Some ":1")).
  set (blob := Blob (mkBlob "blob" (Some "1") ":1")).
  set (commit := λ id fcs,
    Commit (mkCommit "commit" "refs/heads/master" id None "committer" None []
              fcs)).
  split.
  - set (cmds := [blob; commit ":2" [modify]; blob; commit ":3" [modify]]).
    set (s := (info_pass ["blob"; "commit"] ["filemodify"] "symlink" cmds).2).
    assert (Hcount : blob_ref_counts s !! ":1" = None)
      by (vm_compute; reflexivity).
    assert (Hused : bool_decide (":1" ∈ blobs_used (blobs s)) = true)
      by (vm_compute; reflexivity).
    apply bool_decide_eq_true in Hused.
    exists s. split; [vm_compute; reflexivity|].
    split; [vm_compute; reflexivity|]. by split.
  - set (cmds := [commit ":2" [modify]; blob; commit ":3" [modify; modify]]).
    set (s := (info_pass ["blob"; "commit"] ["filemodify"] "symlink" cmds).2).
    assert (Hcount : blob_ref_counts s !! ":1" = Some 2)
      by (vm_compute; reflexivity).
    assert (Hunknown : bool_decide (":1" ∈ blobs_unknown (blobs s)) = true)
      by (vm_compute; reflexivity).
    apply bool_decide_eq_true in Hunknown.
    exists s. split; [vm_compute; reflexivity|].
    split; [vm_compute; reflexivity|].
    split; [|by split].
    intros Hnever. apply Forall_cons in Hnever as [_ Hnever].
    apply Forall_cons in Hnever as [Hblob _]. by apply Hblob.
Qed.

(** ** The blob cache *)

Lemma len_nonneg (s : string) : 0 ≤ len s.
Proof. unfold len. lia. Qed.

Lemma len_empty (s : string) : len s = 0 → s = "".
Proof. destruct s; [done|]. unfold len. cbn [String.length]. lia. Qed.

Lemma len_app (a b : string) : len (a +:+ b) = len a + len b.
Proof.
  unfold len. induction a as [|x a IH].
  - rewrite string_app_nil_l. cbn [String.length]. lia.
  - rewrite string_app_cons. cbn [String.length]. lia.
Qed.

Lemma len_str_repeat c n : len (str_repeat c n) = Z.of_nat n.
Proof.
  unfold len. f_equal. induction n as [|n IH]; [done|]. cbn. by rewrite IH.
Qed.

Lemma len_big_blob : len big_blob = _sticky_cache_size + 1.
Proof.
  unfold big_blob. rewrite len_str_repeat. apply Z2Nat.id.
  unfold _sticky_cache_size. lia.
Qed.

(** The blob is far too long to be written out: from here on it is only
    known by its length. *)
#[global] Opaque big_blob.

Lemma substring_zero (offset : nat) (s : string) :
  String.substring offset 0 s = "".
Proof.
  revert offset. induction s as [|c s IH]; intros [|offset]; cbn; auto.
Qed.

(** Reading a whole blob back is not disturbed by what is appended to the
    file later. *)
Lemma substring_app (offset n : nat) (content extra data : string) :
  String.substring offset n content = data → String.length data = n →
  String.substring offset n (content +:+ extra) = data.
Proof.
  revert offset n data. induction content as [|c content IH]; intros offset n data.
  - intros Hs Hn. assert (data = "") as -> by (by destruct offset, n).
    cbn in Hn. subst n. apply substring_zero.
  - rewrite string_app_cons. destruct offset as [|offset].
    + destruct n as [|n]; cbn [String.substring]; intros <-; [done|].
      cbn [String.length]. intros [=Hn]. f_equal. by apply IH.
    + cbn [String.substring]. apply IH.
Qed.

Lemma read_at_app offset (content extra data : string) :
  read_at offset (len data) content = data →
  read_at offset (len data) (content +:+ extra) = data.
Proof.
  unfold read_at, len. rewrite Nat2Z.id. intros Hr.
  by apply substring_app.
Qed.

Lemma substring_end (content blob : string) :
  String.substring (String.length content) (String.length blob)
    (content +:+ blob) = blob.
Proof.
  induction content as [|c content IH]; [|by rewrite string_app_cons].
  rewrite string_app_nil_l. cbn [String.length].
  induction blob as [|b blob IHb]; [done|]. cbn. by f_equal.
Qed.

Lemma read_at_end (content blob : string) :
  read_at (len content) (len blob) (content +:+ blob) = blob.
Proof. unfold read_at, len. rewrite !Nat2Z.id. apply substring_end. Qed.

(** *** Sorting *)

Section sort_facts.
Context {A : Type} (key : A → Z).

Lemma sort_insert_perm x l : sort_insert key x l ≡ₚ x :: l.
Proof.
  induction l as [|y l IH]; cbn [sort_insert]; [done|].
  destruct (bool_decide (key x ≤ key y)); [done|].
  rewrite IH. apply Permutation_swap.
Qed.

Lemma list_sort_perm l : list_sort key l ≡ₚ l.
Proof.
  induction l as [|x l IH]; cbn [list_sort]; [done|].
  by rewrite sort_insert_perm, IH.
Qed.

Lemma sort_insert_sorted x l :
  StronglySorted (λ a b, key a ≤ key b) l →
  StronglySorted (λ a b, key a ≤ key b) (sort_insert key x l).
Proof.
  induction l as [|y l IH]; cbn [sort_insert]; intros Hs.
  - repeat constructor.
  - apply StronglySorted_inv in Hs as [Hl Hy].
    destruct (bool_decide (key x ≤ key y)) eqn:Hxy.
    + apply bool_decide_eq_true in Hxy. constructor.
      * by constructor.
      * constructor; [done|]. eapply Forall_impl; [exact Hy|].
        intros z Hz. cbn in *. lia.
    + apply bool_decide_eq_false in Hxy. constructor; [by apply IH|].
      rewrite sort_insert_perm. constructor; [lia|done].
Qed.

Lemma list_sort_sorted l :
  StronglySorted (λ a b, key a ≤ key b) (list_sort key l).
Proof.
  induction l as [|x l IH]; cbn [list_sort]; [constructor|].
  by apply sort_insert_sorted.
Qed.

(** Read from its end, the sorted list is in decreasing order. *)
Lemma list_sort_reverse_sorted l :
  StronglySorted (λ a b, key b ≤ key a) (reverse (list_sort key l)).
Proof.
  generalize (list_sort_sorted l). generalize (list_sort key l). clear l.
  intros l. induction 1 as [|x l Hl IH Hx]; [constructor|].
  rewrite reverse_cons. apply StronglySorted_app_2; [|done|repeat constructor].
  intros a b Ha Hb. apply list_elem_of_singleton in Hb as ->.
  rewrite Forall_forall in Hx. apply Hx. by apply elem_of_reverse.
Qed.
End sort_facts.

(** *** One eviction *)

Section flush.
Context `{DictOrder}.

Lemma flush_one_run id w :
  flush_one id w =
    match _sticky_blobs (mgr w) !! id with
    | None => (Raise KeyError, w)
    | Some blob =>
        let m1 := popped id blob (mgr w) in
        if bool_decide (len blob < _small_blob_threshold) then
          match small_blobs (_cleanup (mgr w)) with
          | None => (Raise AttributeError, set_mgr m1 w)
          | Some content =>
              (Return (len blob, len blob),
               set_mgr
                 (set__cleanup
                    (set_small_blobs (Some (content +:+ blob)) (_cleanup m1))
                    (set__disk_blobs
                       (<[id := (len content, len blob, None)]> (_disk_blobs m1))
                       m1)) w)
          end
        else
          let name :=
            fresh_string (default "" (_tempdir (mgr w)) +:+ "/" +:+ "blob-")
              (files w) in
          (Return (len blob, 0),
           set_files (<[name := blob]> (files w))
             (set_mgr
                (set__disk_blobs
                   (<[id := (0, len blob, Some name)]> (_disk_blobs m1)) m1) w))
    end.
Proof.
  unfold flush_one. monad_unfold. cbn [mgr set_mgr].
  destruct (_sticky_blobs (mgr w) !! id) as [blob|]; [|done].
  cbn [mgr set_mgr set__sticky_blobs set__sticky_memory_bytes _sticky_memory_bytes].
  destruct (bool_decide (len blob < _small_blob_threshold)).
  - cbn. destruct (small_blobs (_cleanup (mgr w))); reflexivity.
  - unfold mkstemp, os_write, modify_world. cbn.
    rewrite insert_insert_eq. reflexivity.
Qed.

Lemma flush_frame_refl w : flush_frame w w.
Proof.
  split; [done|]. split; [done|]. split; [done|]. intros x Hx. by destruct Hx.
Qed.

Lemma flush_frame_trans w1 w2 w3 :
  flush_frame w1 w2 → flush_frame w2 w3 → flush_frame w1 w3.
Proof.
  intros (Hb & Hc & Hs & Hd) (Hb' & Hc' & Hs' & Hd').
  split; [congruence|]. split; [congruence|]. split; [by eauto|].
  intros x Hx.
  destruct (decide (_disk_blobs (mgr w3) !! x = _disk_blobs (mgr w2) !! x))
    as [Heq|Hne].
  - rewrite Heq in Hx. destruct (Hd x Hx) as [Hin Hout]. split; [done|].
    destruct (_sticky_blobs (mgr w3) !! x) as [d|] eqn:E; [|done].
    apply Hs' in E. congruence.
  - destruct (Hd' x Hne) as [[d Hin] Hout]. split; [|done].
    apply Hs in Hin. eauto.
Qed.

Lemma flush_one_frame id w r w' : flush_one id w = (r, w') → flush_frame w w'.
Proof.
  rewrite flush_one_run.
  destruct (_sticky_blobs (mgr w) !! id) as [blob|] eqn:Hid.
  2:{ intros [= <- <-]. apply flush_frame_refl. }
  assert (Hst : ∀ x d, delete id (_sticky_blobs (mgr w)) !! x = Some d →
                       _sticky_blobs (mgr w) !! x = Some d).
  { intros x d. rewrite lookup_delete_Some. tauto. }
  assert (Hdk : ∀ info x,
    <[id := info]> (_disk_blobs (mgr w)) !! x ≠ _disk_blobs (mgr w) !! x →
    is_Some (_sticky_blobs (mgr w) !! x) ∧
    delete id (_sticky_blobs (mgr w)) !! x = None).
  { intros info x. destruct (decide (x = id)) as [->|Hne].
    - intros _. by rewrite lookup_delete_eq, Hid.
    - by rewrite lookup_insert_ne. }
  cbv zeta.
  destruct (bool_decide (len blob < _small_blob_threshold)).
  - destruct (small_blobs (_cleanup (mgr w))).
    + intros [= <- <-]. split; [done|]. split; [done|].
      split; [exact Hst|]. exact (Hdk _).
    + intros [= <- <-]. split; [done|]. split; [done|].
      split; [exact Hst|]. intros x Hx. by destruct Hx.
  - intros [= <- <-]. split; [done|]. split; [done|].
    split; [exact Hst|]. exact (Hdk _).
Qed.

Lemma flush_one_sticky id w r w' :
  flush_one id w = (r, w') →
  _sticky_blobs (mgr w') = delete id (_sticky_blobs (mgr w)).
Proof.
  rewrite flush_one_run.
  destruct (_sticky_blobs (mgr w) !! id) as [blob|] eqn:Hid.
  2:{ intros [= <- <-]. by rewrite delete_id. }
  cbv zeta. destruct (bool_decide _); [destruct (small_blobs _)|];
    by intros [= <- <-].
Qed.

Lemma flush_one_mem id w r w' blob :
  flush_one id w = (Return r, w') →
  _sticky_blobs (mgr w) !! id = Some blob →
  _sticky_memory_bytes (mgr w') = _sticky_memory_bytes (mgr w) - len blob.
Proof.
  rewrite flush_one_run. intros Hrun Hid. rewrite Hid in Hrun. cbv zeta in Hrun.
  destruct (bool_decide _); [destruct (small_blobs _)|];
    by injection Hrun as _ <-.
Qed.

(** The evicted blob is in the disk tier. *)
Lemma flush_one_on_disk id w r w' blob :
  flush_one id w = (Return r, w') →
  _sticky_blobs (mgr w) !! id = Some blob →
  on_disk w' id blob.
Proof.
  rewrite flush_one_run. intros Hrun Hid. rewrite Hid in Hrun. cbv zeta in Hrun.
  destruct (bool_decide (len blob < _small_blob_threshold)) eqn:Hsmall.
  - apply bool_decide_eq_true in Hsmall.
    destruct (small_blobs (_cleanup (mgr w))) as [content|]; [|done].
    injection Hrun as _ <-. exists (len content), None. cbn.
    rewrite lookup_insert_eq. split; [done|]. split; [done|].
    eexists. split; [done|]. apply read_at_end.
  - apply bool_decide_eq_false in Hsmall. injection Hrun as _ <-.
    eexists 0, (Some _). cbn. rewrite !lookup_insert_eq.
    split; [done|]. split; [lia|]. done.
Qed.

(** A blob of the disk tier stays readable when another blob is evicted. *)
Lemma flush_one_keeps_on_disk id w r w' x d :
  flush_one id w = (r, w') →
  on_disk w x d → _sticky_blobs (mgr w) !! x = None →
  on_disk w' x d.
Proof.
  rewrite flush_one_run. intros Hrun (offset & fn & Hx & Hfn) Hnot.
  destruct (_sticky_blobs (mgr w) !! id) as [blob|] eqn:Hid.
  2:{ injection Hrun as _ <-. by exists offset, fn. }
  assert (Hne : x ≠ id) by congruence.
  cbv zeta in Hrun.
  destruct (bool_decide (len blob < _small_blob_threshold)).
  - destruct (small_blobs (_cleanup (mgr w))) as [content|] eqn:Hf.
    + injection Hrun as _ <-. exists offset, fn. cbn.
      rewrite lookup_insert_ne by done. split; [done|].
      destruct fn as [name|]; [done|].
      destruct Hfn as (Hlen & content' & [= <-] & Hread).
      split; [done|]. eexists. split; [done|]. by apply read_at_app.
    + injection Hrun as _ <-. exists offset, fn. cbn. split; [done|].
      destruct fn as [name|]; [done|].
      by destruct Hfn as (_ & content' & [=] & _).
  - injection Hrun as _ <-. exists offset, fn. cbn.
    rewrite lookup_insert_ne by done. split; [done|].
    destruct fn as [name|]; [|done].
    destruct Hfn as (Hlen & -> & Hfile). split; [done|]. split; [done|].
    rewrite lookup_insert_ne; [done|].
    intros <-. by rewrite fresh_string_fresh in Hfile.
Qed.

(** *** The loop of a flush *)

Lemma flush_loop_nil count bytes n_small_bytes w :
  flush_loop [] count bytes n_small_bytes w =
    if bool_decide (_sticky_flushed_size < _sticky_memory_bytes (mgr w))
    then (Raise IndexError, w)
    else (Return (count, bytes, n_small_bytes), w).
Proof.
  cbn [flush_loop]. monad_unfold. by destruct (bool_decide _).
Qed.

Lemma flush_loop_cons id stack count bytes n_small_bytes w :
  flush_loop (id :: stack) count bytes n_small_bytes w =
    if bool_decide (_sticky_flushed_size < _sticky_memory_bytes (mgr w))
    then match flush_one id w with
         | (Return (n_bytes, n_small), w1) =>
             flush_loop stack (count + 1) (bytes + n_bytes)
               (n_small_bytes + n_small) w1
         | (Raise e, w1) => (Raise e, w1)
         end
    else (Return (count, bytes, n_small_bytes), w).
Proof.
  cbn [flush_loop]. monad_unfold. destruct (bool_decide _); [|done].
  by destruct (flush_one id w) as [[[n_bytes n_small]|e] w1].
Qed.

Lemma flush_loop_frame stack count bytes n_small_bytes w r w' :
  flush_loop stack count bytes n_small_bytes w = (r, w') → flush_frame w w'.
Proof.
  revert count bytes n_small_bytes w.
  induction stack as [|id stack IH]; intros count bytes n_small_bytes w.
  - rewrite flush_loop_nil. destruct (bool_decide _); intros [= <- <-];
      apply flush_frame_refl.
  - rewrite flush_loop_cons. destruct (bool_decide _).
    2:{ intros [= <- <-]. apply flush_frame_refl. }
    destruct (flush_one id w) as [[[n_bytes n_small]|e] w1] eqn:Hone.
    + intros Hrun. eapply flush_frame_trans; [by eapply flush_one_frame|].
      by eapply IH.
    + intros [= <- <-]. by eapply flush_one_frame.
Qed.

Lemma flush_loop_keeps_on_disk stack count bytes n_small_bytes w r w' x d :
  flush_loop stack count bytes n_small_bytes w = (r, w') →
  on_disk w x d → _sticky_blobs (mgr w) !! x = None →
  on_disk w' x d.
Proof.
  revert count bytes n_small_bytes w.
  induction stack as [|id stack IH]; intros count bytes n_small_bytes w.
  - rewrite flush_loop_nil. by destruct (bool_decide _); intros [= <- <-].
  - rewrite flush_loop_cons. destruct (bool_decide _).
    2:{ by intros [= <- <-]. }
    destruct (flush_one id w) as [[[n_bytes n_small]|e] w1] eqn:Hone.
    + intros Hrun Hdisk Hnot. eapply IH; [done| |].
      * by eapply flush_one_keeps_on_disk.
      * rewrite (flush_one_sticky _ _ _ _ Hone).
        apply lookup_delete_None. by right.
    + intros [= <- <-] Hdisk Hnot. by eapply flush_one_keeps_on_disk.
Qed.

(** A blob that a flush takes out of the sticky map is in the disk tier
    when the flush returns. *)
Lemma flush_loop_stored stack count bytes n_small_bytes w r w' x d :
  flush_loop stack count bytes n_small_bytes w = (Return r, w') →
  _sticky_blobs (mgr w) !! x = Some d →
  _sticky_blobs (mgr w') !! x = None →
  on_disk w' x d.
Proof.
  revert count bytes n_small_bytes w.
  induction stack as [|id stack IH]; intros count bytes n_small_bytes w.
  - rewrite flush_loop_nil. destruct (bool_decide _); [done|].
    intros [= <- <-]. congruence.
  - rewrite flush_loop_cons. destruct (bool_decide _).
    2:{ intros [= <- <-]. congruence. }
    destruct (flush_one id w) as [[[n_bytes n_small]|e] w1] eqn:Hone; [|done].
    intros Hrun Hin Hout. destruct (decide (x = id)) as [->|Hne].
    + eapply flush_loop_keeps_on_disk; [done| |].
      * by eapply flush_one_on_disk.
      * rewrite (flush_one_sticky _ _ _ _ Hone). apply lookup_delete_eq.
    + eapply IH; [done| |done].
      rewrite (flush_one_sticky _ _ _ _ Hone). by rewrite lookup_delete_ne.
Qed.

Lemma flush_loop_mem stack count bytes n_small_bytes w r w' :
  flush_loop stack count bytes n_small_bytes w = (Return r, w') →
  _sticky_memory_bytes (mgr w') ≤ _sticky_flushed_size.
Proof.
  revert count bytes n_small_bytes w.
  induction stack as [|id stack IH]; intros count bytes n_small_bytes w.
  - rewrite flush_loop_nil.
    destruct (bool_decide _) eqn:Hmem; [done|].
    apply bool_decide_eq_false in Hmem. intros [= <- <-]. lia.
  - rewrite flush_loop_cons. destruct (bool_decide _) eqn:Hmem.
    2:{ apply bool_decide_eq_false in Hmem. intros [= <- <-]. lia. }
    destruct (flush_one id w) as [[[n_bytes n_small]|e] w1] eqn:Hone; [|done].
    apply IH.
Qed.

(** The loop evicts a prefix of its stack; when the stack is in decreasing
    order of size, it stops as soon as the memory counter allows: no evicted
    blob could have stayed. *)
Lemma flush_loop_order (key : string → Z) stack count bytes n_small_bytes w r w' :
  (∀ x, x ∈ stack →
        ∃ d, _sticky_blobs (mgr w) !! x = Some d ∧ len d = key x) →
  NoDup stack →
  StronglySorted (λ a b, key b ≤ key a) stack →
  flush_loop stack count bytes n_small_bytes w = (Return r, w') →
  ∃ n,
    (∀ x, _sticky_blobs (mgr w') !! x =
          if decide (x ∈ take n stack) then None
          else _sticky_blobs (mgr w) !! x) ∧
    (∀ e, e ∈ take n stack →
          _sticky_flushed_size < _sticky_memory_bytes (mgr w') + key e).
Proof.
  revert count bytes n_small_bytes w.
  induction stack as [|id stack IH]; intros count bytes n_small_bytes w
    Hkeys Hnodup Hsorted.
  - rewrite flush_loop_nil. destruct (bool_decide _); [done|].
    intros [= <- <-]. exists 0%nat. cbn [take]. split.
    + intros x. destruct (decide _) as [Hin|]; [by apply elem_of_nil in Hin|done].
    + intros e He. by apply elem_of_nil in He.
  - rewrite flush_loop_cons. destruct (bool_decide _) eqn:Hmem.
    2:{ intros [= <- <-]. exists 0%nat. cbn [take]. split.
        - intros x. destruct (decide _) as [Hin|]; [by apply elem_of_nil in Hin|done].
        - intros e He. by apply elem_of_nil in He. }
    apply bool_decide_eq_true in Hmem.
    destruct (flush_one id w) as [[[n_bytes n_small]|e] w1] eqn:Hone; [|done].
    intros Hrun.
    destruct (Hkeys id) as (blob & Hid & Hlen); [by left|].
    pose proof (flush_one_sticky _ _ _ _ Hone) as Hst.
    pose proof (flush_one_mem _ _ _ _ _ Hone Hid) as Hm.
    apply NoDup_cons in Hnodup as [Hnotin Hnodup].
    apply StronglySorted_inv in Hsorted as [Hsorted Hhead].
    assert (Hkeys1 : ∀ x, x ∈ stack →
      ∃ d, _sticky_blobs (mgr w1) !! x = Some d ∧ len d = key x).
    { intros x Hx. rewrite Hst, lookup_delete_ne by (by intros ->).
      apply Hkeys. by right. }
    destruct (IH _ _ _ w1 Hkeys1 Hnodup Hsorted Hrun) as (n & Hsticky & Hmin).
    exists (S n). cbn [take]. split.
    + intros x. rewrite Hsticky, Hst.
      destruct (decide (x = id)) as [->|Hne].
      * rewrite lookup_delete_eq.
        rewrite (decide_True (P := id ∈ id :: take n stack)) by (by left).
        by destruct (decide _).
      * rewrite lookup_delete_ne by done.
        destruct (decide (x ∈ take n stack)) as [Hin|Hnin].
        -- by rewrite decide_True by (by right).
        -- rewrite decide_False; [done|].
           intros [?|?]%elem_of_cons; done.
    + intros e [->|He]%elem_of_cons; [|by apply Hmin].
      destruct (take n stack) as [|id' evicted] eqn:Htake.
      * (* nothing more was evicted *)
        assert (_sticky_memory_bytes (mgr w') = _sticky_memory_bytes (mgr w1))
          as ->; [|lia].
        destruct stack as [|id' stack'].
        -- rewrite flush_loop_nil in Hrun.
           destruct (bool_decide _); [done|]. by injection Hrun as _ <-.
        -- rewrite flush_loop_cons in Hrun.
           destruct (bool_decide _); [|by injection Hrun as _ <-].
           destruct (flush_one id' w1) as [[[n_bytes' n_small']|e'] w2] eqn:Hone';
             [|done].
           (* [id'] left the sticky map, yet the loop reports it kept *)
           exfalso. specialize (Hsticky id').
           destruct (decide _) as [Hin|] in Hsticky;
             [by apply elem_of_nil in Hin|].
           apply flush_loop_frame in Hrun as (_ & _ & Hsub & _).
           destruct (Hkeys1 id') as (blob' & Hid' & _); [by left|].
           rewrite Hid' in Hsticky. apply Hsub in Hsticky.
           rewrite (flush_one_sticky _ _ _ _ Hone'), lookup_delete_eq in Hsticky.
           done.
      * specialize (Hmin id' ltac:(by left)).
        assert (Hin : id' ∈ stack).
        { eapply (subseteq_take n). rewrite Htake. by left. }
        rewrite Forall_forall in Hhead. specialize (Hhead id' Hin).
        cbn in Hhead. lia.
Qed.

(** *** A flush *)

Lemma flush_run w :
  _flush_blobs_to_disk w =
    match flush_loop (flush_stack w) 0 0 0 (flush_prepare w) with
    | (Return (count, bytes, n_small_bytes), w') =>
        (Return tt,
         set_notes
           (notes w' ++ [mk_note count
              (Z.of_nat (size (_sticky_blobs (mgr w)))) bytes n_small_bytes]) w')
    | (Raise e, w') => (Raise e, w')
    end.
Proof.
  unfold _flush_blobs_to_disk, flush_stack, flush_prepare, mkdtemp. monad_unfold.
  unfold sticky_size. cbn [mgr].
  destruct (_tempdir (mgr w)); cbn [mgr set_mgr].
  - by destruct (flush_loop _ _ _ _ _) as [[[[count bytes] n_small]|e] w'].
  - by destruct (flush_loop _ _ _ _ _) as [[[[count bytes] n_small]|e] w'].
Qed.

Lemma flush_prepare_frame w : flush_frame w (flush_prepare w).
Proof.
  unfold flush_prepare. destruct (_tempdir (mgr w)); [apply flush_frame_refl|].
  split; [done|]. split; [done|]. split; [done|]. intros x Hx. by destruct Hx.
Qed.

Lemma flush_prepare_sticky w :
  _sticky_blobs (mgr (flush_prepare w)) = _sticky_blobs (mgr w).
Proof. unfold flush_prepare. by destruct (_tempdir (mgr w)). Qed.

Lemma flush_prepare_mem w :
  _sticky_memory_bytes (mgr (flush_prepare w)) = _sticky_memory_bytes (mgr w).
Proof. unfold flush_prepare. by destruct (_tempdir (mgr w)). Qed.

Lemma flush_frame_notes w w' ns : flush_frame w w' → flush_frame w (set_notes ns w').
Proof. done. Qed.

Lemma on_disk_notes w ns x d : on_disk w x d → on_disk (set_notes ns w) x d.
Proof. done. Qed.

Lemma flush_is_frame w r w' : _flush_blobs_to_disk w = (r, w') → flush_frame w w'.
Proof.
  rewrite flush_run.
  destruct (flush_loop _ _ _ _ _) as [[[[count bytes] n_small]|e] w1] eqn:Hloop.
  - intros [= <- <-]. apply flush_frame_notes.
    eapply flush_frame_trans; [apply flush_prepare_frame|].
    by eapply flush_loop_frame.
  - intros [= <- <-].
    eapply flush_frame_trans; [apply flush_prepare_frame|].
    by eapply flush_loop_frame.
Qed.

Lemma flush_stored w w' x d :
  _flush_blobs_to_disk w = (Return tt, w') →
  _sticky_blobs (mgr w) !! x = Some d →
  _sticky_blobs (mgr w') !! x = None →
  on_disk w' x d.
Proof.
  rewrite flush_run.
  destruct (flush_loop _ _ _ _ _) as [[[[count bytes] n_small]|e] w1] eqn:Hloop;
    [|done].
  intros [= <-] Hin Hout. apply on_disk_notes.
  eapply flush_loop_stored; [done| |done]. by rewrite flush_prepare_sticky.
Qed.

Lemma flush_mem w w' :
  _flush_blobs_to_disk w = (Return tt, w') →
  _sticky_memory_bytes (mgr w') ≤ _sticky_flushed_size.
Proof.
  rewrite flush_run.
  destruct (flush_loop _ _ _ _ _) as [[[[count bytes] n_small]|e] w1] eqn:Hloop;
    [|done].
  intros [= <-]. cbn [mgr set_notes]. by eapply flush_loop_mem.
Qed.

Lemma elem_of_dict_keys {V} (m : gmap string V) (k : string) :
  k ∈ dict_keys m ↔ is_Some (m !! k).
Proof.
  unfold dict_keys. rewrite (dict_items_perm m).
  rewrite list_elem_of_fmap. split.
  - intros ([k' v] & -> & Hin). apply elem_of_map_to_list in Hin. by eexists.
  - intros [v Hv]. exists (k, v). split; [done|]. by apply elem_of_map_to_list.
Qed.

Lemma NoDup_dict_keys {V} (m : gmap string V) : NoDup (dict_keys m).
Proof.
  unfold dict_keys. rewrite (dict_items_perm m). apply NoDup_fst_map_to_list.
Qed.

Lemma elem_of_flush_stack w k :
  k ∈ flush_stack w ↔ is_Some (_sticky_blobs (mgr w) !! k).
Proof.
  unfold flush_stack. by rewrite elem_of_reverse, list_sort_perm, elem_of_dict_keys.
Qed.

(** The flush evicts the largest blobs: whatever it evicts is at least as
    large as whatever it keeps, and it evicts nothing it could have kept. *)
Lemma flush_order w w' e be :
  _flush_blobs_to_disk w = (Return tt, w') →
  _sticky_blobs (mgr w) !! e = Some be →
  _sticky_blobs (mgr w') !! e = None →
  _sticky_flushed_size < _sticky_memory_bytes (mgr w') + len be ∧
  ∀ k bk, _sticky_blobs (mgr w') !! k = Some bk → len bk ≤ len be.
Proof.
  rewrite flush_run.
  destruct (flush_loop _ _ _ _ _) as [[[[count bytes] n_small]|err] w1] eqn:Hloop;
    [|done].
  intros [= <-] Hin Hout. cbn [mgr set_notes] in *.
  assert (Hsorted : StronglySorted (λ a b, sticky_size w b ≤ sticky_size w a)
                      (flush_stack w)) by apply list_sort_reverse_sorted.
  apply (flush_loop_order (sticky_size w)) in Hloop as (n & Hsticky & Hmin);
    [|..|done].
  - rewrite <- (take_drop n (flush_stack w)) in Hsorted.
    assert (He : e ∈ take n (flush_stack w)).
    { specialize (Hsticky e). rewrite Hout, flush_prepare_sticky, Hin in Hsticky.
      by destruct (decide _). }
    assert (Hsize : sticky_size w e = len be).
    { unfold sticky_size. by rewrite Hin. }
    split.
    + rewrite <- Hsize. by apply Hmin.
    + intros k bk Hk. specialize (Hsticky k). rewrite Hk in Hsticky.
      destruct (decide (k ∈ take n (flush_stack w))) as [|Hnin]; [done|].
      rewrite flush_prepare_sticky in Hsticky.
      assert (Hkd : k ∈ drop n (flush_stack w)).
      { assert (Hks : k ∈ flush_stack w) by (by apply elem_of_flush_stack).
        rewrite <- (take_drop n (flush_stack w)) in Hks.
        apply elem_of_app in Hks as [?|?]; done. }
      pose proof (StronglySorted_app_1_elem_of _ _ _ _ _ Hsorted He Hkd) as Hle.
      cbn in Hle. rewrite Hsize in Hle. unfold sticky_size in Hle.
      by rewrite <- Hsticky in Hle.
  - intros x Hx. apply elem_of_flush_stack in Hx as [d Hd].
    exists d. rewrite flush_prepare_sticky. split; [done|].
    unfold sticky_size. by rewrite Hd.
  - unfold flush_stack. rewrite reverse_Permutation, list_sort_perm.
    apply NoDup_dict_keys.
Qed.

(** *** Storing and fetching *)

Lemma store_blob_run id data w :
  store_blob id data w =
    if bool_decide (_blob_ref_counts (mgr w) = ∅ ∨
                    is_Some (_blob_ref_counts (mgr w) !! id)) then
      if bool_decide (_sticky_cache_size < _sticky_memory_bytes (mgr w) + len data)
      then _flush_blobs_to_disk (stored_sticky id data w)
      else (Return tt, stored_sticky id data w)
    else if bool_decide (data = "") then
      (Return tt,
       set_mgr (set__sticky_blobs (<[id := data]> (_sticky_blobs (mgr w))) (mgr w)) w)
    else
      (Return tt,
       set_mgr (set__blobs (<[id := data]> (_blobs (mgr w))) (mgr w)) w).
Proof.
  unfold store_blob, stored_sticky. monad_unfold. cbn [mgr set_mgr].
  destruct (bool_decide (_ ∨ _)); [|by destruct (bool_decide (data = ""))].
  cbn [_sticky_memory_bytes set__sticky_memory_bytes set__sticky_blobs].
  by destruct (bool_decide (_ < _)).
Qed.

Lemma _decref_run id c fn w :
  _decref id c fn w =
    if bool_decide (_blob_ref_counts (mgr w) = ∅) then (Return false, w) else
    match _blob_ref_counts (mgr w) !! id with
    | None => (Return false, w)
    | Some count =>
        if bool_decide (count - 1 ≤ 0) then
          (cache_del c id;;
           (match fn with
            | Some name => os_unlink name
            | None => mret tt
            end);;
           modify (λ m, set__blob_ref_counts (delete id (_blob_ref_counts m)) m);;
           mret true) w
        else
          (Return false,
           set_mgr (set__blob_ref_counts
                      (<[id := count - 1]> (_blob_ref_counts (mgr w))) (mgr w)) w)
    end.
Proof.
  unfold _decref. monad_unfold. cbn [mgr].
  destruct (bool_decide (_ = ∅)); [done|].
  destruct (_blob_ref_counts (mgr w) !! id) as [count|]; [|done].
  by destruct (bool_decide (count - 1 ≤ 0)).
Qed.

Lemma fetch_absent id w :
  in_no_tier w id → fetch_blob id w = (Raise KeyError, w).
Proof.
  intros (Hb & Hs & Hd). unfold fetch_blob. monad_unfold. cbn [mgr].
  by rewrite Hb, Hd, Hs.
Qed.

(** A fetch of a cached blob that is not reference counted returns it and
    changes nothing. *)
Lemma fetch_held_uncounted id data w :
  held w id data →
  _blob_ref_counts (mgr w) = ∅ ∨ _blob_ref_counts (mgr w) !! id = None →
  fetch_blob id w = (Return data, w).
Proof.
  intros (Hb & Hheld) Hcounts.
  assert (Hdec : ∀ c fn, _decref id c fn w = (Return false, w)).
  { intros c fn. rewrite _decref_run. destruct Hcounts as [->| ->].
    - by rewrite bool_decide_eq_true_2.
    - by destruct (bool_decide _). }
  unfold fetch_blob. monad_unfold. cbn [mgr]. rewrite Hb.
  destruct Hheld as [[Hs Hd]|[Hs (offset & fn & Hd & Hfn)]].
  - rewrite Hd, Hs. by rewrite Hdec.
  - rewrite Hd. destruct fn as [name|].
    + destruct Hfn as (_ & _ & Hfile). unfold open_read. rewrite Hfile.
      by rewrite Hdec.
    + destruct Hfn as (_ & content & -> & Hread). by rewrite Hdec, Hread.
Qed.

(** A fetch that leaves references returns the blob and keeps it cached. *)
Lemma fetch_held_more id data w count :
  held w id data →
  _blob_ref_counts (mgr w) !! id = Some count → 1 < count →
  ∃ w', fetch_blob id w = (Return data, w') ∧ held w' id data ∧
        _blob_ref_counts (mgr w') !! id = Some (count - 1).
Proof.
  intros (Hb & Hheld) Hcount Hmore.
  set (w' := set_mgr (set__blob_ref_counts
    (<[id := count - 1]> (_blob_ref_counts (mgr w))) (mgr w)) w).
  assert (Hdec : ∀ c fn, _decref id c fn w = (Return false, w')).
  { intros c fn. rewrite _decref_run, Hcount.
    rewrite bool_decide_eq_false_2 by (intros E; by rewrite E in Hcount).
    by rewrite bool_decide_eq_false_2 by lia. }
  exists w'. split; [|split].
  - unfold fetch_blob. monad_unfold. cbn [mgr]. rewrite Hb.
    destruct Hheld as [[Hs Hd]|[Hs (offset & fn & Hd & Hfn)]].
    + rewrite Hd, Hs. by rewrite Hdec.
    + rewrite Hd. destruct fn as [name|].
      * destruct Hfn as (_ & _ & Hfile). unfold open_read. rewrite Hfile.
        by rewrite Hdec.
      * destruct Hfn as (_ & content & -> & Hread). by rewrite Hdec, Hread.
  - done.
  - cbn. apply lookup_insert_eq.
Qed.

(** The fetch that uses up the last reference returns the blob and removes
    it from the cache. *)
Lemma fetch_held_last id data w count :
  held w id data →
  _blob_ref_counts (mgr w) !! id = Some count → count ≤ 1 →
  ∃ w', fetch_blob id w = (Return data, w') ∧ in_no_tier w' id ∧
        _blob_ref_counts (mgr w') !! id = None.
Proof.
  intros (Hb & Hheld) Hcount Hlast.
  assert (Hne : _blob_ref_counts (mgr w) ≠ ∅).
  { intros E. by rewrite E in Hcount. }
  destruct Hheld as [[Hs Hd]|[Hs (offset & fn & Hd & Hfn)]].
  - eexists. split; [|split].
    + unfold fetch_blob. monad_unfold. cbn [mgr]. rewrite Hb, Hd, Hs.
      rewrite _decref_run, Hcount.
      rewrite bool_decide_eq_false_2 by done.
      rewrite bool_decide_eq_true_2 by lia.
      unfold cache_del. monad_unfold. cbn [mgr]. rewrite Hs. reflexivity.
    + split; [done|]. cbn. by rewrite lookup_delete_eq.
    + cbn. apply lookup_delete_eq.
  - destruct fn as [name|].
    + destruct Hfn as (_ & _ & Hfile). eexists. split; [|split].
      * unfold fetch_blob. monad_unfold. cbn [mgr]. rewrite Hb, Hd.
        unfold open_read. rewrite Hfile.
        rewrite _decref_run, Hcount.
        rewrite bool_decide_eq_false_2 by done.
        rewrite bool_decide_eq_true_2 by lia.
        unfold cache_del, os_unlink. monad_unfold. cbn [mgr]. rewrite Hd.
        cbn [files set_mgr]. rewrite Hfile. reflexivity.
      * split; [done|]. cbn. by rewrite lookup_delete_eq.
      * cbn. apply lookup_delete_eq.
    + destruct Hfn as (_ & content & Hf & Hread). eexists. split; [|split].
      * unfold fetch_blob. monad_unfold. cbn [mgr]. rewrite Hb, Hd, Hf.
        rewrite _decref_run, Hcount.
        rewrite bool_decide_eq_false_2 by done.
        rewrite bool_decide_eq_true_2 by lia.
        unfold cache_del. monad_unfold. cbn [mgr]. rewrite Hd, Hread. reflexivity.
      * split; [done|]. cbn. by rewrite lookup_delete_eq.
      * cbn. apply lookup_delete_eq.
Qed.

(** A blob stored in the sticky branch of [store_blob], under an id that
    neither the transient map nor the disk tier holds, is cached when
    [store_blob] returns: in the sticky map, or in the disk tier if the store
    flushed it. *)
Lemma store_blob_held id data w w1 :
  counted w id ∨ data = "" →
  _blobs (mgr w) !! id = None → _disk_blobs (mgr w) !! id = None →
  store_blob id data w = (Return tt, w1) →
  held w1 id data ∧ _blob_ref_counts (mgr w1) = _blob_ref_counts (mgr w).
Proof.
  intros Hsticky Hb Hd. rewrite store_blob_run.
  destruct (bool_decide (_ ∨ _)) eqn:Hcounted.
  - destruct (bool_decide (_ < _)).
    + intros Hflush.
      pose proof (flush_is_frame _ _ _ Hflush) as (Hb' & Hc' & Hs' & Hd').
      split; [|done]. split; [by rewrite Hb'|].
      destruct (_sticky_blobs (mgr w1) !! id) as [d|] eqn:Hid.
      * left. apply Hs' in Hid as Hid'. cbn in Hid'.
        rewrite lookup_insert_eq in Hid'. injection Hid' as <-.
        split; [done|].
        destruct (decide (_disk_blobs (mgr w1) !! id =
                          _disk_blobs (mgr (stored_sticky id data w)) !! id))
          as [->|Hne]; [done|].
        apply Hd' in Hne as [_ Hne]. congruence.
      * right. split; [done|]. eapply flush_stored; [done| |done].
        cbn. apply lookup_insert_eq.
    + intros [= <-]. split; [|done]. split; [done|]. left.
      split; [|done]. cbn. apply lookup_insert_eq.
  - apply bool_decide_eq_false in Hcounted.
    destruct Hsticky as [?| ->]; [done|].
    rewrite bool_decide_eq_true_2 by done. intros [= <-].
    split; [|done]. split; [done|]. left.
    split; [|done]. cbn. apply lookup_insert_eq.
Qed.

Lemma fetch_times_uncounted n id data w :
  held w id data →
  _blob_ref_counts (mgr w) = ∅ ∨ _blob_ref_counts (mgr w) !! id = None →
  fetch_times n id w = (replicate n (Return data), w).
Proof.
  intros Hheld Hcounts. induction n as [|n IH]; [done|].
  cbn [fetch_times replicate].
  by rewrite (fetch_held_uncounted _ _ _ Hheld Hcounts), IH.
Qed.

Lemma fetch_times_exhaust k id data w :
  held w id data →
  _blob_ref_counts (mgr w) !! id = Some (Z.of_nat (S k)) →
  ∃ w', fetch_times (S k) id w = (replicate (S k) (Return data), w') ∧
        in_no_tier w' id ∧ _blob_ref_counts (mgr w') !! id = None.
Proof.
  revert w. induction k as [|k IH]; intros w Hheld Hcount.
  - destruct (fetch_held_last _ _ _ _ Hheld Hcount) as (w' & Hrun & Hno & Hc);
      [lia|].
    exists w'. cbn [fetch_times replicate]. by rewrite Hrun.
  - destruct (fetch_held_more _ _ _ _ Hheld Hcount) as (w1 & Hrun & Hheld1 & Hc1);
      [lia|].
    replace (Z.of_nat (S (S k)) - 1) with (Z.of_nat (S k)) in Hc1 by lia.
    destruct (IH _ Hheld1 Hc1) as (w' & Hrun' & Hno & Hc).
    exists w'. split; [|done].
    change (fetch_times (S (S k)) id w) with
      (let '(r, w1) := fetch_blob id w in
       let '(rs, w2) := fetch_times (S k) id w1 in (r :: rs, w2)).
    by rewrite Hrun, Hrun'.
Qed.

(** Whatever the reference counts, a fetch of a cached blob returns it. *)
Lemma fetch_held id data w :
  held w id data → ∃ w', fetch_blob id w = (Return data, w').
Proof.
  intros Hheld.
  destruct (_blob_ref_counts (mgr w) !! id) as [count|] eqn:Hcount.
  - destruct (decide (1 < count)).
    + destruct (fetch_held_more _ _ _ _ Hheld Hcount) as (w' & ? & _); eauto.
    + destruct (fetch_held_last _ _ _ _ Hheld Hcount) as (w' & ? & _);
        [lia|eauto].
  - exists w. apply fetch_held_uncounted; auto.
Qed.

(** *** The tiers *)

Lemma tiers_shrink_at_most_one w w' x :
  tiers_shrink w w' → in_at_most_one_tier w x → in_at_most_one_tier w' x.
Proof.
  intros Hshrink Hone. destruct (Hshrink x) as ([Hb|Hb] & [Hs|Hs] & [Hd|Hd]);
    unfold in_at_most_one_tier in *; rewrite ?Hb, ?Hs, ?Hd; tauto.
Qed.

Lemma flush_frame_at_most_one w w' x :
  flush_frame w w' → in_at_most_one_tier w x → in_at_most_one_tier w' x.
Proof.
  intros (Hb & _ & Hs & Hd) Hone. unfold in_at_most_one_tier in *. rewrite Hb.
  destruct (decide (_disk_blobs (mgr w') !! x = _disk_blobs (mgr w) !! x))
    as [Heq|Hne].
  - rewrite Heq. destruct (_sticky_blobs (mgr w') !! x) as [d|] eqn:Hx.
    + apply Hs in Hx. rewrite Hx in Hone. tauto.
    + destruct Hone as [[? _]|[[? ?]|[_ ?]]]; tauto.
  - apply Hd in Hne as [[d Hin] Hout]. rewrite Hin in Hone.
    destruct Hone as [[? ?]|[[? ?]|[? ?]]]; try done. tauto.
Qed.

Lemma _decref_shrinks id c fn w r w' :
  _decref id c fn w = (r, w') → tiers_shrink w w'.
Proof.
  assert (Hrefl : ∀ w0, tiers_shrink w0 w0) by (intros w0 x; tauto).
  assert (Hdel : ∀ (V : Type) (m : gmap string V) x,
    delete id m !! x = None ∨ delete id m !! x = m !! x).
  { intros V m x. destruct (decide (x = id)) as [->|Hne].
    - left. apply lookup_delete_eq.
    - right. by apply lookup_delete_ne. }
  rewrite _decref_run. destruct (bool_decide (_ = ∅)).
  { intros [= <- <-]. apply Hrefl. }
  destruct (_blob_ref_counts (mgr w) !! id) as [count|].
  2:{ intros [= <- <-]. apply Hrefl. }
  destruct (bool_decide (count - 1 ≤ 0)).
  2:{ intros [= <- <-]. intros x. cbn. tauto. }
  unfold cache_del, os_unlink. monad_unfold. cbn [mgr].
  destruct c.
  - destruct (_disk_blobs (mgr w) !! id).
    2:{ intros [= <- <-]. apply Hrefl. }
    destruct fn as [name|].
    + change (files (set_mgr ?m w)) with (files w).
      destruct (files w !! name); intros [= <- <-]; intros x; cbn;
        pose proof (Hdel _ (_disk_blobs (mgr w)) x); tauto.
    + intros [= <- <-]; intros x; cbn;
        pose proof (Hdel _ (_disk_blobs (mgr w)) x); tauto.
  - destruct (_sticky_blobs (mgr w) !! id).
    2:{ intros [= <- <-]. apply Hrefl. }
    destruct fn as [name|].
    + change (files (set_mgr ?m w)) with (files w).
      destruct (files w !! name); intros [= <- <-]; intros x; cbn;
        pose proof (Hdel _ (_sticky_blobs (mgr w)) x); tauto.
    + intros [= <- <-]; intros x; cbn;
        pose proof (Hdel _ (_sticky_blobs (mgr w)) x); tauto.
Qed.

Lemma fetch_blob_shrinks id w r w' :
  fetch_blob id w = (r, w') → tiers_shrink w w'.
Proof.
  assert (Hrefl : ∀ w0, tiers_shrink w0 w0) by (intros w0 x; tauto).
  unfold fetch_blob. monad_unfold. cbn [mgr].
  destruct (_blobs (mgr w) !! id) as [data|] eqn:Hb.
  { intros [= <- <-]. intros x. cbn. split; [|tauto].
    destruct (decide (x = id)) as [->|Hne].
    - left. apply lookup_delete_eq.
    - right. by apply lookup_delete_ne. }
  destruct (_disk_blobs (mgr w) !! id) as [[[offset n_bytes] fn]|].
  - destruct fn as [name|].
    + unfold open_read. destruct (files w !! name).
      2:{ intros [= <- <-]. apply Hrefl. }
      destruct (_decref id the__disk_blobs (Some name) w) as [[gone|e] w1] eqn:Hdec;
        intros [= <- <-]; by eapply _decref_shrinks.
    + destruct (small_blobs (_cleanup (mgr w))).
      2:{ intros [= <- <-]. apply Hrefl. }
      destruct (_decref id the__disk_blobs None w) as [[gone|e] w1] eqn:Hdec;
        intros [= <- <-]; by eapply _decref_shrinks.
  - destruct (_sticky_blobs (mgr w) !! id).
    2:{ intros [= <- <-]. apply Hrefl. }
    destruct (_decref id the__sticky_blobs None w) as [[gone|e] w1] eqn:Hdec.
    + apply _decref_shrinks in Hdec. destruct gone; intros [= <- <-]; done.
    + intros [= <- <-]. by eapply _decref_shrinks.
Qed.

Lemma store_blob_at_most_one id data w r w' x :
  in_no_tier w id →
  in_at_most_one_tier w x →
  store_blob id data w = (r, w') →
  in_at_most_one_tier w' x.
Proof.
  intros (Hb & Hs & Hd) Hone.
  assert (Hsticky : ∀ mem, in_at_most_one_tier
    (set_mgr (set__sticky_memory_bytes mem
       (set__sticky_blobs (<[id := data]> (_sticky_blobs (mgr w))) (mgr w))) w) x).
  { intros mem. unfold in_at_most_one_tier in *. cbn.
    destruct (decide (x = id)) as [->|Hne].
    - right. left. done.
    - by rewrite lookup_insert_ne. }
  rewrite store_blob_run. destruct (bool_decide (_ ∨ _)).
  - destruct (bool_decide (_ < _)).
    + intros Hflush. eapply flush_frame_at_most_one; [by eapply flush_is_frame|].
      apply Hsticky.
    + intros [= <- <-]. apply Hsticky.
  - destruct (bool_decide (data = "")).
    + intros [= <- <-]. apply (Hsticky (_sticky_memory_bytes (mgr w))).
    + intros [= <- <-]. unfold in_at_most_one_tier in *. cbn.
      destruct (decide (x = id)) as [->|Hne].
      * right. right. done.
      * by rewrite lookup_insert_ne.
Qed.

Lemma CacheManager_init_tiers info m x :
  CacheManager_init info = Return m → in_no_tier (init_world m) x.
Proof.
  unfold CacheManager_init. destruct info as [info|].
  - destruct (info !! "Blob reference counts") as [section|].
    + destruct (read_ref_counts _ _); [|done]. by intros [= <-].
    + by intros [= <-].
  - by intros [= <-].
Qed.
End flush.

(** ** The memory counter, and why a store returns *)

Lemma sticky_bytes_insert (m : gmap string string) k d :
  m !! k = None → sticky_bytes (<[k := d]> m) = len d + sticky_bytes m.
Proof.
  intros Hk. unfold sticky_bytes.
  rewrite map_fold_insert_L; [done| |done]. intros. lia.
Qed.

Lemma sticky_bytes_delete (m : gmap string string) k d :
  m !! k = Some d → sticky_bytes m = len d + sticky_bytes (delete k m).
Proof.
  intros Hk. unfold sticky_bytes.
  rewrite (map_fold_delete_L _ _ k d m); [done| |done]. intros. lia.
Qed.

Lemma foldr_sum_ext (f g : string → Z) (l : list string) :
  (∀ x, x ∈ l → f x = g x) →
  foldr (λ k total, f k + total) 0 l = foldr (λ k total, g k + total) 0 l.
Proof.
  induction l as [|k l IH]; intros Hfg; [done|]. cbn [foldr].
  rewrite IH by (intros x Hx; apply Hfg; by right).
  by rewrite Hfg by (by left).
Qed.

Lemma sticky_bytes_keys (m : gmap string string) (l : list string) :
  NoDup l → (∀ x, x ∈ l ↔ is_Some (m !! x)) →
  foldr (λ k total, len (default "" (m !! k)) + total) 0 l = sticky_bytes m.
Proof.
  revert m. induction l as [|k l IH]; intros m Hnodup Hdom.
  - assert (m = ∅) as ->.
    { apply map_empty. intros x. apply eq_None_not_Some. rewrite <- Hdom.
      apply not_elem_of_nil. }
    done.
  - apply NoDup_cons in Hnodup as [Hnotin Hnodup].
    destruct (proj1 (Hdom k)) as [d Hd]; [by left|].
    cbn [foldr]. rewrite Hd, (sticky_bytes_delete m k d Hd). cbn [from_option].
    unfold id. f_equal.
    rewrite <- (IH (delete k m) Hnodup).
    + apply foldr_sum_ext. intros x Hx.
      rewrite lookup_delete_ne; [done|]. by intros ->.
    + intros x. rewrite lookup_delete_is_Some, <- Hdom, elem_of_cons.
      split; [intros Hx; split; [by intros ->|by right]|].
      intros [Hne [?|?]]; done.
Qed.

Section consistency.
Context `{DictOrder}.

Lemma flush_one_consistent id w r w' :
  consistent w → flush_one id w = (r, w') → consistent w'.
Proof.
  intros [Hmem Hfile]. rewrite flush_one_run.
  destruct (_sticky_blobs (mgr w) !! id) as [blob|] eqn:Hid.
  2:{ by intros [= <- <-]. }
  assert (Hmem' : _sticky_memory_bytes (mgr w) - len blob =
                  sticky_bytes (delete id (_sticky_blobs (mgr w)))).
  { rewrite Hmem, (sticky_bytes_delete _ _ _ Hid). lia. }
  cbv zeta. destruct (bool_decide _).
  - destruct (small_blobs (_cleanup (mgr w))) eqn:Hf.
    + intros [= <- <-]. split; [done|]. right. by eexists.
    + intros [= <- <-]. split; [done|]. cbn. by rewrite Hf.
  - intros [= <- <-]. by split.
Qed.

Lemma flush_loop_consistent stack count bytes n_small_bytes w r w' :
  consistent w →
  flush_loop stack count bytes n_small_bytes w = (r, w') → consistent w'.
Proof.
  revert count bytes n_small_bytes w.
  induction stack as [|id stack IH]; intros count bytes n_small_bytes w Hcons.
  - rewrite flush_loop_nil. by destruct (bool_decide _); intros [= <- <-].
  - rewrite flush_loop_cons. destruct (bool_decide _).
    2:{ by intros [= <- <-]. }
    destruct (flush_one id w) as [[[n_bytes n_small]|e] w1] eqn:Hone.
    + apply IH. by eapply flush_one_consistent.
    + intros [= <- <-]. by eapply flush_one_consistent.
Qed.

(** The loop returns when the counter is covered by the blobs it may pop. *)
Lemma flush_loop_returns (key : string → Z) stack count bytes n_small_bytes w :
  (∀ x, x ∈ stack →
        ∃ d, _sticky_blobs (mgr w) !! x = Some d ∧ len d = key x) →
  NoDup stack →
  is_Some (small_blobs (_cleanup (mgr w))) →
  _sticky_memory_bytes (mgr w)
    ≤ _sticky_flushed_size + foldr (λ k total, key k + total) 0 stack →
  ∃ r w', flush_loop stack count bytes n_small_bytes w = (Return r, w').
Proof.
  revert count bytes n_small_bytes w.
  induction stack as [|id stack IH]; intros count bytes n_small_bytes w
    Hkeys Hnodup Hfile Hmem.
  - rewrite flush_loop_nil. cbn [foldr] in Hmem.
    rewrite bool_decide_eq_false_2 by lia. eauto.
  - rewrite flush_loop_cons. destruct (bool_decide _); [|eauto].
    destruct (Hkeys id) as (blob & Hid & Hlen); [by left|].
    apply NoDup_cons in Hnodup as [Hnotin Hnodup].
    destruct Hfile as [content Hfile].
    assert (Hone : ∃ n_bytes n_small w1,
      flush_one id w = (Return (n_bytes, n_small), w1) ∧
      is_Some (small_blobs (_cleanup (mgr w1)))).
    { rewrite flush_one_run, Hid. cbv zeta. destruct (bool_decide _).
      - rewrite Hfile. do 3 eexists. split; [done|]. by eexists.
      - do 3 eexists. split; [done|]. cbn. rewrite Hfile. by eexists. }
    destruct Hone as (n_bytes & n_small & w1 & Hone & Hfile1). rewrite Hone.
    apply IH; [|done..|].
    + intros x Hx. rewrite (flush_one_sticky _ _ _ _ Hone).
      rewrite lookup_delete_ne by (by intros ->). apply Hkeys. by right.
    + rewrite (flush_one_mem _ _ _ _ _ Hone Hid). cbn [foldr] in Hmem. lia.
Qed.

Lemma flush_prepare_consistent w :
  consistent w →
  consistent (flush_prepare w) ∧
  is_Some (small_blobs (_cleanup (mgr (flush_prepare w)))).
Proof.
  intros [Hmem Hfile]. unfold flush_prepare.
  destruct (_tempdir (mgr w)) eqn:Hdir.
  - destruct Hfile as [?|Hfile]; [done|]. split; [|done].
    split; [done|by right].
  - split; [split; [done|right; by eexists]|by eexists].
Qed.

Lemma flush_consistent w r w' :
  consistent w → _flush_blobs_to_disk w = (r, w') → consistent w'.
Proof.
  intros Hcons. rewrite flush_run.
  destruct (flush_loop _ _ _ _ _) as [[[[count bytes] n_small]|e] w1] eqn:Hloop;
    intros [= <- <-];
    eapply flush_loop_consistent in Hloop;
    try apply flush_prepare_consistent; done.
Qed.

(** In a consistent world a flush returns. *)
Lemma flush_returns w :
  consistent w → ∃ w', _flush_blobs_to_disk w = (Return tt, w').
Proof.
  intros Hcons. rewrite flush_run.
  destruct (flush_prepare_consistent w Hcons) as [_ Hfile].
  destruct (flush_loop_returns (sticky_size w) (flush_stack w) 0 0 0
    (flush_prepare w)) as ([[count bytes] n_small] & w1 & ->); [| |done| |eauto].
  - intros x Hx. apply elem_of_flush_stack in Hx as [d Hd].
    exists d. rewrite flush_prepare_sticky. split; [done|].
    unfold sticky_size. by rewrite Hd.
  - unfold flush_stack. rewrite reverse_Permutation, list_sort_perm.
    apply NoDup_dict_keys.
  - rewrite flush_prepare_mem. destruct Hcons as [-> _].
    rewrite <- (sticky_bytes_keys _ (dict_keys (_sticky_blobs (mgr w))));
      [|apply NoDup_dict_keys|apply elem_of_dict_keys].
    assert (Hperm : flush_stack w ≡ₚ dict_keys (_sticky_blobs (mgr w))).
    { unfold flush_stack. by rewrite reverse_Permutation, list_sort_perm. }
    rewrite (foldr_permutation (=) (λ k total, sticky_size w k + total) 0
      (flush_stack w) (dict_keys (_sticky_blobs (mgr w)))); [|intros; lia|done].
    unfold sticky_size, _sticky_flushed_size. lia.
Qed.

Lemma store_blob_consistent id data w r w' :
  consistent w → _sticky_blobs (mgr w) !! id = None →
  store_blob id data w = (r, w') → consistent w'.
Proof.
  intros [Hmem Hfile] Hid.
  assert (Hsticky : consistent (stored_sticky id data w)).
  { split; [|done]. cbn. rewrite sticky_bytes_insert by done. lia. }
  rewrite store_blob_run. destruct (bool_decide (_ ∨ _)).
  - destruct (bool_decide (_ < _)).
    + by apply flush_consistent.
    + by intros [= <- <-].
  - destruct (bool_decide (data = "")) eqn:Hdata.
    + apply bool_decide_eq_true in Hdata as ->. intros [= <- <-].
      split; [|done]. cbn. rewrite sticky_bytes_insert by done.
      change (len "") with 0. lia.
    + by intros [= <- <-].
Qed.

(** In a consistent world, [store_blob] under an id that is not in the
    sticky map returns. *)
Lemma store_blob_returns id data w :
  consistent w → _sticky_blobs (mgr w) !! id = None →
  ∃ w', store_blob id data w = (Return tt, w').
Proof.
  intros [Hmem Hfile] Hid. rewrite store_blob_run.
  destruct (bool_decide (_ ∨ _)).
  - destruct (bool_decide (_ < _)); [|eauto].
    apply flush_returns. split; [|done].
    cbn. rewrite sticky_bytes_insert by done. lia.
  - destruct (bool_decide (data = "")); eauto.
Qed.

Lemma fetch_blob_consistent id w r w' :
  consistent w → fetch_blob id w = (r, w') → consistent w'.
Proof.
  intros [Hmem Hfile]. unfold fetch_blob. monad_unfold. cbn [mgr].
  destruct (_blobs (mgr w) !! id) as [data|].
  { by intros [= <- <-]. }
  assert (Hdisk : ∀ fn r1 w1,
    _decref id the__disk_blobs fn w = (r1, w1) → consistent w1).
  { intros fn r1 w1. rewrite _decref_run.
    destruct (bool_decide (_ = ∅)); [by intros [= <- <-]|].
    destruct (_blob_ref_counts (mgr w) !! id) as [count|];
      [|by intros [= <- <-]].
    destruct (bool_decide (count - 1 ≤ 0)); [|by intros [= <- <-]].
    unfold cache_del, os_unlink. monad_unfold. cbn [mgr].
    destruct (_disk_blobs (mgr w) !! id); [|by intros [= <- <-]].
    destruct fn as [name|]; [|by intros [= <- <-]].
    change (files (set_mgr ?m w)) with (files w).
    by destruct (files w !! name); intros [= <- <-]. }
  destruct (_disk_blobs (mgr w) !! id) as [[[offset n_bytes] fn]|].
  - destruct fn as [name|].
    + unfold open_read. destruct (files w !! name); [|by intros [= <- <-]].
      destruct (_decref id the__disk_blobs (Some name) w) as [[gone|e] w1] eqn:Hdec;
        intros [= <- <-]; by eapply Hdisk.
    + destruct (small_blobs (_cleanup (mgr w))) eqn:Hsmall.
      2:{ intros [= <- <-]. split; [done|]. by rewrite Hsmall. }
      destruct (_decref id the__disk_blobs None w) as [[gone|e] w1] eqn:Hdec;
        intros [= <- <-]; by eapply Hdisk.
  - destruct (_sticky_blobs (mgr w) !! id) as [content|] eqn:Hid;
      [|by intros [= <- <-]].
    rewrite _decref_run.
    destruct (bool_decide (_ = ∅)); [by intros [= <- <-]|].
    destruct (_blob_ref_counts (mgr w) !! id) as [count|];
      [|by intros [= <- <-]].
    destruct (bool_decide (count - 1 ≤ 0)); [|by intros [= <- <-]].
    unfold cache_del. monad_unfold. cbn [mgr]. rewrite Hid.
    intros [= <- <-]. split; [|done]. cbn.
    rewrite Hmem, (sticky_bytes_delete _ _ _ Hid). lia.
Qed.

Lemma CacheManager_init_consistent info m :
  CacheManager_init info = Return m → consistent (init_world m).
Proof.
  unfold CacheManager_init. destruct info as [info|].
  - destruct (info !! "Blob reference counts") as [section|].
    + destruct (read_ref_counts _ _); [|done]. intros [= <-]. split; [done|by left].
    + intros [= <-]. split; [done|by left].
  - intros [= <-]. split; [done|by left].
Qed.

(** The worlds of a run in which no blob is stored under an id that is
    cached are consistent. *)
Lemma reachable_fresh_consistent w : reachable_fresh w → consistent w.
Proof.
  induction 1 as [info m Hinit|id data w Hw IH (_ & Hs & _)|id w Hw IH|w Hw IH].
  - by eapply CacheManager_init_consistent.
  - cbn [run_op]. destruct (store_blob id data w) as [r w'] eqn:Hrun.
    by eapply store_blob_consistent.
  - cbn [run_op]. destruct (fetch_blob id w) as [r w'] eqn:Hrun.
    by eapply fetch_blob_consistent.
  - cbn [run_op]. destruct (_flush_blobs_to_disk w) as [r w'] eqn:Hrun.
    by eapply flush_consistent.
Qed.
Lemma _decref_counts id c fn w r w' x :
  _decref id c fn w = (r, w') →
  is_Some (_blob_ref_counts (mgr w') !! x) →
  is_Some (_blob_ref_counts (mgr w) !! x).
Proof.
  rewrite _decref_run. destruct (bool_decide (_ = ∅)); [by intros [= <- <-]|].
  destruct (_blob_ref_counts (mgr w) !! id) as [count|] eqn:Hid;
    [|by intros [= <- <-]].
  destruct (bool_decide (count - 1 ≤ 0)).
  - unfold cache_del, os_unlink. monad_unfold. cbn [mgr].
    assert (Hdel : is_Some (delete id (_blob_ref_counts (mgr w)) !! x) →
                   is_Some (_blob_ref_counts (mgr w) !! x)).
    { rewrite lookup_delete_is_Some. tauto. }
    destruct c.
    + destruct (_disk_blobs (mgr w) !! id); [|by intros [= <- <-]].
      destruct fn as [name|]; [|by intros [= <- <-]].
      change (files (set_mgr ?m w)) with (files w).
      by destruct (files w !! name); intros [= <- <-].
    + destruct (_sticky_blobs (mgr w) !! id); [|by intros [= <- <-]].
      destruct fn as [name|]; [|by intros [= <- <-]].
      change (files (set_mgr ?m w)) with (files w).
      by destruct (files w !! name); intros [= <- <-].
  - intros [= <- <-]. cbn. destruct (decide (x = id)) as [->|Hne].
    + by rewrite Hid.
    + by rewrite lookup_insert_ne.
Qed.

Lemma fetch_blob_counts id w r w' x :
  fetch_blob id w = (r, w') →
  is_Some (_blob_ref_counts (mgr w') !! x) →
  is_Some (_blob_ref_counts (mgr w) !! x).
Proof.
  unfold fetch_blob. monad_unfold. cbn [mgr].
  destruct (_blobs (mgr w) !! id) as [data|]; [by intros [= <- <-]|].
  destruct (_disk_blobs (mgr w) !! id) as [[[offset n_bytes] fn]|].
  - destruct fn as [name|].
    + unfold open_read. destruct (files w !! name); [|by intros [= <- <-]].
      destruct (_decref id the__disk_blobs (Some name) w) as [[gone|e] w1] eqn:Hdec;
        intros [= <- <-]; by eapply _decref_counts.
    + destruct (small_blobs (_cleanup (mgr w))); [|by intros [= <- <-]].
      destruct (_decref id the__disk_blobs None w) as [[gone|e] w1] eqn:Hdec;
        intros [= <- <-]; by eapply _decref_counts.
  - destruct (_sticky_blobs (mgr w) !! id); [|by intros [= <- <-]].
    destruct (_decref id the__sticky_blobs None w) as [[gone|e] w1] eqn:Hdec.
    + pose proof (_decref_counts _ _ _ _ _ _ x Hdec) as Hc.
      destruct gone; intros [= <- <-]; exact Hc.
    + intros [= <- <-]. by eapply _decref_counts.
Qed.

(** Whatever the run, the transient map holds no blob that has a reference
    count: such a blob is stored sticky, and reference counts are never
    added. *)
Lemma reachable_counted_not_transient w id :
  reachable w → is_Some (_blob_ref_counts (mgr w) !! id) →
  _blobs (mgr w) !! id = None.
Proof.
  intros Hw. revert id.
  induction Hw as [info m Hinit|[x data|x|] w Hw IH]; intros id Hid.
  - by destruct (CacheManager_init_tiers _ _ id Hinit) as (? & _).
  - cbn [run_op] in *. revert Hid. rewrite store_blob_run.
    destruct (bool_decide (_ ∨ _)) eqn:Hcounted.
    + destruct (bool_decide (_ < _)).
      * destruct (_flush_blobs_to_disk _) as [r w'] eqn:Hflush.
        destruct (flush_is_frame _ _ _ Hflush) as (Hb & Hc & _).
        cbn [snd]. rewrite Hb, Hc. apply IH.
      * apply IH.
    + apply bool_decide_eq_false in Hcounted.
      destruct (bool_decide (data = "")); [apply IH|].
      cbn. intros Hid. rewrite lookup_insert_ne; [by apply IH|].
      intros ->. apply Hcounted. by right.
  - cbn [run_op] in *. destruct (fetch_blob x w) as [r w'] eqn:Hrun.
    cbn [snd] in *.
    destruct (fetch_blob_shrinks _ _ _ _ Hrun id) as ([Hb|Hb] & _); [done|].
    rewrite Hb. apply IH. by eapply fetch_blob_counts.
  - cbn [run_op] in *. destruct (_flush_blobs_to_disk w) as [r w'] eqn:Hflush.
    destruct (flush_is_frame _ _ _ Hflush) as (Hb & Hc & _).
    cbn [snd] in *. rewrite Hb. apply IH. by rewrite <- Hc.
Qed.

(** In such a run [store_blob] returns. *)
Lemma store_blob_returns_in_run id data w :
  reachable_fresh w → _sticky_blobs (mgr w) !! id = None →
  ∃ w', store_blob id data w = (Return tt, w').
Proof.
  intros Hw Hid. apply store_blob_returns; [|done].
  by apply reachable_fresh_consistent.
Qed.
End consistency.

(** ** The claims on the blob cache *)

(** C7, as amended. In every state a new manager reaches by [store_blob]
    under ids that are in no tier at the time, by [fetch_blob] and by flushes,
    in any order and whether or not they raise, every blob id is in at most
    one of the transient map, the sticky map and the disk tier. *)
Theorem tiers_exclusive_for_fresh_ids `{DictOrder} (w : World) :
  reachable_fresh w → ∀ id, in_at_most_one_tier w id.
Proof.
  induction 1 as [info m Hinit|id data w Hw IH Hfresh|id w Hw IH|w Hw IH];
    intros x.
  - destruct (CacheManager_init_tiers _ _ x Hinit) as (Hb & Hs & _). by left.
  - cbn [run_op]. destruct (store_blob id data w) as [r w'] eqn:Hrun.
    by eapply store_blob_at_most_one.
  - cbn [run_op]. destruct (fetch_blob id w) as [r w'] eqn:Hrun.
    eapply tiers_shrink_at_most_one; [by eapply fetch_blob_shrinks|done].
  - cbn [run_op]. destruct (_flush_blobs_to_disk w) as [r w'] eqn:Hrun.
    eapply flush_frame_at_most_one; [by eapply flush_is_frame|done].
Qed.

Lemma tiers_exclusive_for_fresh_ids_witness :
  in_at_most_one_tier
    (run_op (Fetch "X")
       (run_op (Store "X" "abc") (init_world new_CacheManager))) "X".
Proof.
  apply tiers_exclusive_for_fresh_ids.
  apply reachable_fresh_fetch, reachable_fresh_store.
  - by apply (reachable_fresh_init None).
  - by vm_compute.
Defined.

(** C7, as stated, fails: with a hint for some other blob, storing ["a"] and
    then the empty payload under the same id leaves the id in the transient
    map and in the sticky map. *)
Lemma tiers_exclusive_counterexample :
  let hints : ConfigObj := {[ "Blob reference counts" := {[ "1" := ["Y"] ]} ]} in
  ∃ m, CacheManager_init (Some hints) = Return m ∧
    let w := run_op (Store "X" "") (run_op (Store "X" "a") (init_world m)) in
    reachable w ∧
    _blobs (mgr w) !! "X" = Some "a" ∧
    _sticky_blobs (mgr w) !! "X" = Some "" ∧
    ¬ in_at_most_one_tier w "X".
Proof.
  cbv zeta. eexists. split; [by vm_compute|]. split; [|split; [|split]].
  - do 2 apply reachable_op.
    apply (reachable_init
      (Some {[ "Blob reference counts" := {[ "1" := ["Y"] ]} ]})).
    by vm_compute.
  - by vm_compute.
  - by vm_compute.
  - unfold in_at_most_one_tier. vm_compute.
    intros [[? ?]|[[? ?]|[? ?]]]; discriminate.
Qed.

(** C6, as amended. Let the empty payload be stored under an id that has no
    reference-count hint and that neither the transient map nor the disk
    tier holds. In a run in which no blob is stored under a cached id,
    [store_blob] returns. Once it has returned, any number of calls of
    [fetch_blob] return the empty payload and leave the cache as it is: the
    entry stays. *)
Theorem empty_blob_without_hint_is_kept `{DictOrder} (id : string) (w : World) :
  _blob_ref_counts (mgr w) !! id = None →
  _blobs (mgr w) !! id = None →
  _disk_blobs (mgr w) !! id = None →
  (reachable_fresh w → _sticky_blobs (mgr w) !! id = None →
     ∃ w1, store_blob id "" w = (Return tt, w1)) ∧
  ∀ w1, store_blob id "" w = (Return tt, w1) →
    held w1 id "" ∧
    ∀ n, fetch_times n id w1 = (replicate n (Return ""), w1).
Proof.
  intros Hcount Hb Hd. split; [apply store_blob_returns_in_run|].
  intros w1 Hstore.
  destruct (store_blob_held id "" w w1) as [Hheld Hc]; [by right|done..|].
  split; [done|]. intros n. apply fetch_times_uncounted; [done|].
  right. by rewrite Hc.
Qed.

Lemma empty_blob_without_hint_is_kept_witness :
  let hints : ConfigObj := {[ "Blob reference counts" := {[ "2" := ["Y"] ]} ]} in
  ∃ m w1, CacheManager_init (Some hints) = Return m ∧
    store_blob "X" "" (init_world m) = (Return tt, w1) ∧
    fetch_times 3 "X" w1 = ([Return ""; Return ""; Return ""], w1) ∧
    held w1 "X" "".
Proof.
  cbv zeta.
  set (m := set__blob_ref_counts {[ "Y" := 2 ]} new_CacheManager).
  exists m, (store_blob "X" "" (init_world m)).2.
  split; [by vm_compute|]. split; [by vm_compute|].
  destruct (empty_blob_without_hint_is_kept "X" (init_world m))
    as [_ Hkept]; [by vm_compute..|].
  destruct (Hkept (store_blob "X" "" (init_world m)).2) as [Hheld Hfetch];
    [by vm_compute|].
  split; [exact (Hfetch 3%nat)|exact Hheld].
Defined.

(** C6, as stated, fails: when the hints give the id the reference count 1,
    the empty payload is returned once, the entry is evicted and the second
    fetch raises [KeyError]. *)
Lemma empty_blob_counterexample :
  let hints : ConfigObj := {[ "Blob reference counts" := {[ "1" := ["X"] ]} ]} in
  ∃ m w1 w2, CacheManager_init (Some hints) = Return m ∧
    store_blob "X" "" (init_world m) = (Return tt, w1) ∧
    fetch_times 2 "X" w1 = ([Return ""; Raise KeyError], w2) ∧
    in_no_tier w2 "X".
Proof.
  cbv zeta. do 3 eexists. split; [by vm_compute|].
  split; [by vm_compute|]. split; [by vm_compute|]. by vm_compute.
Qed.

(** C2. Let [w] be the state of a manager after any run of stores, fetches
    and flushes, and let [id] have the reference count [n > 0] and not be in
    the disk tier. In a run in which no blob is stored under a cached id,
    [store_blob(id, data)] returns. Once it has returned, the first [n] calls
    of [fetch_blob(id)] each return [data]; after them [id] is in none of the
    three tiers, and the next call raises [KeyError]. *)
Theorem fetch_blob_exhausts_reference_count `{DictOrder} (id data : string)
    (n : Z) (w : World) :
  reachable w →
  _blob_ref_counts (mgr w) !! id = Some n → 0 < n →
  _disk_blobs (mgr w) !! id = None →
  (reachable_fresh w → _sticky_blobs (mgr w) !! id = None →
     ∃ w1, store_blob id data w = (Return tt, w1)) ∧
  ∀ w1, store_blob id data w = (Return tt, w1) →
    ∃ w2,
      fetch_times (Z.to_nat n) id w1
        = (replicate (Z.to_nat n) (Return data), w2) ∧
      in_no_tier w2 id ∧
      fetch_blob id w2 = (Raise KeyError, w2).
Proof.
  intros Hw Hcount Hpos Hd.
  assert (Hb : _blobs (mgr w) !! id = None)
    by (apply reachable_counted_not_transient; [done|by eexists]).
  split.
  { intros Hfresh Hs. by apply store_blob_returns_in_run. }
  intros w1 Hstore.
  destruct (store_blob_held id data w w1) as [Hheld Hc];
    [left; right; by eexists|done..|].
  destruct (Z.to_nat n) as [|k] eqn:Hk; [lia|].
  destruct (fetch_times_exhaust k id data w1) as (w2 & Hrun & Hno & _);
    [done|rewrite Hc, Hcount; f_equal; lia|].
  exists w2. split; [done|]. split; [done|]. by apply fetch_absent.
Qed.

Lemma fetch_blob_exhausts_reference_count_witness :
  let hints : ConfigObj := {[ "Blob reference counts" := {[ "2" := ["X"] ]} ]} in
  ∃ m w1 w2, CacheManager_init (Some hints) = Return m ∧
    store_blob "X" "payload" (init_world m) = (Return tt, w1) ∧
    fetch_times 2 "X" w1 = ([Return "payload"; Return "payload"], w2) ∧
    in_no_tier w2 "X" ∧
    fetch_blob "X" w2 = (Raise KeyError, w2).
Proof.
  cbv zeta.
  set (m := set__blob_ref_counts {[ "X" := 2 ]} new_CacheManager).
  exists m, (store_blob "X" "payload" (init_world m)).2.
  destruct (fetch_blob_exhausts_reference_count "X" "payload" 2 (init_world m))
    as [_ Hfetch];
    [|by vm_compute|lia|by vm_compute|].
  { apply (reachable_init
      (Some {[ "Blob reference counts" := {[ "2" := ["X"] ]} ]})).
    by vm_compute. }
  destruct (Hfetch (store_blob "X" "payload" (init_world m)).2)
    as (w2 & Hrun & Hno & Hnext); [by vm_compute|].
  exists w2. split; [by vm_compute|]. split; [by vm_compute|].
  split; [exact Hrun|]. split; [exact Hno|exact Hnext].
Defined.

(** ** A flush in a run: a small blob, then one past the high-water mark *)

Lemma list_sort_two {A} (key : A → Z) (l : list A) (x y : A) :
  l ≡ₚ [x; y] → key x < key y → list_sort key l = [x; y].
Proof.
  intros Hperm Hlt. symmetry in Hperm.
  apply Permutation.Permutation_length_2_inv in Hperm as [-> | ->];
    cbn [list_sort sort_insert].
  - by rewrite bool_decide_eq_true_2 by lia.
  - by rewrite bool_decide_eq_false_2 by lia.
Qed.

Lemma fresh_string_empty {A} (s : string) : fresh_string s (∅ : gmap string A) = s.
Proof. unfold fresh_string. by rewrite lookup_empty. Qed.

Lemma store_small_then_large `{DictOrder} (a A b B : string) :
  a ≠ b → len A < len B → len A ≤ _sticky_flushed_size →
  _sticky_cache_size < len A + len B → _small_blob_threshold ≤ len B →
  ∃ w2,
    store_blob b B (stored_sticky a A (init_world new_CacheManager))
      = (Return tt, w2) ∧
    store_blob a A (init_world new_CacheManager)
      = (Return tt, stored_sticky a A (init_world new_CacheManager)) ∧
    _blobs (mgr w2) = ∅ ∧
    _sticky_blobs (mgr w2) = {[ a := A ]} ∧
    _disk_blobs (mgr w2)
      = {[ b := (0, len B, Some "bzr_fastimport_blobs-/blob-") ]} ∧
    files w2 = {[ "bzr_fastimport_blobs-/blob-" := B ]} ∧
    dirs w2 = {[ "bzr_fastimport_blobs-" ]} ∧
    _sticky_memory_bytes (mgr w2) = len A ∧
    _cleanup (mgr w2)
      = mk_Cleanup (Some shared_disk_blobs) (Some "bzr_fastimport_blobs-")
          (Some "") ∧
    _tempdir (mgr w2) = Some "bzr_fastimport_blobs-" ∧
    _blob_ref_counts (mgr w2) = ∅.
Proof.
  intros Hab Hlt Hlow Hhigh Hlarge.
  set (w0 := init_world new_CacheManager).
  set (w1 := stored_sticky a A w0).
  set (w1b := stored_sticky b B w1).
  assert (Hmarks : _sticky_flushed_size < _sticky_cache_size)
    by (unfold _sticky_flushed_size, _sticky_cache_size; lia).
  assert (Hstack : flush_stack w1b = [b; a]).
  { unfold flush_stack.
    rewrite (list_sort_two _ _ a b); [done| |].
    - unfold dict_keys. rewrite dict_items_perm. cbn.
      rewrite map_to_list_insert by (by rewrite lookup_insert_ne, lookup_empty).
      rewrite map_to_list_insert by apply lookup_empty.
      rewrite map_to_list_empty. cbn. apply Permutation_swap.
    - unfold sticky_size. cbn.
      rewrite lookup_insert_ne, !lookup_insert_eq by done. done. }
  assert (Hprep : flush_prepare w1b =
    set_mgr
      (set__cleanup
         (set_small_blobs (Some "")
            (set_tempdir (Some "bzr_fastimport_blobs-") (_cleanup (mgr w1b))))
         (set__tempdir (Some "bzr_fastimport_blobs-") (mgr w1b)))
      (set_dirs {[ "bzr_fastimport_blobs-" ]} w1b)).
  { unfold flush_prepare. cbn [_tempdir mgr w1b w1 w0 stored_sticky set_mgr
      init_world set__sticky_memory_bytes set__sticky_blobs new_CacheManager dirs].
    reflexivity. }
  eexists. split.
  - rewrite store_blob_run.
    rewrite bool_decide_eq_true_2 by (by left).
    rewrite bool_decide_eq_true_2 by (cbn; lia).
    fold w1b. rewrite flush_run, Hstack, Hprep.
    rewrite flush_loop_cons.
    rewrite bool_decide_eq_true_2 by (cbn; lia).
    rewrite flush_one_run. cbn [mgr set_mgr set_dirs _sticky_blobs set__cleanup
      set__tempdir w1b w1 stored_sticky set__sticky_memory_bytes set__sticky_blobs].
    rewrite lookup_insert_eq. cbv zeta.
    rewrite bool_decide_eq_false_2 by lia.
    rewrite flush_loop_cons.
    rewrite bool_decide_eq_false_2 by (cbn; lia).
    reflexivity.
  - split.
    { rewrite store_blob_run.
      rewrite bool_decide_eq_true_2 by (by left).
      by rewrite bool_decide_eq_false_2 by (cbn; lia). }
    cbn. rewrite fresh_string_empty.
    rewrite delete_insert_eq, delete_id
      by (by rewrite lookup_insert_ne, lookup_empty).
    repeat split; try done. lia.
Qed.

(** The run of the examples, in the dictionary order of [map_to_list]: the
    one-byte blob ["x"] is stored under ["a"] in a new manager, then
    [big_blob] under ["b"]. *)
Lemma small_then_big_run :
  ∃ w2,
    store_blob "b" big_blob (stored_sticky "a" "x" (init_world new_CacheManager))
      = (Return tt, w2) ∧
    store_blob "a" "x" (init_world new_CacheManager)
      = (Return tt, stored_sticky "a" "x" (init_world new_CacheManager)) ∧
    _blobs (mgr w2) = ∅ ∧
    _sticky_blobs (mgr w2) = {[ "a" := "x" ]} ∧
    _disk_blobs (mgr w2)
      = {[ "b" := (0, len big_blob, Some "bzr_fastimport_blobs-/blob-") ]} ∧
    files w2 = {[ "bzr_fastimport_blobs-/blob-" := big_blob ]} ∧
    dirs w2 = {[ "bzr_fastimport_blobs-" ]} ∧
    _sticky_memory_bytes (mgr w2) = len "x" ∧
    _cleanup (mgr w2)
      = mk_Cleanup (Some shared_disk_blobs) (Some "bzr_fastimport_blobs-")
          (Some "") ∧
    _tempdir (mgr w2) = Some "bzr_fastimport_blobs-" ∧
    _blob_ref_counts (mgr w2) = ∅.
Proof.
  assert (Hx : len "x" = 1) by reflexivity.
  apply store_small_then_large; rewrite ?len_big_blob, ?Hx; try done;
    unfold _sticky_cache_size, _sticky_flushed_size, _small_blob_threshold; lia.
Qed.

(** C1, as amended. Let [store_blob] take a reference-counted blob. In a
    run in which no blob is stored under a cached id, it returns. When it has
    returned: if the memory counter does not exceed 300 MiB with the blob, the
    blob is in the sticky map and nothing is evicted; if it does, a flush has
    run, the counter is at most 100 MiB, the blobs left in the sticky map are
    unchanged, and every evicted blob is in the disk tier (in the shared
    small-blob file at its recorded offset and length when it is below
    75 KiB, in a file of its own otherwise), is at least as large as every
    blob left in the sticky map, and could not have stayed: with it the
    counter would exceed 100 MiB. *)
Theorem store_blob_flushes_largest_first `{DictOrder} (id data : string)
    (w : World) :
  counted w id →
  (reachable_fresh w → _sticky_blobs (mgr w) !! id = None →
     ∃ w', store_blob id data w = (Return tt, w')) ∧
  ∀ w', store_blob id data w = (Return tt, w') →
    (_sticky_memory_bytes (mgr w) + len data ≤ _sticky_cache_size →
       w' = stored_sticky id data w) ∧
    (_sticky_cache_size < _sticky_memory_bytes (mgr w) + len data →
       _sticky_memory_bytes (mgr w') ≤ _sticky_flushed_size ∧
       (∀ k bk, _sticky_blobs (mgr w') !! k = Some bk →
                _sticky_blobs (mgr (stored_sticky id data w)) !! k = Some bk) ∧
       (∀ e be,
          _sticky_blobs (mgr (stored_sticky id data w)) !! e = Some be →
          _sticky_blobs (mgr w') !! e = None →
          on_disk w' e be ∧
          _sticky_flushed_size < _sticky_memory_bytes (mgr w') + len be ∧
          ∀ k bk, _sticky_blobs (mgr w') !! k = Some bk → len bk ≤ len be)).
Proof.
  intros Hcounted. split; [apply store_blob_returns_in_run|].
  intros w'. rewrite store_blob_run.
  rewrite bool_decide_eq_true_2 by done.
  destruct (bool_decide (_ < _)) eqn:Hmem.
  - apply bool_decide_eq_true in Hmem. intros Hflush.
    split; [lia|]. intros _. split; [by eapply flush_mem|].
    split; [by apply (flush_is_frame _ _ _ Hflush)|].
    intros e be Hin Hout. split; [by eapply flush_stored|].
    by eapply flush_order.
  - apply bool_decide_eq_false in Hmem. intros [= <-]. split; [done|lia].
Qed.

Lemma store_blob_flushes_largest_first_witness :
  ∃ w2,
    store_blob "b" big_blob (stored_sticky "a" "x" (init_world new_CacheManager))
      = (Return tt, w2) ∧
    _sticky_memory_bytes (mgr w2) ≤ _sticky_flushed_size ∧
    on_disk w2 "b" big_blob.
Proof.
  destruct small_then_big_run as (w2 & Hrun & _ & _ & Hsticky & _).
  exists w2. split; [exact Hrun|].
  destruct (store_blob_flushes_largest_first "b" big_blob
    (stored_sticky "a" "x" (init_world new_CacheManager)))
    as [_ Hstore]; [by left|].
  destruct (Hstore w2 Hrun) as [_ Hflush].
  destruct Hflush as (Hmem & _ & Hevicted).
  { cbn. rewrite len_big_blob. change (len "x") with 1. lia. }
  split; [exact Hmem|].
  apply Hevicted.
  - cbn. apply lookup_insert_eq.
  - rewrite Hsticky. by apply lookup_singleton_ne.
Defined.

(** C1, as stated, fails: after the one-byte blob ["a"] and then [big_blob]
    under ["b"] are stored in a new manager, the flush has evicted ["b"], the
    larger blob, and has kept ["a"], the smaller one. *)
Lemma smallest_first_counterexample :
  ∃ w1 w2,
    store_blob "a" "x" (init_world new_CacheManager) = (Return tt, w1) ∧
    store_blob "b" big_blob w1 = (Return tt, w2) ∧
    _sticky_blobs (mgr w2) !! "a" = Some "x" ∧
    _sticky_blobs (mgr w2) !! "b" = None ∧
    _disk_blobs (mgr w2) !! "a" = None ∧
    (∃ name, _disk_blobs (mgr w2) !! "b" = Some (0, len big_blob, Some name)) ∧
    len "x" < len big_blob.
Proof.
  destruct small_then_big_run as (w2 & Hrun & Hrun1 & _ & Hsticky & Hdisk & _).
  exists (stored_sticky "a" "x" (init_world new_CacheManager)), w2.
  split; [exact Hrun1|]. split; [exact Hrun|]. rewrite Hsticky, Hdisk.
  split; [apply lookup_singleton_eq|].
  split; [by apply lookup_singleton_ne|].
  split; [by apply lookup_singleton_ne|].
  split; [eexists; apply lookup_singleton_eq|].
  rewrite len_big_blob. change (len "x") with 1.
  unfold _sticky_cache_size. lia.
Qed.

(** C8. Let a store of a reference-counted blob exceed the high-water
    mark. In a run in which no blob is stored under a cached id, it returns.
    When it has returned, a blob that was sticky, that the transient map did
    not hold, and that the flush of this store has taken out of the sticky
    map is in the disk tier, in the shared small-blob file or in a file of
    its own, and [fetch_blob] returns it as it was stored. *)
Theorem flushed_blob_reads_back `{DictOrder} (id data id' data' : string)
    (w : World) :
  counted w id' →
  _sticky_cache_size < _sticky_memory_bytes (mgr w) + len data' →
  _sticky_blobs (mgr (stored_sticky id' data' w)) !! id = Some data →
  _blobs (mgr w) !! id = None →
  (reachable_fresh w → _sticky_blobs (mgr w) !! id' = None →
     ∃ w', store_blob id' data' w = (Return tt, w')) ∧
  ∀ w', store_blob id' data' w = (Return tt, w') →
    _sticky_blobs (mgr w') !! id = None →
    on_disk w' id data ∧ ∃ w'', fetch_blob id w' = (Return data, w'').
Proof.
  intros Hcounted Hmem Hin Hb. split; [apply store_blob_returns_in_run|].
  intros w'. rewrite store_blob_run.
  rewrite bool_decide_eq_true_2 by done.
  rewrite bool_decide_eq_true_2 by done.
  intros Hflush Hout.
  assert (Hdisk : on_disk w' id data) by (by eapply flush_stored).
  split; [done|]. apply fetch_held. split; [|by right].
  destruct (flush_is_frame _ _ _ Hflush) as (-> & _). done.
Qed.

Lemma flushed_blob_reads_back_witness :
  ∃ w2 w3,
    store_blob "b" big_blob (stored_sticky "a" "x" (init_world new_CacheManager))
      = (Return tt, w2) ∧
    fetch_blob "b" w2 = (Return big_blob, w3).
Proof.
  destruct small_then_big_run as (w2 & Hrun & _ & _ & Hsticky & _).
  destruct (flushed_blob_reads_back "b" big_blob "b" big_blob
    (stored_sticky "a" "x" (init_world new_CacheManager)))
    as [_ Hback].
  - by left.
  - cbn. rewrite len_big_blob. change (len "x") with 1. lia.
  - cbn. apply lookup_insert_eq.
  - reflexivity.
  - destruct (Hback w2 Hrun) as [_ [w3 Hfetch]].
    + rewrite Hsticky. by apply lookup_singleton_ne.
    + exists w2, w3. split; [exact Hrun|exact Hfetch].
Defined.

Lemma dict_values_singleton `{DictOrder} {V : Type} (k : string) (v : V) :
  dict_values ({[ k := v ]} : gmap string V) = [v].
Proof.
  unfold dict_values.
  assert (Hitems : dict_items ({[ k := v ]} : gmap string V) = [(k, v)]).
  { apply Permutation_singleton_r.
    by rewrite dict_items_perm, map_to_list_singleton. }
  by rewrite Hitems.
Qed.

(** C5, the failing run. The one-byte blob ["a"] is stored in a new manager:
    no temporary directory exists yet. [big_blob] is stored under ["b"]: the
    flush creates the directory and the files. Then [finalize] unlinks the
    file of ["b"] and closes the small-blob file, and raises [NameError] at
    [shutils.rmtree]: the temporary directory stays. *)
Theorem finalize_raises_after_flush :
  ∃ w2 w3 d,
    _tempdir (mgr (stored_sticky "a" "x" (init_world new_CacheManager))) = None ∧
    dirs (stored_sticky "a" "x" (init_world new_CacheManager)) = ∅ ∧
    store_blob "b" big_blob (stored_sticky "a" "x" (init_world new_CacheManager))
      = (Return tt, w2) ∧
    _tempdir (mgr w2) = Some d ∧
    dirs w2 = {[ d ]} ∧
    finalize w2 = (Raise NameError, w3) ∧
    files w3 = ∅ ∧
    small_blobs (_cleanup (mgr w3)) = None ∧
    dirs w3 = {[ d ]}.
Proof.
  destruct small_then_big_run
    as (w2 & Hrun & _ & _ & _ & Hdisk & Hfiles & Hdirs & _ & Hcleanup & Htemp & _).
  exists w2. eexists. exists "bzr_fastimport_blobs-".
  split; [reflexivity|]. split; [reflexivity|].
  split; [exact Hrun|]. split; [exact Htemp|]. split; [exact Hdirs|].
  assert (Hfin : finalize w2 =
    (Raise NameError,
     set_mgr
       (set__cleanup (mk_Cleanup None (Some "bzr_fastimport_blobs-") None)
          (mgr w2))
       (set_files (delete "bzr_fastimport_blobs-/blob-" (files w2)) w2))).
  { unfold finalize. monad_unfold. cbn [mgr]. rewrite Hcleanup.
    cbn [disk_blobs]. rewrite Hdisk, dict_values_singleton.
    cbn [unlink_all]. monad_unfold. unfold os_unlink.
    rewrite Hfiles, lookup_singleton_eq.
    cbn [mgr set_mgr set_files _cleanup set__cleanup]. rewrite Hcleanup.
    reflexivity. }
  split; [exact Hfin|]. cbn [files set_mgr set_files mgr _cleanup set__cleanup
    small_blobs dirs].
  rewrite Hfiles, delete_singleton_eq. split; [reflexivity|].
  split; [reflexivity|exact Hdirs].
Qed.

(** * Further properties of the marks file *)

Lemma rstrip_newline_empty_no_space (s : string) :
  rstrip_newline s = "" → contains " " s = false.
Proof.
  induction s as [|c s IH]; [done|]. cbn [rstrip_newline contains].
  destruct (bool_decide (c = newline ∧ rstrip_newline s = "")) eqn:Hc; [|done].
  apply bool_decide_eq_true in Hc as [-> Hs]. intros _.
  rewrite IH by done. by vm_compute.
Qed.

Lemma contains_rstrip_newline (s : string) :
  contains " " (rstrip_newline s) = contains " " s.
Proof.
  induction s as [|c s IH]; [done|]. cbn [rstrip_newline].
  destruct (bool_decide (c = newline ∧ rstrip_newline s = "")) eqn:Hc.
  - apply bool_decide_eq_true in Hc as [-> Hs].
    cbn [contains]. rewrite (rstrip_newline_empty_no_space s) by done.
    by vm_compute.
  - cbn [contains]. by rewrite IH.
Qed.

Lemma split_space_1_space (s : string) :
  contains " " s = true →
  ∃ a b, split_space_1 s = [a; b] ∧ s = a +:+ String " " b ∧ contains " " a = false.
Proof.
  induction s as [|c s IH]; [done|]. cbn [contains split_space_1].
  destruct (bool_decide (c = " "%char)) eqn:Hc.
  - apply bool_decide_eq_true in Hc as ->. intros _. by exists "", s.
  - rewrite orb_false_l. intros Hs. destruct (IH Hs) as (a & b & -> & -> & Ha).
    exists (String c a), b. split; [done|]. split; [done|].
    cbn [contains]. by rewrite Hc, Ha.
Qed.

Lemma split_space_1_no_space (s : string) :
  contains " " s = false → split_space_1 s = [s].
Proof.
  induction s as [|c s IH]; [done|]. cbn [contains split_space_1].
  intros Hs. apply orb_false_iff in Hs as [Hc Hs]. rewrite Hc, IH; done.
Qed.

Lemma import_lines_all_spaced lines acc :
  Forall (λ line, contains " " line = true) lines →
  ∃ m, import_lines lines acc = Return m.
Proof.
  revert acc. induction lines as [|line lines IH]; intros acc Hall; [by eexists|].
  apply Forall_cons in Hall as [Hline Hall]. cbn [import_lines].
  destruct (split_space_1_space (rstrip_newline line)) as (a & b & -> & _);
    [by rewrite contains_rstrip_newline|].
  by apply IH.
Qed.

Lemma import_lines_unspaced lines acc :
  Exists (λ line, contains " " line = false) lines →
  import_lines lines acc = Raise ValueError.
Proof.
  revert acc. induction lines as [|line lines IH]; intros acc Hex.
  - by apply Exists_nil in Hex.
  - cbn [import_lines]. destruct (contains " " line) eqn:Hline.
    + destruct (split_space_1_space (rstrip_newline line)) as (a & b & -> & _);
        [by rewrite contains_rstrip_newline|].
      apply IH. apply Exists_cons in Hex as [Hex|Hex]; [congruence|done].
    + rewrite split_space_1_no_space; [done|].
      by rewrite contains_rstrip_newline.
Qed.

(** X1. [import_marks] on a readable file returns a mapping when every line
    holds a space, and raises [ValueError] as soon as one line holds none (a
    blank line is one); it logs no warning either way. *)
Theorem import_marks_needs_a_space_on_every_line (filename content : string)
    (e : MarksEnv) :
  filename ∉ fs_unreadable (fs e) →
  fs_files (fs e) !! filename = Some content →
  (Forall (λ line, contains " " line = true) (file_lines content) →
     ∃ m, import_marks filename e = (Return (Some m), e)) ∧
  (Exists (λ line, contains " " line = false) (file_lines content) →
     import_marks filename e = (Raise ValueError, e)).
Proof.
  intros Hr Hfile. unfold import_marks, file_open_read.
  rewrite bool_decide_eq_false_2 by done. rewrite Hfile. split.
  - intros Hall. destruct (import_lines_all_spaced _ ∅ Hall) as (m & ->).
    by exists m.
  - intros Hex. by rewrite import_lines_unspaced.
Qed.

Lemma import_marks_needs_a_space_on_every_line_witness :
  let good := with_file "marks" (":1 rev-a" +:+ String newline "") empty_env in
  let bad := with_file "marks" (":1 rev-a" +:+ String newline (String newline ""))
               empty_env in
  (∃ m, import_marks "marks" good = (Return (Some m), good)) ∧
  import_marks "marks" bad = (Raise ValueError, bad).
Proof.
  cbv zeta. split.
  - apply (import_marks_needs_a_space_on_every_line "marks"
             (":1 rev-a" +:+ String newline "")).
    + vm_compute. set_solver.
    + reflexivity.
    + apply (bool_decide_unpack _). by vm_compute.
  - apply (import_marks_needs_a_space_on_every_line "marks"
             (":1 rev-a" +:+ String newline (String newline ""))).
    + vm_compute. set_solver.
    + reflexivity.
    + apply (bool_decide_unpack _). by vm_compute.
Defined.

Lemma marks_file_line_app colon (mark revid rest : string) :
  marks_file_line colon mark revid +:+ rest =
    ((if colon then ":" else "") +:+ mark +:+ String " " revid)
      +:+ String newline rest.
Proof.
  unfold marks_file_line.
  repeat (rewrite ?string_app_assoc, ?string_app_cons, ?string_app_nil_l).
  done.
Qed.

Lemma strip_colon_written colon mark :
  colon = true ∨ strip_colon mark = mark →
  strip_colon ((if colon then ":" else "") +:+ mark) = mark.
Proof. intros [-> | Hm]; [done|]. by destruct colon. Qed.

Lemma import_lines_marks_file_text entries acc :
  Forall (λ '(colon, mark, revid), reads_as colon mark revid) entries →
  import_lines (file_lines (marks_file_text entries)) acc =
    Return (foldl (λ acc '(mark, revid), <[mark := revid]> acc) acc
              ((λ '(_, mark, revid), (mark, revid)) <$> entries)).
Proof.
  revert acc. induction entries as [|[[colon mark] revid] entries IH];
    intros acc Hfit; [done|].
  apply Forall_cons in Hfit as [[(Hsp & Hnl & Hnl') Hcolon] Hfit].
  assert (Hprefix : ∀ c, contains c (if colon then ":" else "") = false ∨ c = ":"%char).
  { intros c. destruct colon; [|by left]. cbn [contains].
    destruct (bool_decide (":"%char = c)) eqn:Hc; [|by left].
    apply bool_decide_eq_true in Hc. by right. }
  cbn [marks_file_text foldr]. rewrite marks_file_line_app.
  rewrite file_lines_line.
  2:{ rewrite !contains_app. cbn [contains]. rewrite Hnl, Hnl'.
      destruct (Hprefix newline) as [-> | ?]; done. }
  cbn [import_lines]. rewrite rstrip_newline_line.
  2:{ rewrite !contains_app. cbn [contains]. rewrite Hnl, Hnl'.
      destruct (Hprefix newline) as [-> | ?]; done. }
  rewrite <- string_app_assoc. rewrite split_space_1_pair.
  2:{ rewrite contains_app, Hsp.
      destruct (Hprefix " "%char) as [-> | ?]; done. }
  rewrite strip_colon_written by done. cbn [fmap list_fmap foldl]. by rewrite IH.
Qed.

(** X2. [import_marks] reads a file of lines [mark revid], each with or
    without a colon before the mark, as the mapping of each mark to the
    identifier of the last line that names it. *)
Theorem import_marks_last_line_wins (filename : string)
    (entries : list (bool * string * string)) (e : MarksEnv) :
  filename ∉ fs_unreadable (fs e) →
  fs_files (fs e) !! filename = Some (marks_file_text entries) →
  Forall (λ '(colon, mark, revid), reads_as colon mark revid) entries →
  import_marks filename e =
    (Return (Some (list_to_map
       (reverse ((λ '(_, mark, revid), (mark, revid)) <$> entries)))), e).
Proof.
  intros Hr Hfile Hfit. unfold import_marks, file_open_read.
  rewrite bool_decide_eq_false_2 by done. rewrite Hfile.
  rewrite import_lines_marks_file_text by done.
  by rewrite foldl_insert_list_to_map.
Qed.

Lemma import_marks_last_line_wins_witness :
  let entries := [(true, "1", "rev-a"); (false, "2", "rev-b"); (true, "1", "rev-c")] in
  let e := with_file "marks" (marks_file_text entries) empty_env in
  import_marks "marks" e = (Return (Some {[ "1" := "rev-c"; "2" := "rev-b" ]}), e).
Proof.
  cbv zeta.
  rewrite (import_marks_last_line_wins "marks"
    [(true, "1", "rev-a"); (false, "2", "rev-b"); (true, "1", "rev-c")]).
  - by vm_compute.
  - vm_compute. set_solver.
  - reflexivity.
  - apply (bool_decide_unpack _). by vm_compute.
Defined.

Lemma rstrip_newline_id (s : string) :
  contains newline s = false → rstrip_newline s = s.
Proof.
  induction s as [|c s IH]; [done|]. cbn [contains rstrip_newline].
  intros Hs. apply orb_false_iff in Hs as [Hc Hs].
  apply bool_decide_eq_false in Hc. rewrite IH by done.
  rewrite bool_decide_eq_false_2; [done|]. by intros [? _].
Qed.

Lemma file_lines_last_line (content : string) (x : ascii) :
  x ≠ newline →
  ∃ init a,
    contains newline a = false ∧
    file_lines (content +:+ String x "") = init ++ [a] ∧
    file_lines (content +:+ String x (String newline "")) =
      init ++ [a +:+ String newline ""].
Proof.
  intros Hx. induction content as [|c content IH].
  - exists [], (String x ""). rewrite !string_app_nil_l. cbn [file_lines contains].
    rewrite !(bool_decide_eq_false_2 (x = newline)) by done.
    by rewrite bool_decide_eq_true_2.
  - destruct IH as (init & a & Ha & E1 & E2).
    rewrite !string_app_cons. cbn [file_lines]. rewrite E1, E2.
    destruct (bool_decide (c = newline)) eqn:Hc.
    + by exists (String c "" :: init), a.
    + destruct init as [|l init]; cbn [app].
      * exists [], (String c a). cbn [contains]. by rewrite Hc, Ha.
      * by exists (String c l :: init), a.
Qed.

Lemma import_lines_last init l l' acc :
  rstrip_newline l = rstrip_newline l' →
  import_lines (init ++ [l]) acc = import_lines (init ++ [l']) acc.
Proof.
  intros Hl. revert acc. induction init as [|line init IH]; intros acc.
  - cbn [app import_lines]. by rewrite Hl.
  - cbn [app import_lines].
    destruct (split_space_1 (rstrip_newline line)) as [|? [|? [|? ?]]]; by rewrite ?IH.
Qed.

(** X3. The newline at the end of a marks file is optional: [import_marks]
    reads a file whose last line is not terminated as it reads the file with
    the newline added. *)
Theorem import_marks_final_newline_is_optional (filename content : string)
    (x : ascii) (e : MarksEnv) :
  x ≠ newline →
  (import_marks filename
     (with_file filename (content +:+ String x "") e)).1 =
  (import_marks filename
     (with_file filename (content +:+ String x (String newline "")) e)).1.
Proof.
  intros Hx. unfold import_marks, file_open_read, with_file.
  cbn [fs fs_unreadable fs_files].
  destruct (bool_decide (filename ∈ fs_unreadable (fs e))); [done|].
  rewrite !lookup_insert_eq.
  destruct (file_lines_last_line content x Hx) as (init & a & Ha & -> & ->).
  rewrite (import_lines_last init a (a +:+ String newline "")).
  - by destruct (import_lines _ _).
  - by rewrite rstrip_newline_line, rstrip_newline_id.
Qed.

Lemma import_marks_final_newline_is_optional_witness :
  (import_marks "marks" (with_file "marks" ":1 rev-a" empty_env)).1 =
  (import_marks "marks"
     (with_file "marks" (":1 rev-" +:+ String "a" (String newline "")) empty_env)).1.
Proof.
  apply (import_marks_final_newline_is_optional "marks" ":1 rev-" "a" empty_env).
  by vm_compute.
Defined.

Lemma export_marks_run `{DictOrder} (filename : string)
    (m : gmap string string) (e : MarksEnv) :
  filename ∉ fs_unwritable (fs e) →
  export_marks filename m e =
    (Return tt, with_file filename (marks_text (dict_items m)) e).
Proof.
  intros Hw. unfold export_marks, file_open_write, with_file.
  rewrite bool_decide_eq_false_2 by done. rewrite export_lines_run.
  destruct (dict_items m) as [|i items]; [done|].
  cbn [fs fs_files fs_unreadable fs_unwritable logged].
  rewrite lookup_insert_eq, insert_insert_eq. cbn [from_option]. unfold id.
  by rewrite string_app_nil_l.
Qed.

(** X4. [export_marks] to a path that can be written leaves in the file one
    line [:mark revid] for each entry of the mapping, in the order of the
    dictionary, and nothing of what the file held before; it changes no other
    file and logs nothing. *)
Theorem export_marks_replaces_the_file `{DictOrder} (filename : string)
    (m : gmap string string) (e : MarksEnv) :
  filename ∉ fs_unwritable (fs e) →
  export_marks filename m e =
    (Return tt, with_file filename (marks_text (dict_items m)) e).
Proof. apply export_marks_run. Qed.

Lemma export_marks_replaces_the_file_witness :
  export_marks "marks" {[ "1" := "rev-a" ]}
    (with_file "marks" "what the file held" empty_env) =
  (Return tt,
   with_file "marks" (":1 rev-a" +:+ String newline "") empty_env).
Proof.
  rewrite (export_marks_replaces_the_file "marks" {[ "1" := "rev-a" ]}).
  - by vm_compute.
  - vm_compute. set_solver.
Defined.

Lemma file_lines_shape (content : string) :
  Forall (λ line, contains newline (rstrip_newline line) = false)
    (file_lines content).
Proof.
  assert (Hshape : Forall (λ line, ∃ a, contains newline a = false ∧
            (line = a ∨ line = a +:+ String newline "")) (file_lines content)).
  { induction content as [|c content IH]; [constructor|]. cbn [file_lines].
    destruct (bool_decide (c = newline)) eqn:Hc.
    - apply bool_decide_eq_true in Hc as ->. constructor; [|done].
      exists "". split; [done|]. by right.
    - destruct (file_lines content) as [|line lines].
      + constructor; [|done]. exists (String c ""). cbn [contains].
        rewrite Hc. split; [done|]. by left.
      + apply Forall_cons in IH as [(a & Ha & Hline) IH]. constructor; [|done].
        exists (String c a). cbn [contains]. rewrite Hc, Ha. split; [done|].
        destruct Hline as [-> | ->]; [by left|by right]. }
  eapply Forall_impl; [exact Hshape|]. intros line (a & Ha & [-> | ->]).
  - by rewrite rstrip_newline_id.
  - by rewrite rstrip_newline_line.
Qed.

Lemma contains_strip_colon c mark :
  contains c mark = false → contains c (strip_colon mark) = false.
Proof.
  destruct mark as [|x mark]; [done|]. unfold strip_colon.
  destruct (Ascii.eqb_spec x ":"%char) as [-> | Hne].
  - cbn [contains]. intros Hc. by apply orb_false_iff in Hc as [_ Hc].
  - assert (Hkeep : match x with
                    | ":"%char => mark
                    | _ => String x mark
                    end = String x mark); [|by rewrite Hkeep].
    destruct x as [[] [] [] [] [] [] [] []]; done.
Qed.

Lemma import_lines_fits lines acc m :
  Forall (λ line, contains newline (rstrip_newline line) = false) lines →
  map_Forall fits_one_line acc →
  import_lines lines acc = Return m →
  map_Forall fits_one_line m.
Proof.
  revert acc. induction lines as [|line lines IH]; intros acc Hlines Hacc.
  - by intros [= <-].
  - apply Forall_cons in Hlines as [Hline Hlines]. cbn [import_lines].
    destruct (contains " " (rstrip_newline line)) eqn:Hsp.
    + destruct (split_space_1_space _ Hsp) as (a & b & -> & Hab & Ha).
      apply IH; [done|]. apply map_Forall_insert_2; [|done].
      rewrite Hab, contains_app in Hline. cbn [contains] in Hline.
      apply orb_false_iff in Hline as [Hnla Hnlb].
      apply orb_false_iff in Hnlb as [_ Hnlb].
      split; [by apply contains_strip_colon|].
      split; [by apply contains_strip_colon|done].
    + by rewrite split_space_1_no_space.
Qed.

Lemma export_then_import `{DictOrder} (filename : string)
    (m : gmap string string) (e : MarksEnv) :
  filename ∉ fs_unwritable (fs e) →
  filename ∉ fs_unreadable (fs e) →
  map_Forall fits_one_line m →
  ∃ e1, export_marks filename m e = (Return tt, e1) ∧
        import_marks filename e1 = (Return (Some m), e1).
Proof.
  intros Hw Hr Hfit. rewrite export_marks_run by done.
  eexists. split; [reflexivity|].
  assert (Hitems : Forall (λ '(mark, revid), fits_one_line mark revid) (dict_items m)).
  { apply Forall_forall. intros [mark revid] Hin.
    rewrite (dict_items_perm m) in Hin. apply elem_of_map_to_list in Hin.
    by apply Hfit. }
  assert (Hm : foldl (λ acc '(mark, revid), <[mark := revid]> acc) ∅ (dict_items m) = m).
  { rewrite foldl_insert_list_to_map.
    rewrite <- (list_to_map_to_list m) at 2.
    apply list_to_map_proper.
    - rewrite fmap_reverse, reverse_Permutation, (dict_items_perm m).
      apply NoDup_fst_map_to_list.
    - rewrite reverse_Permutation. apply dict_items_perm. }
  unfold import_marks, file_open_read, with_file.
  cbn [fs fs_unreadable fs_files].
  rewrite bool_decide_eq_false_2 by done. rewrite lookup_insert_eq.
  rewrite import_lines_marks_text by done. by rewrite Hm.
Qed.

(** X5. A mapping that [import_marks] has read from a file is written by
    [export_marks] and read back as it is: the marks and identifiers that
    come out of a marks file always fit on a line of one. *)
Theorem imported_marks_round_trip `{DictOrder} (source target : string)
    (m : gmap string string) (e : MarksEnv) :
  import_marks source e = (Return (Some m), e) →
  target ∉ fs_unwritable (fs e) →
  target ∉ fs_unreadable (fs e) →
  ∃ e1, export_marks target m e = (Return tt, e1) ∧
        import_marks target e1 = (Return (Some m), e1).
Proof.
  intros Himport Hw Hr. apply export_then_import; [done..|].
  revert Himport. unfold import_marks, file_open_read.
  destruct (bool_decide (source ∈ fs_unreadable (fs e))); [done|].
  destruct (fs_files (fs e) !! source) as [content|]; [|done].
  destruct (import_lines (file_lines content) ∅) as [m'|] eqn:Hlines; [|done].
  intros [= ->]. eapply import_lines_fits; [apply file_lines_shape| |done].
  apply map_Forall_empty.
Qed.

Lemma imported_marks_round_trip_witness :
  let e := with_file "old" ("1 a b" +:+ String newline "::2 c") empty_env in
  ∃ e1, export_marks "new" {[ "1" := "a b"; ":2" := "c" ]} e = (Return tt, e1) ∧
        import_marks "new" e1 = (Return (Some {[ "1" := "a b"; ":2" := "c" ]}), e1).
Proof.
  cbv zeta.
  apply (imported_marks_round_trip "old" "new" {[ "1" := "a b"; ":2" := "c" ]}
           (with_file "old" ("1 a b" +:+ String newline "::2 c") empty_env)).
  - by vm_compute.
  - vm_compute. set_solver.
  - vm_compute. set_solver.
Defined.

(** * Further properties of the informational pass *)

Lemma preserves_bind {S A B} (I : S → Prop) (m : St S A) (k : A → St S B) :
  preserves I m → (∀ a, preserves I (k a)) → preserves I (m ≫= k).
Proof.
  intros Hm Hk s Hs. unfold mbind, St_bind. specialize (Hm s Hs).
  destruct (m s) as [[a|e] s1]; [by apply Hk|done].
Qed.

Lemma preserves_mret {S A} (I : S → Prop) (a : A) : preserves I (mret a : St S A).
Proof. by intros s Hs. Qed.

Lemma preserves_raise {S A} (I : S → Prop) e : preserves I (raise e : St S A).
Proof. by intros s Hs. Qed.

Lemma preserves_update {S} (I : S → Prop) (f : S → S) :
  (∀ s, I s → I (f s)) → preserves I (update f).
Proof. intros Hf s Hs. by apply Hf. Qed.

Lemma preserves_count_cmd (I : InfoProcessor → Prop) name :
  (∀ s v, I s → I (with_cmd_counts v s)) → preserves I (count_cmd name).
Proof.
  intros HI s Hs. unfold count_cmd. destruct (dict_incr _ _); [by apply HI|done].
Qed.

Lemma preserves_count_file_cmd (I : InfoProcessor → Prop) name :
  (∀ s v, I s → I (with_file_cmd_counts v s)) → preserves I (count_file_cmd name).
Proof.
  intros HI s Hs. unfold count_file_cmd. destruct (dict_incr _ _); [by apply HI|done].
Qed.

Lemma preserves_on_cache_mgr {A} (I : InfoProcessor → Prop) (m : St CacheManager A) :
  (∀ s v, I s → I (with_cache_mgr v s)) → preserves I (on_cache_mgr m).
Proof.
  intros HI s Hs. unfold on_cache_mgr. destruct (m (cache_mgr s)). by apply HI.
Qed.

(** The steps of a handler that do not touch what [I] reads. *)
Ltac preserves_frame :=
  repeat first
    [ apply preserves_mret
    | apply preserves_raise
    | apply preserves_count_cmd; intros ? ? Hinv; exact Hinv
    | apply preserves_count_file_cmd; intros ? ? Hinv; exact Hinv
    | apply preserves_on_cache_mgr; intros ? ? Hinv; exact Hinv
    | apply preserves_update; intros ? Hinv; exact Hinv
    | apply preserves_bind; [|intros ?] ].

Section info_pass_facts.
Context (COMMAND_NAMES FILE_COMMAND_NAMES : list string) (SYMLINK_KIND : string).

Lemma count_cmd_run name s :
  count_cmd name s =
    match cmd_counts s !! name with
    | Some n => (Return tt, with_cmd_counts (<[name := n + 1]> (cmd_counts s)) s)
    | None => (Raise KeyError, s)
    end.
Proof. unfold count_cmd, dict_incr. by destruct (cmd_counts s !! name). Qed.

Lemma count_file_cmd_run name s :
  count_file_cmd name s =
    match file_cmd_counts s !! name with
    | Some n =>
        (Return tt, with_file_cmd_counts (<[name := n + 1]> (file_cmd_counts s)) s)
    | None => (Raise KeyError, s)
    end.
Proof. unfold count_file_cmd, dict_incr. by destruct (file_cmd_counts s !! name). Qed.

Lemma _track_blob_frame mark s r s' :
  _track_blob mark s = (r, s') → file_cmd_frame s s'.
Proof.
  unfold file_cmd_frame, _track_blob, update. intros [= <- <-].
  destruct (blob_ref_counts s !! mark); [done|].
  destruct (bool_decide (mark ∈ blobs_used (blobs s))); [done|].
  by destruct (bool_decide (mark ∈ blobs_new (blobs s))).
Qed.

Lemma file_cmd_handler_frame cmd fc s r s' :
  file_cmd_handler SYMLINK_KIND cmd fc s = (r, s') → file_cmd_frame s s'.
Proof.
  destruct fc as [name ex kind dataref|name p|name p|name|name];
    cbn [file_cmd_handler]; unfold mbind, St_bind;
    rewrite count_file_cmd_run;
    destruct (file_cmd_counts s !! name); try (by intros [= <- <-]).
  set (s1 := with_file_cmd_counts _ s).
  assert (H1 : file_cmd_frame s s1) by done. clearbody s1.
  destruct ex; unfold update, mret, St_ret;
    destruct (bool_decide (kind = SYMLINK_KIND));
    (destruct dataref as [[|c d]|]; [by intros [= <- <-]| |by intros [= <- <-]]);
    (destruct (bool_decide (c = ":"%char)); [|by intros [= <- <-]]);
    intros Hrun; apply _track_blob_frame in Hrun;
    unfold file_cmd_frame in *; cbn in Hrun; intuition congruence.
Qed.

Lemma file_cmds_handler_frame cmd fcs s r s' :
  file_cmds_handler SYMLINK_KIND cmd fcs s = (r, s') → file_cmd_frame s s'.
Proof.
  revert s. induction fcs as [|fc fcs IH]; intros s; cbn [file_cmds_handler].
  - by intros [= <- <-].
  - unfold mbind, St_bind.
    destruct (file_cmd_handler SYMLINK_KIND cmd fc s) as [[[]|e] s1] eqn:H1.
    + intros Hrun. apply file_cmd_handler_frame in H1. apply IH in Hrun.
      unfold file_cmd_frame in *. intuition congruence.
    + intros [= <- <-]. by eapply file_cmd_handler_frame.
Qed.

Lemma file_cmd_handler_counts cmd fc s s' :
  file_cmd_handler SYMLINK_KIND cmd fc s = (Return tt, s') →
  ∃ n, file_cmd_counts s !! file_cmd_name fc = Some n ∧
       file_cmd_counts s' = <[file_cmd_name fc := n + 1]> (file_cmd_counts s).
Proof.
  destruct fc as [name ex kind dataref|name p|name p|name|name];
    cbn [file_cmd_handler file_cmd_name]; unfold mbind, St_bind;
    rewrite count_file_cmd_run;
    destruct (file_cmd_counts s !! name) as [n|]; try done;
    try (intros [= <-]; by exists n).
  set (s1 := with_file_cmd_counts _ s).
  assert (H1 : file_cmd_counts s1 = <[name := n + 1]> (file_cmd_counts s)) by done.
  clearbody s1. intros Hrun. exists n. split; [done|]. revert Hrun.
  destruct ex; unfold update, mret, St_ret;
    destruct (bool_decide (kind = SYMLINK_KIND));
    (destruct dataref as [[|c d]|]; [done| |by intros [= <-]]);
    (destruct (bool_decide (c = ":"%char)); [|by intros [= <-]]);
    unfold _track_blob, update; intros [= <-];
    (destruct (blob_ref_counts s1 !! String c d); [done|]);
    (destruct (bool_decide (String c d ∈ blobs_used (blobs s1))); [done|]);
    by destruct (bool_decide (String c d ∈ blobs_new (blobs s1))).
Qed.

Lemma counted_up_refl (count : string → Z) d :
  (∀ name, count name = 0) → counted_up count d d.
Proof.
  intros Hc name. rewrite Hc. destruct (d !! name) as [n|]; [|done].
  cbn. f_equal. lia.
Qed.

Lemma counted_up_incr key n (d : gmap string Z) :
  d !! key = Some n →
  counted_up (λ name, if decide (key = name) then 1 else 0) d (<[key := n + 1]> d).
Proof.
  intros Hkey name. destruct (decide (key = name)) as [<-|Hne].
  - by rewrite lookup_insert_eq, Hkey.
  - rewrite lookup_insert_ne by done. destruct (d !! name); [|done].
    cbn. f_equal. lia.
Qed.

Lemma counted_up_trans c1 c2 c d1 d2 d3 :
  counted_up c1 d1 d2 → counted_up c2 d2 d3 →
  (∀ name, c name = c1 name + c2 name) → counted_up c d1 d3.
Proof.
  intros H1 H2 Hc name. rewrite H2, H1, Hc.
  destruct (d1 !! name); [|done]. cbn. f_equal. lia.
Qed.

Lemma count_where_cons {A} (P : A → Prop) `{∀ x, Decision (P x)} x l :
  count_where P (x :: l) = (if decide (P x) then 1 else 0) + count_where P l.
Proof.
  unfold count_where. rewrite filter_cons. destruct (decide (P x)); cbn [length]; lia.
Qed.

Lemma count_where_app {A} (P : A → Prop) `{∀ x, Decision (P x)} l1 l2 :
  count_where P (l1 ++ l2) = count_where P l1 + count_where P l2.
Proof. unfold count_where. rewrite filter_app, length_app. lia. Qed.

Lemma file_cmds_handler_counts cmd fcs s s' :
  file_cmds_handler SYMLINK_KIND cmd fcs s = (Return tt, s') →
  counted_up (λ name, count_where (λ fc, file_cmd_name fc = name) fcs)
    (file_cmd_counts s) (file_cmd_counts s').
Proof.
  revert s. induction fcs as [|fc fcs IH]; intros s; cbn [file_cmds_handler].
  - intros [= <-]. by apply counted_up_refl.
  - intros Hrun. apply bind_Return in Hrun as ([] & s1 & H1 & Hrun).
    apply file_cmd_handler_counts in H1 as (n & Hn & H1).
    eapply counted_up_trans; [|by apply IH|].
    + rewrite H1. by apply counted_up_incr.
    + intros name. cbn beta. rewrite count_where_cons.
      destruct (decide (file_cmd_name fc = name)); done.
Qed.

Lemma file_cmd_handler_flags cmd fc s s' :
  file_cmd_handler SYMLINK_KIND cmd fc s = (Return tt, s') →
  executables_found s' = executables_found s || is_executable_cmd fc ∧
  symlinks_found s' = symlinks_found s || is_symlink_cmd SYMLINK_KIND fc ∧
  sha_blob_references s' = sha_blob_references s || refers_by_sha fc.
Proof.
  destruct fc as [name ex kind dataref|name p|name p|name|name];
    cbn [file_cmd_handler is_executable_cmd is_symlink_cmd refers_by_sha];
    unfold mbind, St_bind; rewrite count_file_cmd_run;
    destruct (file_cmd_counts s !! name) as [n|]; try done;
    try (intros [= <-]; cbn; by rewrite !orb_false_r).
  set (s1 := with_file_cmd_counts _ s).
  assert (H1 : executables_found s1 = executables_found s ∧
               symlinks_found s1 = symlinks_found s ∧
               sha_blob_references s1 = sha_blob_references s) by done.
  clearbody s1. destruct H1 as (<- & <- & <-).
  destruct ex; unfold update, mret, St_ret;
    destruct (bool_decide (kind = SYMLINK_KIND));
    (destruct dataref as [[|c d]|];
       [done| |intros [= <-]; cbn; by rewrite ?orb_true_r, ?orb_false_r]);
    (destruct (bool_decide (c = ":"%char)) eqn:Hc;
       [rewrite bool_decide_eq_false_2
          by (apply bool_decide_eq_true in Hc; by intros [])
       |rewrite bool_decide_eq_true_2 by (by apply bool_decide_eq_false in Hc);
        intros [= <-]; cbn; by rewrite ?orb_true_r, ?orb_false_r]);
    unfold _track_blob, update; intros [= <-];
    (destruct (blob_ref_counts s1 !! String c d);
       [cbn; by rewrite ?orb_true_r, ?orb_false_r|]);
    (destruct (bool_decide (String c d ∈ blobs_used (blobs s1)));
       [cbn; by rewrite ?orb_true_r, ?orb_false_r|]);
    destruct (bool_decide (String c d ∈ blobs_new (blobs s1)));
    cbn; by rewrite ?orb_true_r, ?orb_false_r.
Qed.

Lemma file_cmds_handler_flags cmd fcs s s' :
  file_cmds_handler SYMLINK_KIND cmd fcs s = (Return tt, s') →
  executables_found s' = executables_found s || existsb is_executable_cmd fcs ∧
  symlinks_found s' = symlinks_found s || existsb (is_symlink_cmd SYMLINK_KIND) fcs ∧
  sha_blob_references s' = sha_blob_references s || existsb refers_by_sha fcs.
Proof.
  revert s. induction fcs as [|fc fcs IH]; intros s; cbn [file_cmds_handler existsb].
  - intros [= <-]. by rewrite !orb_false_r.
  - intros Hrun. apply bind_Return in Hrun as ([] & s1 & H1 & Hrun).
    apply file_cmd_handler_flags in H1 as (E1 & E2 & E3).
    apply IH in Hrun as (-> & -> & ->). rewrite E1, E2, E3.
    by rewrite !orb_assoc.
Qed.

(** The steps of [commit_handler] when it returns. *)
Lemma commit_handler_Return cmd s s' :
  commit_handler SYMLINK_KIND cmd s = (Return tt, s') →
  ∃ n s1 s2 s3,
    cmd_counts s !! commit_name cmd = Some n ∧
    s1 = (if commit_author cmd is Some _ then with_separate_authors_found true
          else λ s, s)
           (with_committers (committers s ∪ {[commit_committer cmd]})
              (with_cmd_counts (<[commit_name cmd := n + 1]> (cmd_counts s)) s)) ∧
    file_cmds_handler SYMLINK_KIND cmd (commit_file_iter cmd) s1 = (Return tt, s2) ∧
    s3 = with_cache_mgr (track_heads cmd (cache_mgr s2)).2 s2 ∧
    s' = with_merges (foldl count_merge (merges s2) (commit_merges cmd))
           (let parent_count :=
              Z.of_nat (length (true_parents cmd (cache_mgr s2))) in
            match parent_counts s3 !! parent_count with
            | Some k =>
                with_parent_counts (<[parent_count := k + 1]> (parent_counts s3)) s3
            | None =>
                let s4 :=
                  with_parent_counts (<[parent_count := 1]> (parent_counts s3)) s3 in
                if bool_decide (max_parent_count s4 < parent_count)
                then with_max_parent_count parent_count s4 else s4
            end).
Proof.
  unfold commit_handler. intros Hrun.
  apply bind_Return in Hrun as ([] & s0 & H0 & Hrun).
  rewrite count_cmd_run in H0.
  destruct (cmd_counts s !! commit_name cmd) as [n|]; [|done].
  injection H0 as <-.
  apply bind_Return in Hrun as ([] & s0' & H0 & Hrun). injection H0 as <-.
  apply bind_Return in Hrun as ([] & s1 & H1 & Hrun).
  apply bind_Return in Hrun as ([] & s2 & H2 & Hrun).
  apply bind_Return in Hrun as (parents & s3 & H3 & Hrun).
  apply bind_Return in Hrun as ([] & s4 & H4 & Hrun).
  exists n, s1, s2, s3. split; [done|].
  assert (E1 : s1 = (if commit_author cmd is Some _
                     then with_separate_authors_found true else λ s, s)
           (with_committers (committers s ∪ {[commit_committer cmd]})
              (with_cmd_counts (<[commit_name cmd := n + 1]> (cmd_counts s)) s))).
  { destruct (commit_author cmd); by injection H1 as <-. }
  split; [done|]. split; [done|].
  unfold on_cache_mgr in H3.
  destruct (track_heads_run cmd (cache_mgr s2)) as (m' & Hm' & _).
  rewrite Hm' in H3. injection H3 as <- <-.
  rewrite Hm'. cbn [snd]. split; [done|].
  unfold update in H4, Hrun. injection H4 as <-. injection Hrun as <-.
  f_equal. destruct (parent_counts _ !! _); [done|].
  by destruct (bool_decide _).
Qed.

Lemma handle_cmd_counts cmd s s' :
  handle SYMLINK_KIND cmd s = (Return tt, s') →
  ∃ n, cmd_counts s !! cmd_name cmd = Some n ∧
       cmd_counts s' = <[cmd_name cmd := n + 1]> (cmd_counts s).
Proof.
  destruct cmd as [b|c|r|name|name|name|name feature]; cbn [handle cmd_name].
  - unfold blob_handler, mbind, St_bind, update. rewrite count_cmd_run.
    destruct (cmd_counts s !! blob_name b) as [n|]; [|done].
    intros [= <-]. exists n. by destruct (blob_mark b).
  - intros Hrun.
    apply commit_handler_Return in Hrun as (n & s1 & s2 & s3 & Hn & -> & H2 & -> & ->).
    exists n. split; [done|].
    apply file_cmds_handler_frame in H2 as (E & _).
    cbn. destruct (parent_counts s2 !! _); cbn.
    + rewrite E. by destruct (commit_author c).
    + destruct (bool_decide _); cbn; rewrite E; by destruct (commit_author c).
  - unfold reset_handler, mbind, St_bind, update. rewrite count_cmd_run.
    destruct (cmd_counts s !! reset_name r) as [n|]; [|done].
    destruct (String.prefix _ _); [intros [= <-]; by exists n|].
    destruct (reset_from_ r); [|intros [= <-]; by exists n].
    unfold on_cache_mgr. destruct (track_heads_for_ref _ _ _ _) as [r5 c5].
    intros [= _ <-]. by exists n.
  - rewrite count_cmd_run. destruct (cmd_counts s !! name) as [n|]; [|done].
    intros [= <-]. by exists n.
  - rewrite count_cmd_run. destruct (cmd_counts s !! name) as [n|]; [|done].
    intros [= <-]. by exists n.
  - rewrite count_cmd_run. destruct (cmd_counts s !! name) as [n|]; [|done].
    intros [= <-]. by exists n.
  - unfold feature_handler, mbind, St_bind, update. rewrite count_cmd_run.
    destruct (cmd_counts s !! name) as [n|]; [|done].
    intros [= <-]. by exists n.
Qed.

Lemma _track_blob_usage mark : preserves usage_ok (_track_blob mark).
Proof.
  apply preserves_update. intros s [Hnew Hcount]. cbv beta zeta.
  destruct (blob_ref_counts s !! mark) as [n|] eqn:Hn.
  - split; [done|]. cbn. intros mark' n'.
    destruct (decide (mark' = mark)) as [->|Hne].
    + rewrite lookup_insert_eq. intros [= <-].
      destruct (Hcount _ _ Hn). split; [lia|done].
    + rewrite lookup_insert_ne by done. apply Hcount.
  - destruct (bool_decide (mark ∈ blobs_used (blobs s))) eqn:Hu.
    + split; cbn.
      * intros mark' Hin. specialize (Hnew _ Hin). set_solver.
      * intros mark' n'. destruct (decide (mark' = mark)) as [->|Hne].
        -- rewrite lookup_insert_eq. intros [= <-]. split; [lia|set_solver].
        -- rewrite lookup_insert_ne by done. intros Hc.
           destruct (Hcount _ _ Hc). split; [done|set_solver].
    + apply bool_decide_eq_false in Hu.
      destruct (bool_decide (mark ∈ blobs_new (blobs s))); split; cbn.
      * intros mark' Hin. assert (mark' ∈ blobs_new (blobs s)) as Hin' by set_solver.
        specialize (Hnew _ Hin'). set_solver.
      * intros mark' n' Hc. destruct (Hcount _ _ Hc). split; [done|].
        assert (mark' ≠ mark) by congruence. set_solver.
      * done.
      * done.
Qed.

Lemma file_cmds_handler_usage cmd fcs :
  preserves usage_ok (file_cmds_handler SYMLINK_KIND cmd fcs).
Proof.
  induction fcs as [|fc fcs IH]; cbn [file_cmds_handler]; [by apply preserves_mret|].
  apply preserves_bind; [|done].
  destruct fc as [name ex kind dataref|name p|name p|name|name];
    cbn [file_cmd_handler]; try by preserves_frame.
  apply preserves_bind; [by preserves_frame|intros ?].
  apply preserves_bind; [destruct ex; by preserves_frame|intros ?].
  apply preserves_bind;
    [destruct (bool_decide (kind = SYMLINK_KIND)); by preserves_frame|intros ?].
  destruct dataref as [[|c d]|]; [by preserves_frame| |by preserves_frame].
  destruct (bool_decide (c = ":"%char)); [apply _track_blob_usage|by preserves_frame].
Qed.

Lemma handle_usage cmd : preserves usage_ok (handle SYMLINK_KIND cmd).
Proof.
  destruct cmd as [b|c|r|name|name|name|name feature]; cbn [handle].
  - unfold blob_handler. apply preserves_bind; [by preserves_frame|intros ?].
    apply preserves_update. intros s [Hnew Hcount]. cbv beta zeta.
    destruct (blob_mark b); split; cbn; try done.
    + intros mark Hin. set_solver.
    + intros mark n Hc. destruct (Hcount _ _ Hc). split; [done|set_solver].
  - unfold commit_handler.
    apply preserves_bind; [by preserves_frame|intros ?].
    apply preserves_bind; [by preserves_frame|intros ?].
    apply preserves_bind; [destruct (commit_author c); by preserves_frame|intros ?].
    apply preserves_bind; [apply file_cmds_handler_usage|intros ?].
    apply preserves_bind; [by preserves_frame|intros ?].
    apply preserves_bind; [|by preserves_frame].
    apply preserves_update. intros s Hinv.
    destruct (parent_counts s !! _); [exact Hinv|].
    destruct (bool_decide _); exact Hinv.
  - unfold reset_handler. apply preserves_bind; [by preserves_frame|intros ?].
    destruct (String.prefix _ _); [by preserves_frame|].
    destruct (reset_from_ r); by preserves_frame.
  - by preserves_frame.
  - by preserves_frame.
  - by preserves_frame.
  - unfold feature_handler. by preserves_frame.
Qed.

Lemma handle_all_preserves (I : InfoProcessor → Prop) cmds :
  (∀ cmd, preserves I (handle SYMLINK_KIND cmd)) →
  preserves I (handle_all SYMLINK_KIND cmds).
Proof.
  intros Hstep. induction cmds as [|cmd cmds IH]; cbn [handle_all].
  - apply preserves_mret.
  - by apply preserves_bind.
Qed.

Lemma handle_parent_counts cmd : preserves parent_counts_ok (handle SYMLINK_KIND cmd).
Proof.
  destruct cmd as [b|c|r|name|name|name|name feature]; cbn [handle].
  - unfold blob_handler. apply preserves_bind; [by preserves_frame|intros ?].
    apply preserves_update. intros s Hinv. by destruct (blob_mark b).
  - unfold commit_handler.
    apply preserves_bind; [by preserves_frame|intros ?].
    apply preserves_bind; [by preserves_frame|intros ?].
    apply preserves_bind; [destruct (commit_author c); by preserves_frame|intros ?].
    apply preserves_bind.
    { intros s Hinv.
      destruct (file_cmds_handler SYMLINK_KIND c (commit_file_iter c) s)
        as [r s'] eqn:Hrun.
      apply file_cmds_handler_frame in Hrun as (_ & Hp & Hm & _).
      unfold parent_counts_ok. cbn [snd]. by rewrite Hp, Hm. }
    intros ?. apply preserves_bind; [by preserves_frame|intros parents].
    apply preserves_bind; [|by preserves_frame].
    apply preserves_update. intros s [Hkeys Hmax].
    set (k := Z.of_nat (length parents)). assert (0 ≤ k) by lia. clearbody k.
    destruct (parent_counts s !! k) as [n|] eqn:Hk.
    + destruct (Hkeys _ _ Hk) as [Hk1 Hn1]. split; cbn.
      * intros k' n'. destruct (decide (k' = k)) as [->|Hne].
        -- rewrite lookup_insert_eq. intros [= <-]. lia.
        -- rewrite lookup_insert_ne by done. apply Hkeys.
      * right. destruct Hmax as [[Hempty _]|Hmax].
        -- by rewrite Hempty, lookup_empty in Hk.
        -- destruct (decide (max_parent_count s = k)) as [->|Hne].
           ++ by rewrite lookup_insert_eq.
           ++ by rewrite lookup_insert_ne.
    + cbn. destruct (bool_decide (max_parent_count s < k)) eqn:Hlt.
      * apply bool_decide_eq_true in Hlt. split; cbn.
        -- intros k' n'. destruct (decide (k' = k)) as [->|Hne].
           ++ rewrite lookup_insert_eq. intros [= <-]. lia.
           ++ rewrite lookup_insert_ne by done. intros Hk'.
              destruct (Hkeys _ _ Hk'). lia.
        -- right. by rewrite lookup_insert_eq.
      * apply bool_decide_eq_false in Hlt. split; cbn.
        -- intros k' n'. destruct (decide (k' = k)) as [->|Hne].
           ++ rewrite lookup_insert_eq. intros [= <-]. lia.
           ++ rewrite lookup_insert_ne by done. apply Hkeys.
        -- right. destruct Hmax as [[_ Hzero]|Hmax].
           ++ assert (k = max_parent_count s) as -> by lia.
              by rewrite lookup_insert_eq.
           ++ destruct (decide (max_parent_count s = k)) as [->|Hne].
              ** by rewrite lookup_insert_eq.
              ** by rewrite lookup_insert_ne.
  - unfold reset_handler. apply preserves_bind; [by preserves_frame|intros ?].
    destruct (String.prefix _ _); [by preserves_frame|].
    destruct (reset_from_ r); by preserves_frame.
  - by preserves_frame.
  - by preserves_frame.
  - by preserves_frame.
  - unfold feature_handler. by preserves_frame.
Qed.

Lemma total_count_insert {K} `{Countable K} (d : gmap K Z) k n :
  d !! k = None → total_count (<[k := n]> d) = n + total_count d.
Proof.
  intros Hk. unfold total_count.
  rewrite map_fold_insert_L; [done| |done]. intros. lia.
Qed.

Lemma total_count_incr {K} `{Countable K} (d : gmap K Z) k n :
  d !! k = Some n → total_count (<[k := n + 1]> d) = total_count d + 1.
Proof.
  intros Hk. rewrite <- insert_delete_eq.
  rewrite total_count_insert by apply lookup_delete_eq.
  unfold total_count at 2.
  rewrite (map_fold_delete_L _ _ k n d); [|intros; lia|done].
  fold (total_count (delete k d)). lia.
Qed.

(** What one command adds to the statistics when its handler returns. *)
Lemma handle_stats cmd s s' :
  handle SYMLINK_KIND cmd s = (Return tt, s') →
  counted_up
    (λ name, count_where (λ fc, file_cmd_name fc = name) (file_cmds_of cmd))
    (file_cmd_counts s) (file_cmd_counts s') ∧
  merges s' = foldl count_merge (merges s) (merges_of cmd) ∧
  lightweight_tags s' =
    lightweight_tags s + (if decide (tag_reset cmd) then 1 else 0) ∧
  separate_authors_found s' = separate_authors_found s || has_author cmd ∧
  executables_found s' =
    executables_found s || existsb is_executable_cmd (file_cmds_of cmd) ∧
  symlinks_found s' =
    symlinks_found s || existsb (is_symlink_cmd SYMLINK_KIND) (file_cmds_of cmd) ∧
  sha_blob_references s' =
    sha_blob_references s || existsb refers_by_sha (file_cmds_of cmd) ∧
  total_count (parent_counts s') =
    total_count (parent_counts s) + (if decide (is_commit cmd) then 1 else 0).
Proof.
  assert (Hsame : ∀ s1, file_cmd_counts s1 = file_cmd_counts s →
            merges s1 = merges s → lightweight_tags s1 = lightweight_tags s →
            separate_authors_found s1 = separate_authors_found s →
            executables_found s1 = executables_found s →
            symlinks_found s1 = symlinks_found s →
            sha_blob_references s1 = sha_blob_references s →
            parent_counts s1 = parent_counts s →
            counted_up (λ _, 0) (file_cmd_counts s) (file_cmd_counts s1) ∧
            merges s1 = merges s ∧ lightweight_tags s1 = lightweight_tags s + 0 ∧
            separate_authors_found s1 = separate_authors_found s || false ∧
            executables_found s1 = executables_found s || false ∧
            symlinks_found s1 = symlinks_found s || false ∧
            sha_blob_references s1 = sha_blob_references s || false ∧
            total_count (parent_counts s1) = total_count (parent_counts s) + 0).
  { intros s1 -> -> -> -> -> -> -> ->. rewrite !orb_false_r, !Z.add_0_r.
    split; [by apply counted_up_refl|done]. }
  destruct cmd as [b|c|r|name|name|name|name feature];
    cbn [handle file_cmds_of merges_of has_author existsb foldl].
  - unfold blob_handler, mbind, St_bind, update. rewrite count_cmd_run.
    destruct (cmd_counts s !! blob_name b) as [n|]; [|done].
    intros [= <-]. apply Hsame; by destruct (blob_mark b).
  - intros Hrun.
    apply commit_handler_Return in Hrun as (n & s1 & s2 & s3 & Hn & E1 & H2 & -> & ->).
    pose proof (file_cmds_handler_frame _ _ _ _ _ H2)
      as (_ & Hpc & _ & _ & Hauth & Htags & _ & Hmerges & _).
    pose proof (file_cmds_handler_counts _ _ _ _ H2) as Hcounts.
    pose proof (file_cmds_handler_flags _ _ _ _ H2) as (Hex & Hsym & Hsha).
    assert (Hs1 : file_cmd_counts s1 = file_cmd_counts s ∧ merges s1 = merges s ∧
                  lightweight_tags s1 = lightweight_tags s ∧
                  separate_authors_found s1 =
                    separate_authors_found s || bool_decide (is_Some (commit_author c)) ∧
                  executables_found s1 = executables_found s ∧
                  symlinks_found s1 = symlinks_found s ∧
                  sha_blob_references s1 = sha_blob_references s ∧
                  parent_counts s1 = parent_counts s).
    { rewrite E1. destruct (commit_author c); cbn;
        by rewrite ?orb_true_r, ?orb_false_r. }
    destruct Hs1 as (F1 & F2 & F3 & F4 & F5 & F6 & F7 & F8).
    rewrite F1 in Hcounts. rewrite F2 in Hmerges. rewrite F3 in Htags.
    rewrite F4 in Hauth. rewrite F5 in Hex. rewrite F6 in Hsym.
    rewrite F7 in Hsha. rewrite F8 in Hpc.
    set (k := Z.of_nat (length (true_parents c (cache_mgr s2)))).
    cbv zeta. fold k. cbn [parent_counts with_cache_mgr].
    assert (Hfields : ∀ s4,
      file_cmd_counts s4 = file_cmd_counts s2 →
      lightweight_tags s4 = lightweight_tags s2 →
      separate_authors_found s4 = separate_authors_found s2 →
      executables_found s4 = executables_found s2 →
      symlinks_found s4 = symlinks_found s2 →
      sha_blob_references s4 = sha_blob_references s2 →
      total_count (parent_counts s4) = total_count (parent_counts s2) + 1 →
      counted_up
        (λ name, count_where (λ fc, file_cmd_name fc = name) (commit_file_iter c))
        (file_cmd_counts s)
        (file_cmd_counts (with_merges (foldl count_merge (merges s2) (commit_merges c)) s4)) ∧
      merges (with_merges (foldl count_merge (merges s2) (commit_merges c)) s4) =
        foldl count_merge (merges s) (commit_merges c) ∧
      lightweight_tags (with_merges (foldl count_merge (merges s2) (commit_merges c)) s4) =
        lightweight_tags s + (if decide (tag_reset (Commit c)) then 1 else 0) ∧
      separate_authors_found (with_merges (foldl count_merge (merges s2) (commit_merges c)) s4) =
        separate_authors_found s || bool_decide (is_Some (commit_author c)) ∧
      executables_found (with_merges (foldl count_merge (merges s2) (commit_merges c)) s4) =
        executables_found s || existsb is_executable_cmd (commit_file_iter c) ∧
      symlinks_found (with_merges (foldl count_merge (merges s2) (commit_merges c)) s4) =
        symlinks_found s || existsb (is_symlink_cmd SYMLINK_KIND) (commit_file_iter c) ∧
      sha_blob_references (with_merges (foldl count_merge (merges s2) (commit_merges c)) s4) =
        sha_blob_references s || existsb refers_by_sha (commit_file_iter c) ∧
      total_count (parent_counts (with_merges (foldl count_merge (merges s2) (commit_merges c)) s4)) =
        total_count (parent_counts s) + (if decide (is_commit (Commit c)) then 1 else 0)).
    { intros s4 G1 G2 G3 G4 G5 G6 G7. cbn. rewrite G1, G2, G3, G4, G5, G6, G7.
      rewrite Hmerges, Htags, Hauth, Hex, Hsym, Hsha, Hpc.
      split; [done|]. split; [done|].
      split; [destruct (decide False); [done|lia]|].
      repeat (split; [done|]). by destruct (decide True). }
    destruct (parent_counts s2 !! k) as [n'|] eqn:Hk.
    + apply Hfields; try done. cbn. by apply total_count_incr.
    + destruct (bool_decide (_ < k)); apply Hfields; try done; cbn;
        rewrite total_count_insert by done; lia.
  - unfold reset_handler, mbind, St_bind, update. rewrite count_cmd_run.
    destruct (cmd_counts s !! reset_name r) as [n|]; [|done].
    destruct (decide (tag_reset (Reset r))) as [Ht|Ht]; cbn [tag_reset] in Ht.
    + rewrite Ht. intros [= <-]. cbn.
      rewrite !orb_false_r, Z.add_0_r. split; [by apply counted_up_refl|done].
    + apply not_true_is_false in Ht. rewrite Ht.
      destruct (reset_from_ r); [|intros [= <-]; by apply Hsame].
      unfold on_cache_mgr. destruct (track_heads_for_ref _ _ _ _) as [r5 c5].
      intros [= _ <-]. by apply Hsame.
  - rewrite count_cmd_run. destruct (cmd_counts s !! name) as [n|]; [|done].
    intros [= <-]. by apply Hsame.
  - rewrite count_cmd_run. destruct (cmd_counts s !! name) as [n|]; [|done].
    intros [= <-]. by apply Hsame.
  - rewrite count_cmd_run. destruct (cmd_counts s !! name) as [n|]; [|done].
    intros [= <-]. by apply Hsame.
  - unfold feature_handler, mbind, St_bind, update. rewrite count_cmd_run.
    destruct (cmd_counts s !! name) as [n|]; [|done].
    intros [= <-]. by apply Hsame.
Qed.

Lemma handle_all_stats cmds s s' :
  handle_all SYMLINK_KIND cmds s = (Return tt, s') →
  counted_up (λ name, count_where (λ cmd, cmd_name cmd = name) cmds)
    (cmd_counts s) (cmd_counts s') ∧
  counted_up
    (λ name, count_where (λ fc, file_cmd_name fc = name) (all_file_cmds cmds))
    (file_cmd_counts s) (file_cmd_counts s') ∧
  merges s' = foldl count_merge (merges s) (all_merges cmds) ∧
  lightweight_tags s' = lightweight_tags s + count_where tag_reset cmds ∧
  separate_authors_found s' = separate_authors_found s || existsb has_author cmds ∧
  executables_found s' =
    executables_found s || existsb is_executable_cmd (all_file_cmds cmds) ∧
  symlinks_found s' =
    symlinks_found s || existsb (is_symlink_cmd SYMLINK_KIND) (all_file_cmds cmds) ∧
  sha_blob_references s' =
    sha_blob_references s || existsb refers_by_sha (all_file_cmds cmds) ∧
  total_count (parent_counts s') =
    total_count (parent_counts s) + count_where is_commit cmds.
Proof.
  revert s. induction cmds as [|cmd cmds IH]; intros s; cbn [handle_all].
  - intros [= <-]. unfold all_file_cmds, all_merges, count_where. cbn.
    rewrite !orb_false_r, !Z.add_0_r.
    split; [by apply counted_up_refl|]. split; [by apply counted_up_refl|done].
  - intros Hrun. apply bind_Return in Hrun as ([] & s1 & H1 & Hrun).
    destruct (handle_cmd_counts _ _ _ H1) as (n & Hn & Hc).
    destruct (handle_stats _ _ _ H1) as (A2 & A3 & A4 & A5 & A6 & A7 & A8 & A9).
    destruct (IH _ Hrun) as (B1 & B2 & B3 & B4 & B5 & B6 & B7 & B8 & B9).
    unfold all_file_cmds, all_merges in *. cbn [fmap list_fmap concat existsb].
    rewrite !existsb_app, foldl_app.
    rewrite B3, B4, B5, B6, B7, B8, B9, A3, A4, A5, A6, A7, A8, A9.
    rewrite !orb_assoc.
    split.
    { eapply counted_up_trans; [|exact B1|].
      - rewrite Hc. by apply counted_up_incr.
      - intros name. cbn beta. rewrite count_where_cons.
        destruct (decide (cmd_name cmd = name)); done. }
    split.
    { eapply counted_up_trans; [exact A2|exact B2|].
      intros name. cbn beta. by rewrite count_where_app. }
    split; [done|].
    split; [rewrite count_where_cons; lia|].
    repeat (split; [done|]).
    rewrite count_where_cons. lia.
Qed.

Lemma lookup_zero_counts (names : list string) (name : string) :
  (list_to_map ((λ key, (key, 0)) <$> names) : gmap string Z) !! name =
    if decide (name ∈ names) then Some 0 else None.
Proof.
  destruct (decide (name ∈ names)) as [Hin|Hnin].
  - apply elem_of_list_to_map_1'.
    + intros y Hy. apply list_elem_of_fmap in Hy as (key & [= _ ->] & _). done.
    + apply list_elem_of_fmap. by exists name.
  - apply not_elem_of_list_to_map_1. rewrite <- list_fmap_compose.
    intros Hin. apply list_elem_of_fmap in Hin as (key & -> & Hin). done.
Qed.

Lemma foldl_count_merge (l : list string) (d : gmap string Z) (m : string) :
  foldl count_merge d l !! m =
    match d !! m with
    | Some n => Some (n + count_where (λ x, x = m) l)
    | None =>
        if decide (count_where (λ x, x = m) l = 0) then None
        else Some (count_where (λ x, x = m) l)
    end.
Proof.
  revert d. induction l as [|x l IH]; intros d; cbn [foldl].
  - unfold count_where. cbn. destruct (d !! m); [f_equal; lia|done].
  - rewrite IH, count_where_cons. unfold count_merge.
    assert (Hpos : 0 ≤ count_where (λ x, x = m) l) by (unfold count_where; lia).
    destruct (decide (x = m)) as [->|Hne].
    + destruct (d !! m) as [n|] eqn:Hd; rewrite lookup_insert_eq.
      * f_equal. lia.
      * rewrite decide_False by lia. f_equal.
    + assert (Hsame : ∀ v, <[x := v]> d !! m = d !! m)
        by (intros v; by rewrite lookup_insert_ne).
      destruct (d !! x); rewrite Hsame; destruct (d !! m); try (f_equal; lia);
        by destruct (decide _).
Qed.

Lemma has_keys_counted_up names count d d' :
  counted_up count d d' → has_keys names d → has_keys names d'.
Proof.
  unfold has_keys. intros Hup Hkeys name.
  rewrite <- Hkeys, Hup. by rewrite fmap_is_Some.
Qed.

Lemma has_keys_zero_counts (names : list string) :
  has_keys names (list_to_map ((λ key, (key, 0)) <$> names)).
Proof.
  intros name. rewrite lookup_zero_counts.
  destruct (decide (name ∈ names)); [by split; [|eexists]|].
  split; [by intros [? ?]|done].
Qed.

Lemma file_cmd_handler_returns cmd fc s :
  has_keys FILE_COMMAND_NAMES (file_cmd_counts s) →
  (∃ s', file_cmd_handler SYMLINK_KIND cmd fc s = (Return tt, s')) ↔
  known_file_cmd FILE_COMMAND_NAMES fc.
Proof.
  intros Hkeys. unfold known_file_cmd, has_keys in *. rewrite <- Hkeys.
  destruct fc as [name ex kind dataref|name p|name p|name|name];
    cbn [file_cmd_handler file_cmd_name]; unfold mbind, St_bind;
    rewrite count_file_cmd_run;
    destruct (file_cmd_counts s !! name) as [n|];
    try (split; [by intros [? ?]|by intros [[? ?] ?]]);
    try (split; [by split; [eexists|]|by eexists]).
  assert (Htrack : ∀ mark s1, ∃ s', _track_blob mark s1 = (Return tt, s'))
    by (intros; by eexists).
  destruct ex; unfold update, mret, St_ret;
    destruct (bool_decide (kind = SYMLINK_KIND));
    (destruct dataref as [[|c d]|];
       [split; [by intros [? ?]|by intros [_ ?]]
       |(destruct (bool_decide (c = ":"%char));
           (split; [by split; [eexists|]|intros _; by eauto]))
       |split; [by split; [eexists|]|by eexists]]).
Qed.

Lemma file_cmds_handler_returns cmd fcs s :
  has_keys FILE_COMMAND_NAMES (file_cmd_counts s) →
  (∃ s', file_cmds_handler SYMLINK_KIND cmd fcs s = (Return tt, s')) ↔
  Forall (known_file_cmd FILE_COMMAND_NAMES) fcs.
Proof.
  revert s. induction fcs as [|fc fcs IH]; intros s Hkeys; cbn [file_cmds_handler].
  - split; [done|by eexists].
  - rewrite Forall_cons, <- (file_cmd_handler_returns cmd fc s Hkeys). split.
    + intros (s' & Hrun). apply bind_Return in Hrun as ([] & s1 & H1 & Hrun).
      split; [by eexists|]. apply (IH s1); [|by eexists].
      apply file_cmd_handler_counts in H1 as (n & Hn & ->).
      eapply has_keys_counted_up; [by apply counted_up_incr|done].
    + intros [(s1 & H1) Hall]. rewrite (bind_run _ _ _ _ _ H1).
      apply IH; [|done].
      apply file_cmd_handler_counts in H1 as (n & Hn & ->).
      eapply has_keys_counted_up; [by apply counted_up_incr|done].
Qed.

Lemma handle_returns cmd s :
  has_keys COMMAND_NAMES (cmd_counts s) →
  has_keys FILE_COMMAND_NAMES (file_cmd_counts s) →
  (∃ s', handle SYMLINK_KIND cmd s = (Return tt, s')) ↔
  known_cmd COMMAND_NAMES FILE_COMMAND_NAMES cmd.
Proof.
  intros Hkeys Hfkeys. unfold known_cmd. rewrite <- (Hkeys (cmd_name cmd)).
  assert (Hsimple : ∀ name (k : St InfoProcessor unit),
    (∀ s1, ∃ s', k s1 = (Return tt, s')) →
    (∃ s', (count_cmd name ≫= λ _, k) s = (Return tt, s')) ↔
    is_Some (cmd_counts s !! name) ∧ Forall (known_file_cmd FILE_COMMAND_NAMES) []).
  { intros name k Hk. unfold mbind, St_bind. rewrite count_cmd_run.
    destruct (cmd_counts s !! name) as [n|].
    - split; [by split; [eexists|]|intros _; apply Hk].
    - split; [by intros [? ?]|by intros [[? ?] _]]. }
  destruct cmd as [b|c|r|name|name|name|name feature];
    cbn [handle cmd_name file_cmds_of].
  - apply Hsimple. intros s1. by eexists.
  - split.
    + intros (s' & Hrun).
      apply commit_handler_Return in Hrun as (n & s1 & s2 & s3 & Hn & E1 & H2 & _).
      split; [by eexists|].
      apply (file_cmds_handler_returns c _ s1); [|by eexists].
      rewrite E1. by destruct (commit_author c).
    + intros [[n Hn] Hall]. unfold commit_handler, mbind, St_bind.
      rewrite count_cmd_run, Hn. unfold update, mret, St_ret.
      destruct (commit_author c); cbv beta iota;
        match goal with
        | |- context [file_cmds_handler _ _ _ ?s1] =>
            destruct (proj2 (file_cmds_handler_returns c (commit_file_iter c) s1
              Hfkeys) Hall) as (s2 & ->)
        end; unfold on_cache_mgr;
        destruct (track_heads_run c (cache_mgr s2)) as (m' & -> & _);
        eexists; reflexivity.
  - unfold reset_handler. apply Hsimple. intros s1.
    destruct (String.prefix _ _); [by eexists|].
    destruct (reset_from_ r); [|by eexists].
    unfold on_cache_mgr, track_heads_for_ref. monad_unfold. cbn.
    eexists; reflexivity.
  - rewrite <- (Hsimple name (mret tt)) by (intros; by eexists).
    unfold mbind, St_bind. by destruct (count_cmd name s) as [[[]|] ?].
  - rewrite <- (Hsimple name (mret tt)) by (intros; by eexists).
    unfold mbind, St_bind. by destruct (count_cmd name s) as [[[]|] ?].
  - rewrite <- (Hsimple name (mret tt)) by (intros; by eexists).
    unfold mbind, St_bind. by destruct (count_cmd name s) as [[[]|] ?].
  - unfold feature_handler. apply Hsimple. intros s1. by eexists.
Qed.

Lemma handle_all_returns cmds s :
  has_keys COMMAND_NAMES (cmd_counts s) →
  has_keys FILE_COMMAND_NAMES (file_cmd_counts s) →
  (∃ s', handle_all SYMLINK_KIND cmds s = (Return tt, s')) ↔
  Forall (known_cmd COMMAND_NAMES FILE_COMMAND_NAMES) cmds.
Proof.
  revert s. induction cmds as [|cmd cmds IH]; intros s Hkeys Hfkeys; cbn [handle_all].
  - split; [done|by eexists].
  - rewrite Forall_cons, <- (handle_returns cmd s Hkeys Hfkeys).
    assert (Hnext : ∀ s1, handle SYMLINK_KIND cmd s = (Return tt, s1) →
              has_keys COMMAND_NAMES (cmd_counts s1) ∧
              has_keys FILE_COMMAND_NAMES (file_cmd_counts s1)).
    { intros s1 H1. split.
      - apply handle_cmd_counts in H1 as (n & Hn & ->).
        eapply has_keys_counted_up; [by apply counted_up_incr|done].
      - apply handle_stats in H1 as (Hup & _).
        by eapply has_keys_counted_up. }
    split.
    + intros (s' & Hrun). apply bind_Return in Hrun as ([] & s1 & H1 & Hrun).
      split; [by eexists|]. destruct (Hnext _ H1). apply (IH s1); [done..|by eexists].
    + intros [(s1 & H1) Hall]. rewrite (bind_run _ _ _ _ _ H1).
      destruct (Hnext _ H1). by apply IH.
Qed.
End info_pass_facts.

(** X6. Whatever the stream and however far the pass gets, the usage sets and
    the reference counts fit together: no mark is in both ['new'] and
    ['used'], every reference count is at least 2, and a mark that has a
    reference count is not in ['used']. *)
Theorem info_pass_usage_sets COMMAND_NAMES FILE_COMMAND_NAMES SYMLINK_KIND
    (cmds : list Command) :
  let s := (info_pass COMMAND_NAMES FILE_COMMAND_NAMES SYMLINK_KIND cmds).2 in
  (∀ mark, mark ∈ blobs_new (blobs s) → mark ∉ blobs_used (blobs s)) ∧
  (∀ mark n, blob_ref_counts s !! mark = Some n →
     2 ≤ n ∧ mark ∉ blobs_used (blobs s)).
Proof.
  cbv zeta. unfold info_pass.
  apply (handle_all_preserves SYMLINK_KIND usage_ok cmds (handle_usage SYMLINK_KIND)).
  split; [set_solver|]. intros mark n. cbn. by rewrite lookup_empty.
Qed.

Section info_pass_exceptions.
Context (SYMLINK_KIND : string).

Lemma raises_only_bind {S A B} (P : exn → Prop) (m : St S A) (k : A → St S B) :
  raises_only P m → (∀ a, raises_only P (k a)) → raises_only P (m ≫= k).
Proof.
  intros Hm Hk s e s'. unfold mbind, St_bind.
  destruct (m s) as [[a|e1] s1] eqn:Hrun.
  - apply Hk.
  - intros [= <- <-]. by eapply Hm.
Qed.

Lemma raises_only_mret {S A} (P : exn → Prop) (a : A) :
  raises_only P (mret a : St S A).
Proof. by intros s e s'. Qed.

Lemma raises_only_update {S} (P : exn → Prop) (f : S → S) :
  raises_only P (update f).
Proof. by intros s e s'. Qed.

Lemma raises_only_raise {S A} (P : exn → Prop) e :
  P e → raises_only P (raise e : St S A).
Proof. intros He s e' s'. by intros [= <- <-]. Qed.

Lemma raises_only_count_cmd (P : exn → Prop) name :
  P KeyError → raises_only P (count_cmd name).
Proof.
  intros He s e s'. rewrite count_cmd_run.
  destruct (cmd_counts s !! name); [done|by intros [= <- <-]].
Qed.

Lemma raises_only_count_file_cmd (P : exn → Prop) name :
  P KeyError → raises_only P (count_file_cmd name).
Proof.
  intros He s e s'. rewrite count_file_cmd_run.
  destruct (file_cmd_counts s !! name); [done|by intros [= <- <-]].
Qed.

Lemma raises_only_on_cache_mgr {A} (P : exn → Prop) (m : St CacheManager A) :
  raises_only P m → raises_only P (on_cache_mgr m).
Proof.
  intros Hm s e s'. unfold on_cache_mgr.
  destruct (m (cache_mgr s)) as [r c] eqn:Hrun. intros [= -> <-]. by eapply Hm.
Qed.

Ltac raises_only_steps :=
  repeat first
    [ apply raises_only_mret
    | apply raises_only_update
    | apply raises_only_raise; by auto
    | apply raises_only_count_cmd; by auto
    | apply raises_only_count_file_cmd; by auto
    | apply raises_only_bind; [|intros ?] ].

Lemma handle_raises cmd :
  raises_only (λ e, e = KeyError ∨ e = IndexError) (handle SYMLINK_KIND cmd).
Proof.
  destruct cmd as [b|c|r|name|name|name|name feature]; cbn [handle].
  - unfold blob_handler. by raises_only_steps.
  - unfold commit_handler.
    apply raises_only_bind; [by raises_only_steps|intros ?].
    apply raises_only_bind; [by raises_only_steps|intros ?].
    apply raises_only_bind;
      [destruct (commit_author c); by raises_only_steps|intros ?].
    apply raises_only_bind.
    { induction (commit_file_iter c) as [|fc fcs IH]; cbn [file_cmds_handler];
        [by raises_only_steps|].
      apply raises_only_bind; [|done].
      destruct fc as [name ex kind dataref|name p|name p|name|name];
        cbn [file_cmd_handler]; try by raises_only_steps.
      apply raises_only_bind; [by raises_only_steps|intros ?].
      apply raises_only_bind; [destruct ex; by raises_only_steps|intros ?].
      apply raises_only_bind;
        [destruct (bool_decide (kind = SYMLINK_KIND)); by raises_only_steps|intros ?].
      destruct dataref as [[|ch d]|]; [by raises_only_steps| |by raises_only_steps].
      destruct (bool_decide (ch = ":"%char)); [|by raises_only_steps].
      unfold _track_blob. by raises_only_steps. }
    intros ?. apply raises_only_bind.
    { apply raises_only_on_cache_mgr. intros m e m' Hrun.
      destruct (track_heads_run c m) as (m1 & Hm1 & _). congruence. }
    intros ?. by raises_only_steps.
  - unfold reset_handler. apply raises_only_bind; [by raises_only_steps|intros ?].
    destruct (String.prefix _ _); [by raises_only_steps|].
    destruct (reset_from_ r); [|by raises_only_steps].
    apply raises_only_on_cache_mgr. intros m e m'.
    unfold track_heads_for_ref. monad_unfold. by cbn.
  - by raises_only_steps.
  - by raises_only_steps.
  - by raises_only_steps.
  - unfold feature_handler. by raises_only_steps.
Qed.

Lemma handle_all_raises cmds :
  raises_only (λ e, e = KeyError ∨ e = IndexError) (handle_all SYMLINK_KIND cmds).
Proof.
  induction cmds as [|cmd cmds IH]; cbn [handle_all].
  - apply raises_only_mret.
  - apply raises_only_bind; [apply handle_raises|done].
Qed.
End info_pass_exceptions.

(** X7. The pass handles a whole stream exactly when every command has a name
    of [COMMAND_NAMES], every file command a name of [FILE_COMMAND_NAMES],
    and no Modify command the empty string as its content reference. When it
    does not, it raises [KeyError] or [IndexError]. *)
Theorem info_pass_returns_iff COMMAND_NAMES FILE_COMMAND_NAMES SYMLINK_KIND
    (cmds : list Command) :
  ((∃ s, info_pass COMMAND_NAMES FILE_COMMAND_NAMES SYMLINK_KIND cmds
           = (Return tt, s)) ↔
   Forall (known_cmd COMMAND_NAMES FILE_COMMAND_NAMES) cmds) ∧
  ∀ e s, info_pass COMMAND_NAMES FILE_COMMAND_NAMES SYMLINK_KIND cmds
           = (Raise e, s) →
         e = KeyError ∨ e = IndexError.
Proof.
  unfold info_pass. split.
  - apply handle_all_returns; apply has_keys_zero_counts.
  - intros e s. apply handle_all_raises.
Qed.

Lemma info_pass_returns_iff_witness :
  (∃ s, example_pass = (Return tt, s)) ∧
  (info_pass ["commit"] ["filemodify"] "symlink" example_stream).1
    = Raise KeyError.
Proof.
  destruct (info_pass_returns_iff ["blob"; "commit"; "reset"; "tag"]
    ["filemodify"; "filedelete"] "symlink" example_stream) as [[_ Hreturns] _].
  split; [|by vm_compute]. apply Hreturns.
  apply (bool_decide_unpack _). by vm_compute.
Defined.

(** X8. When the pass has handled a stream, [cmd_counts] holds for each name
    of [COMMAND_NAMES] the number of commands of that name and no other key,
    and [file_cmd_counts] holds for each name of [FILE_COMMAND_NAMES] the
    number of file commands of that name in the commits and no other key. *)
Theorem info_pass_counts_commands COMMAND_NAMES FILE_COMMAND_NAMES SYMLINK_KIND
    (cmds : list Command) (s : InfoProcessor) :
  info_pass COMMAND_NAMES FILE_COMMAND_NAMES SYMLINK_KIND cmds = (Return tt, s) →
  ∀ name,
    cmd_counts s !! name =
      (if decide (name ∈ COMMAND_NAMES)
       then Some (count_where (λ cmd, cmd_name cmd = name) cmds) else None) ∧
    file_cmd_counts s !! name =
      (if decide (name ∈ FILE_COMMAND_NAMES)
       then Some (count_where (λ fc, file_cmd_name fc = name) (all_file_cmds cmds))
       else None).
Proof.
  unfold info_pass. intros Hrun name.
  apply handle_all_stats in Hrun as (Hc & Hf & _).
  rewrite Hc, Hf. cbn [pre_process cmd_counts file_cmd_counts].
  rewrite !lookup_zero_counts.
  by destruct (decide (name ∈ COMMAND_NAMES)), (decide (name ∈ FILE_COMMAND_NAMES)).
Qed.

Lemma example_pass_returns : example_pass = (Return tt, example_pass.2).
Proof. by vm_compute. Qed.

Lemma info_pass_counts_commands_witness :
  cmd_counts example_pass.2 !! "commit" = Some 2 ∧
  cmd_counts example_pass.2 !! "tag" = Some 0 ∧
  cmd_counts example_pass.2 !! "progress" = None ∧
  file_cmd_counts example_pass.2 !! "filemodify" = Some 2.
Proof.
  pose proof (info_pass_counts_commands ["blob"; "commit"; "reset"; "tag"]
    ["filemodify"; "filedelete"] "symlink" example_stream _ example_pass_returns)
    as Hcounts.
  rewrite (proj1 (Hcounts "commit")), (proj1 (Hcounts "tag")),
    (proj1 (Hcounts "progress")), (proj2 (Hcounts "filemodify")).
  by vm_compute.
Defined.

(** X9. Whatever the stream and however far the pass gets, [max_parent_count]
    is the largest key of [parent_counts] (and 0 while there is none), no key
    is negative and every count is positive; when the pass has handled the
    stream, the counts add up to the number of its commits. *)
Theorem info_pass_parent_counts COMMAND_NAMES FILE_COMMAND_NAMES SYMLINK_KIND
    (cmds : list Command) :
  let r := info_pass COMMAND_NAMES FILE_COMMAND_NAMES SYMLINK_KIND cmds in
  (∀ k n, parent_counts r.2 !! k = Some n →
     0 ≤ k ≤ max_parent_count r.2 ∧ 1 ≤ n) ∧
  (parent_counts r.2 = ∅ ∧ max_parent_count r.2 = 0 ∨
   is_Some (parent_counts r.2 !! max_parent_count r.2)) ∧
  (r.1 = Return tt →
   total_count (parent_counts r.2) = count_where is_commit cmds).
Proof.
  cbv zeta. unfold info_pass. split_and!.
  - apply (handle_all_preserves SYMLINK_KIND parent_counts_ok cmds
             (handle_parent_counts SYMLINK_KIND)).
    split; [intros k n; cbn; by rewrite lookup_empty|by left].
  - apply (handle_all_preserves SYMLINK_KIND parent_counts_ok cmds
             (handle_parent_counts SYMLINK_KIND)).
    split; [intros k n; cbn; by rewrite lookup_empty|by left].
  - destruct (handle_all _ _ _) as [r s] eqn:Hrun. cbn [fst snd]. intros ->.
    apply handle_all_stats in Hrun as (_ & _ & _ & _ & _ & _ & _ & _ & ->).
    done.
Qed.

Lemma info_pass_parent_counts_witness :
  total_count (parent_counts example_pass.2) = 2 ∧
  max_parent_count example_pass.2 = 3 ∧
  parent_counts example_pass.2 = {[ 0 := 1; 3 := 1 ]}.
Proof.
  split; [|by vm_compute].
  destruct (info_pass_parent_counts ["blob"; "commit"; "reset"; "tag"]
    ["filemodify"; "filedelete"] "symlink" example_stream) as (_ & _ & Htotal).
  fold example_pass in Htotal. rewrite Htotal; by vm_compute.
Defined.

(** X10. When the pass has handled a stream, [merges] holds for each id the
    number of times the commits of the stream name it as a merge, and no key
    for an id that is never merged. *)
Theorem info_pass_counts_merges COMMAND_NAMES FILE_COMMAND_NAMES SYMLINK_KIND
    (cmds : list Command) (s : InfoProcessor) (id : string) :
  info_pass COMMAND_NAMES FILE_COMMAND_NAMES SYMLINK_KIND cmds = (Return tt, s) →
  merges s !! id =
    if decide (count_where (λ merge, merge = id) (all_merges cmds) = 0) then None
    else Some (count_where (λ merge, merge = id) (all_merges cmds)).
Proof.
  unfold info_pass. intros Hrun.
  apply handle_all_stats in Hrun as (_ & _ & -> & _).
  by rewrite foldl_count_merge.
Qed.

Lemma info_pass_counts_merges_witness :
  merges example_pass.2 !! ":9" = Some 2 ∧ merges example_pass.2 !! ":2" = None.
Proof.
  split.
  - rewrite (info_pass_counts_merges ["blob"; "commit"; "reset"; "tag"]
      ["filemodify"; "filedelete"] "symlink" example_stream _ ":9"
      example_pass_returns). by vm_compute.
  - rewrite (info_pass_counts_merges ["blob"; "commit"; "reset"; "tag"]
      ["filemodify"; "filedelete"] "symlink" example_stream _ ":2"
      example_pass_returns). by vm_compute.
Defined.

(** X11. When the pass has handled a stream, [lightweight_tags] is the number
    of its Reset commands on a ref under [refs/tags/]. *)
Theorem info_pass_counts_lightweight_tags COMMAND_NAMES FILE_COMMAND_NAMES
    SYMLINK_KIND (cmds : list Command) (s : InfoProcessor) :
  info_pass COMMAND_NAMES FILE_COMMAND_NAMES SYMLINK_KIND cmds = (Return tt, s) →
  lightweight_tags s = count_where tag_reset cmds.
Proof.
  unfold info_pass. intros Hrun.
  by apply handle_all_stats in Hrun as (_ & _ & _ & -> & _).
Qed.

Lemma info_pass_counts_lightweight_tags_witness :
  lightweight_tags example_pass.2 = 1.
Proof.
  rewrite (info_pass_counts_lightweight_tags ["blob"; "commit"; "reset"; "tag"]
    ["filemodify"; "filedelete"] "symlink" example_stream _ example_pass_returns).
  by vm_compute.
Defined.

(** X12. When the pass has handled a stream, each flag of the commit analysis
    tells whether the stream holds what it stands for: a commit with an
    author, a Modify command of an executable, one of the kind
    [SYMLINK_KIND], one whose content reference does not start with a
    colon. *)
Theorem info_pass_flags COMMAND_NAMES FILE_COMMAND_NAMES SYMLINK_KIND
    (cmds : list Command) (s : InfoProcessor) :
  info_pass COMMAND_NAMES FILE_COMMAND_NAMES SYMLINK_KIND cmds = (Return tt, s) →
  separate_authors_found s = existsb has_author cmds ∧
  executables_found s = existsb is_executable_cmd (all_file_cmds cmds) ∧
  symlinks_found s = existsb (is_symlink_cmd SYMLINK_KIND) (all_file_cmds cmds) ∧
  sha_blob_references s = existsb refers_by_sha (all_file_cmds cmds).
Proof.
  unfold info_pass. intros Hrun.
  by apply handle_all_stats in Hrun as (_ & _ & _ & _ & -> & -> & -> & -> & _).
Qed.

Lemma info_pass_flags_witness :
  separate_authors_found example_pass.2 = true ∧
  executables_found example_pass.2 = true ∧
  symlinks_found example_pass.2 = true ∧
  sha_blob_references example_pass.2 = true.
Proof.
  destruct (info_pass_flags ["blob"; "commit"; "reset"; "tag"]
    ["filemodify"; "filedelete"] "symlink" example_stream _ example_pass_returns)
    as (-> & -> & -> & ->).
  by vm_compute.
Defined.

(** * Further properties of head tracking *)

Lemma track_all_snoc cmds cmd m :
  track_all (cmds ++ [cmd]) m = (track_heads cmd (track_all cmds m)).2.
Proof. unfold track_all. by rewrite foldl_app. Qed.

(** X13. A linear history has one head: after the commits [cmd :: cmds] on one
    ref, none of which names a parent or a merge, have been tracked by a new
    manager, the only head is the last commit, on that ref, and it is the
    last id of the ref. *)
Theorem track_heads_linear_history (ref : string) (cmd : CommitCommand)
    (cmds : list CommitCommand) :
  Forall (follows_on ref) (cmd :: cmds) →
  let m := track_all (cmd :: cmds) new_CacheManager in
  let tip := commit_id (default cmd (last cmds)) in
  heads m = {[ tip := {[ ref ]} ]} ∧
  last_ids m = {[ ref := tip ]} ∧
  last_ref m = Some ref.
Proof.
  intros Hall. cbv zeta. revert Hall.
  induction cmds as [|c cmds IH] using rev_ind; intros Hall.
  - apply Forall_cons in Hall as [(Hr & Hf & Hm) _].
    unfold track_all. cbn [foldl last from_option].
    destruct (track_heads_run cmd new_CacheManager) as (m' & -> & Hh & Hl & Hlr).
    cbn [snd]. unfold true_parents in Hh. rewrite Hf, Hm in Hh. cbn in Hh.
    rewrite Hr in *. split; [|split; [by rewrite Hl|done]].
    apply map_eq. intros k. rewrite Hh.
    destruct (decide (k = commit_id cmd)) as [->|Hne].
    + rewrite lookup_singleton_eq. f_equal. set_solver.
    + rewrite lookup_singleton_ne by done.
      destruct (decide (k ∈ [])); [done|]. apply lookup_empty.
  - rewrite app_comm_cons in Hall. apply Forall_app in Hall as [Hall Hc].
    apply Forall_singleton in Hc as (Hr & Hf & Hm).
    destruct (IH Hall) as (Hheads & Hlast & _).
    rewrite app_comm_cons, track_all_snoc, last_snoc. cbn [from_option].
    set (m := track_all (cmd :: cmds) new_CacheManager) in *.
    set (tip := commit_id (default cmd (last cmds))) in *.
    destruct (track_heads_run c m) as (m' & -> & Hh & Hl & Hlr). cbn [snd].
    assert (Hparents : true_parents c m = [tip]).
    { unfold true_parents. by rewrite Hf, Hm, Hr, Hlast, lookup_singleton_eq. }
    rewrite Hparents in Hh. rewrite Hr in *.
    split; [|split; [by rewrite Hl, Hlast, insert_singleton_eq|done]].
    apply map_eq. intros k. rewrite Hh, Hheads.
    destruct (decide (k = commit_id c)) as [->|Hne].
    + rewrite lookup_singleton_eq. f_equal.
      destruct (decide (commit_id c ∈ [tip])) as [|Hnin]; [set_solver|].
      rewrite lookup_singleton_ne by set_solver. set_solver.
    + rewrite (lookup_singleton_ne (commit_id c)) by done.
      destruct (decide (k ∈ [tip])) as [|Hnin]; [done|].
      apply lookup_singleton_ne. set_solver.
Qed.

Lemma track_heads_linear_history_witness :
  let m := track_all [root_commit "refs/heads/master" ":1";
                      root_commit "refs/heads/master" ":2";
                      root_commit "refs/heads/master" ":3"] new_CacheManager in
  heads m = {[ ":3" := {[ "refs/heads/master" ]} ]} ∧
  last_ids m = {[ "refs/heads/master" := ":3" ]} ∧
  last_ref m = Some "refs/heads/master".
Proof.
  apply (track_heads_linear_history "refs/heads/master"
    (root_commit "refs/heads/master" ":1")
    [root_commit "refs/heads/master" ":2"; root_commit "refs/heads/master" ":3"]).
  apply (bool_decide_unpack _). by vm_compute.
Defined.

Section info_pass_heads.
Context (COMMAND_NAMES FILE_COMMAND_NAMES : list string) (SYMLINK_KIND : string).
Context (cmds : list Command).

Lemma track_heads_heads_ok cmd m :
  Commit cmd ∈ cmds → heads_ok cmds m → heads_ok cmds (track_heads cmd m).2.
Proof.
  intros Hin Hok. destruct (track_heads_run cmd m) as (m' & -> & Hh & Hl & _).
  cbn [snd]. intros id refs. rewrite Hh, Hl.
  destruct (decide (id = commit_id cmd)) as [->|Hne].
  - intros [= <-]. split; [apply Exists_exists; by exists (Commit cmd)|].
    split; [set_solver|]. intros ref Href.
    destruct (decide (ref = commit_ref cmd)) as [->|Hr];
      [by rewrite lookup_insert_eq|].
    rewrite lookup_insert_ne by done.
    destruct (decide (commit_id cmd ∈ true_parents cmd m)); [set_solver|].
    destruct (heads m !! commit_id cmd) as [old|] eqn:Hold; [|set_solver].
    destruct (Hok _ _ Hold) as (_ & _ & Hrefs). apply Hrefs. set_solver.
  - destruct (decide (id ∈ true_parents cmd m)); [done|]. intros Hid.
    destruct (Hok _ _ Hid) as (Hex & Hne' & Hrefs). split; [done|].
    split; [done|]. intros ref Href.
    destruct (decide (ref = commit_ref cmd)) as [->|Hr];
      [by rewrite lookup_insert_eq|].
    rewrite lookup_insert_ne by done. by apply Hrefs.
Qed.

Lemma track_heads_for_ref_heads_ok cmd from_ m :
  Reset cmd ∈ cmds → reset_from_ cmd = Some from_ → heads_ok cmds m →
  heads_ok cmds (track_heads_for_ref (reset_ref cmd) from_ None m).2.
Proof.
  intros Hin Hfrom Hok. unfold track_heads_for_ref. monad_unfold. cbn.
  intros id refs. cbn.
  destruct (decide (id = from_)) as [->|Hne].
  - rewrite lookup_insert_eq. intros [= <-].
    split; [apply Exists_exists; by exists (Reset cmd)|].
    split; [set_solver|]. intros ref Href.
    destruct (decide (ref = reset_ref cmd)) as [->|Hr];
      [by rewrite lookup_insert_eq|].
    rewrite lookup_insert_ne by done.
    destruct (heads m !! from_) as [old|] eqn:Hold; [|set_solver].
    destruct (Hok _ _ Hold) as (_ & _ & Hrefs). apply Hrefs. set_solver.
  - rewrite lookup_insert_ne by done. intros Hid.
    destruct (Hok _ _ Hid) as (Hex & Hne' & Hrefs). split; [done|].
    split; [done|]. intros ref Href.
    destruct (decide (ref = reset_ref cmd)) as [->|Hr];
      [by rewrite lookup_insert_eq|].
    rewrite lookup_insert_ne by done. by apply Hrefs.
Qed.

Lemma handle_heads_ok cmd :
  cmd ∈ cmds →
  preserves (λ s, heads_ok cmds (cache_mgr s)) (handle SYMLINK_KIND cmd).
Proof.
  intros Hin. destruct cmd as [b|c|r|name|name|name|name feature]; cbn [handle].
  - unfold blob_handler. apply preserves_bind; [by preserves_frame|intros ?].
    apply preserves_update. intros s Hinv. by destruct (blob_mark b).
  - unfold commit_handler.
    apply preserves_bind; [by preserves_frame|intros ?].
    apply preserves_bind; [by preserves_frame|intros ?].
    apply preserves_bind; [destruct (commit_author c); by preserves_frame|intros ?].
    apply preserves_bind.
    { intros s Hinv.
      destruct (file_cmds_handler SYMLINK_KIND c (commit_file_iter c) s)
        as [r s'] eqn:Hrun.
      apply file_cmds_handler_frame in Hrun as (_ & _ & _ & _ & _ & _ & Hm & _).
      cbn [snd]. by rewrite Hm. }
    intros ?. apply preserves_bind.
    { intros s Hinv. unfold on_cache_mgr.
      pose proof (track_heads_heads_ok c (cache_mgr s) Hin Hinv) as Hok.
      by destruct (track_heads c (cache_mgr s)). }
    intros parents. apply preserves_bind; [|by preserves_frame].
    apply preserves_update. intros s Hinv.
    destruct (parent_counts s !! _); [exact Hinv|].
    destruct (bool_decide _); exact Hinv.
  - unfold reset_handler. apply preserves_bind; [by preserves_frame|intros ?].
    destruct (String.prefix _ _); [by preserves_frame|].
    destruct (reset_from_ r) as [from_|] eqn:Hfrom; [|by preserves_frame].
    intros s Hinv. unfold on_cache_mgr.
    pose proof (track_heads_for_ref_heads_ok r from_ (cache_mgr s) Hin Hfrom Hinv)
      as Hok.
    by destruct (track_heads_for_ref _ _ _ _).
  - by preserves_frame.
  - by preserves_frame.
  - by preserves_frame.
  - unfold feature_handler. by preserves_frame.
Qed.

Lemma handle_all_preserves_in (I : InfoProcessor → Prop) (todo : list Command) :
  (∀ cmd, cmd ∈ todo → preserves I (handle SYMLINK_KIND cmd)) →
  preserves I (handle_all SYMLINK_KIND todo).
Proof.
  induction todo as [|cmd todo IH]; intros Hstep; cbn [handle_all].
  - apply preserves_mret.
  - apply preserves_bind; [apply Hstep; by left|].
    intros _. apply IH. intros cmd' Hin. apply Hstep. by right.
Qed.
End info_pass_heads.

(** X14. Whatever the stream and however far the pass gets, every head it
    tracks is the id of a commit of the stream or the [from_] of one of its
    resets, its set of refs is not empty, and each of these refs has a last
    id. *)
Theorem info_pass_heads COMMAND_NAMES FILE_COMMAND_NAMES SYMLINK_KIND
    (cmds : list Command) (id : string) (refs : gset string) :
  let m := cache_mgr (info_pass COMMAND_NAMES FILE_COMMAND_NAMES SYMLINK_KIND cmds).2 in
  heads m !! id = Some refs →
  Exists (names_head id) cmds ∧ refs ≠ ∅ ∧
  ∀ ref, ref ∈ refs → is_Some (last_ids m !! ref).
Proof.
  cbv zeta. unfold info_pass.
  apply (handle_all_preserves_in SYMLINK_KIND
           (λ s, heads_ok cmds (cache_mgr s)) cmds).
  - intros cmd Hin. by apply handle_heads_ok.
  - intros id' refs'. cbn. by rewrite lookup_empty.
Qed.

Lemma info_pass_heads_witness :
  heads (cache_mgr example_pass.2) !! ":3" = Some {[ "refs/heads/master" ]} ∧
  Exists (names_head ":3") example_stream ∧
  ∀ ref, ref ∈ ({[ "refs/heads/master" ]} : gset string) →
         is_Some (last_ids (cache_mgr example_pass.2) !! ref).
Proof.
  assert (Hhead : heads (cache_mgr example_pass.2) !! ":3"
                  = Some {[ "refs/heads/master" ]}) by (vm_compute; reflexivity).
  split; [exact Hhead|].
  destruct (info_pass_heads ["blob"; "commit"; "reset"; "tag"]
    ["filemodify"; "filedelete"] "symlink" example_stream ":3"
    {[ "refs/heads/master" ]} Hhead) as (Hex & _ & Hrefs).
  split; [exact Hex|exact Hrefs].
Defined.

(** * Further properties of the blob cache *)

Section cache_facts.
Context `{DictOrder}.

(** X15. Without reference-count hints every blob is sticky and stays: after
    [store_blob(id, data)] under an id that neither the transient map nor the
    disk tier holds, any number of calls of [fetch_blob(id)] return [data]
    and leave the cache as it is. *)
Theorem blob_without_hints_is_kept (id data : string) (w : World) :
  _blob_ref_counts (mgr w) = ∅ →
  _blobs (mgr w) !! id = None →
  _disk_blobs (mgr w) !! id = None →
  (reachable_fresh w → _sticky_blobs (mgr w) !! id = None →
     ∃ w1, store_blob id data w = (Return tt, w1)) ∧
  ∀ w1, store_blob id data w = (Return tt, w1) →
    held w1 id data ∧
    ∀ n, fetch_times n id w1 = (replicate n (Return data), w1).
Proof.
  intros Hcount Hb Hd. split; [apply store_blob_returns_in_run|].
  intros w1 Hstore.
  destruct (store_blob_held id data w w1) as [Hheld Hc];
    [left; by left|done..|].
  split; [done|]. intros n. apply fetch_times_uncounted; [done|].
  left. by rewrite Hc.
Qed.

(** X16. With hints for other blobs only, a blob that is not empty is kept for
    one fetch: [store_blob] puts it into the transient map, the first
    [fetch_blob] returns it and leaves the manager as it was before the
    store, and the next one raises [KeyError]. *)
Theorem blob_without_its_hint_is_fetched_once (id data : string) (w : World) :
  _blob_ref_counts (mgr w) ≠ ∅ →
  _blob_ref_counts (mgr w) !! id = None →
  data ≠ "" →
  in_no_tier w id →
  ∃ w1, store_blob id data w = (Return tt, w1) ∧
    _blobs (mgr w1) !! id = Some data ∧
    fetch_blob id w1 = (Return data, w) ∧
    fetch_blob id w = (Raise KeyError, w).
Proof.
  intros Hne Hcount Hdata Hno. rewrite store_blob_run.
  rewrite bool_decide_eq_false_2.
  2:{ intros [?|[? ?]]; congruence. }
  rewrite bool_decide_eq_false_2 by done.
  eexists. split; [done|]. split; [cbn; apply lookup_insert_eq|].
  split; [|by apply fetch_absent].
  destruct Hno as (Hb & _). unfold fetch_blob. monad_unfold.
  cbn [mgr set_mgr _blobs set__blobs]. rewrite lookup_insert_eq.
  rewrite delete_insert_id by done. by destruct w as [[] ? ? ?].
Qed.

Lemma fetch_blob_memory id w r w' :
  fetch_blob id w = (r, w') →
  _sticky_memory_bytes (mgr w') ≤ _sticky_memory_bytes (mgr w).
Proof.
  unfold fetch_blob. monad_unfold. cbn [mgr].
  destruct (_blobs (mgr w) !! id) as [data|]; [by intros [= <- <-]|].
  assert (Hdisk : ∀ fn r1 w1, _decref id the__disk_blobs fn w = (r1, w1) →
            _sticky_memory_bytes (mgr w1) = _sticky_memory_bytes (mgr w)).
  { intros fn r1 w1. rewrite _decref_run.
    destruct (bool_decide (_ = ∅)); [by intros [= <- <-]|].
    destruct (_blob_ref_counts (mgr w) !! id) as [count|];
      [|by intros [= <- <-]].
    destruct (bool_decide (count - 1 ≤ 0)); [|by intros [= <- <-]].
    unfold cache_del, os_unlink. monad_unfold. cbn [mgr].
    destruct (_disk_blobs (mgr w) !! id); [|by intros [= <- <-]].
    destruct fn as [name|]; [|by intros [= <- <-]].
    change (files (set_mgr ?m w)) with (files w).
    by destruct (files w !! name); intros [= <- <-]. }
  destruct (_disk_blobs (mgr w) !! id) as [[[offset n_bytes] fn]|].
  - destruct fn as [name|].
    + unfold open_read. destruct (files w !! name); [|by intros [= <- <-]].
      destruct (_decref id the__disk_blobs (Some name) w) as [[gone|e] w1] eqn:Hdec;
        intros [= <- <-]; by rewrite (Hdisk _ _ _ Hdec).
    + destruct (small_blobs (_cleanup (mgr w))); [|by intros [= <- <-]].
      destruct (_decref id the__disk_blobs None w) as [[gone|e] w1] eqn:Hdec;
        intros [= <- <-]; by rewrite (Hdisk _ _ _ Hdec).
  - destruct (_sticky_blobs (mgr w) !! id) as [content|] eqn:Hid;
      [|by intros [= <- <-]].
    rewrite _decref_run.
    destruct (bool_decide (_ = ∅)); [by intros [= <- <-]|].
    destruct (_blob_ref_counts (mgr w) !! id) as [count|];
      [|by intros [= <- <-]].
    destruct (bool_decide (count - 1 ≤ 0)); [|by intros [= <- <-]].
    unfold cache_del. monad_unfold. cbn [mgr]. rewrite Hid.
    intros [= <- <-]. cbn. pose proof (len_nonneg content). lia.
Qed.

(** X17. In a run in which no blob is stored under a cached id, the memory
    counter is the number of bytes the sticky map holds, and between two
    operations it is never above the high-water mark. *)
Theorem sticky_memory_is_counted_and_bounded (w : World) :
  reachable_fresh w →
  _sticky_memory_bytes (mgr w) = sticky_bytes (_sticky_blobs (mgr w)) ∧
  _sticky_memory_bytes (mgr w) ≤ _sticky_cache_size.
Proof.
  intros Hw. split; [by apply reachable_fresh_consistent|].
  induction Hw as [info m Hinit|id data w Hw IH (_ & Hs & _)|id w Hw IH|w Hw IH].
  - unfold CacheManager_init in Hinit. destruct info as [info|].
    + destruct (info !! "Blob reference counts") as [section|].
      * destruct (read_ref_counts _ _); [|done]. by injection Hinit as <-.
      * by injection Hinit as <-.
    + by injection Hinit as <-.
  - cbn [run_op]. pose proof (reachable_fresh_consistent _ Hw) as [Hmem Hfile].
    rewrite store_blob_run. destruct (bool_decide (_ ∨ _)).
    + destruct (bool_decide (_ < _)) eqn:Hover.
      * destruct (flush_returns (stored_sticky id data w)) as (w' & Hflush).
        { split; [|done]. cbn. rewrite sticky_bytes_insert by done. lia. }
        rewrite Hflush. cbn [snd]. apply flush_mem in Hflush.
        unfold _sticky_flushed_size, _sticky_cache_size in *. lia.
      * apply bool_decide_eq_false in Hover. cbn. lia.
    + by destruct (bool_decide (data = "")).
  - cbn [run_op]. destruct (fetch_blob id w) as [r w'] eqn:Hrun.
    apply fetch_blob_memory in Hrun. cbn [snd]. lia.
  - cbn [run_op]. destruct (flush_returns w) as (w' & Hflush);
      [by apply reachable_fresh_consistent|].
    rewrite Hflush. cbn [snd]. apply flush_mem in Hflush.
    unfold _sticky_flushed_size, _sticky_cache_size in *. lia.
Qed.

Lemma flush_stack_singleton id data w :
  _sticky_blobs (mgr w) = {[ id := data ]} → flush_stack w = [id].
Proof.
  intros Hs. unfold flush_stack.
  assert (Hkeys : dict_keys (_sticky_blobs (mgr w)) = [id]).
  { apply Permutation_singleton_r. unfold dict_keys.
    by rewrite dict_items_perm, Hs, map_to_list_singleton. }
  by rewrite Hkeys.
Qed.

(** X18. [store_blob] under an id whose blob is still in the sticky map counts
    the bytes of both blobs, and a flush can then run out of blobs: in a new
    manager without hints, when a blob above the low-water mark is stored and
    a second one under the same id takes the counter above the high-water
    mark, the second [store_blob] evicts the only sticky blob there is and
    raises [IndexError] at [blobs.pop()]; the counter stays at the size of
    the blob that was replaced. *)
Theorem store_blob_over_a_sticky_blob_can_raise (id d1 d2 : string) :
  _sticky_flushed_size < len d1 ≤ _sticky_cache_size →
  _sticky_cache_size < len d1 + len d2 →
  ∃ w1 w2,
    store_blob id d1 (init_world new_CacheManager) = (Return tt, w1) ∧
    _sticky_blobs (mgr w1) = {[ id := d1 ]} ∧
    store_blob id d2 w1 = (Raise IndexError, w2) ∧
    _sticky_blobs (mgr w2) = ∅ ∧
    on_disk w2 id d2 ∧
    _sticky_memory_bytes (mgr w2) = len d1.
Proof.
  intros [Hlow Hhigh] Hover.
  set (w0 := init_world new_CacheManager).
  set (w1 := stored_sticky id d1 w0).
  set (w1b := stored_sticky id d2 w1).
  exists w1. 
  assert (Hsticky : _sticky_blobs (mgr w1b) = {[ id := d2 ]}).
  { cbn. by rewrite insert_insert_eq. }
  assert (Hfile : small_blobs (_cleanup (mgr (flush_prepare w1b))) = Some "")
    by reflexivity.
  assert (Hmem : _sticky_memory_bytes (mgr (flush_prepare w1b)) = len d1 + len d2).
  { rewrite flush_prepare_mem. cbn. lia. }
  assert (Hid : _sticky_blobs (mgr (flush_prepare w1b)) !! id = Some d2).
  { by rewrite flush_prepare_sticky, Hsticky, lookup_singleton_eq. }
  destruct (flush_one id (flush_prepare w1b)) as [[[n_bytes n_small]|e] w2]
    eqn:Hone.
  2:{ rewrite flush_one_run, Hid in Hone. cbv zeta in Hone.
      destruct (bool_decide _); [by rewrite Hfile in Hone|done]. }
  exists w2. split.
  { unfold w1. rewrite store_blob_run.
    rewrite bool_decide_eq_true_2 by (by left).
    by rewrite bool_decide_eq_false_2 by (cbn; lia). }
  split; [done|]. split.
  { rewrite store_blob_run.
    rewrite bool_decide_eq_true_2 by (by left).
    rewrite bool_decide_eq_true_2 by (cbn; lia).
    fold w1b. rewrite flush_run, (flush_stack_singleton id d2) by done.
    rewrite flush_loop_cons.
    rewrite bool_decide_eq_true_2 by (rewrite Hmem; lia).
    rewrite Hone, flush_loop_nil.
    rewrite (flush_one_mem _ _ _ _ _ Hone Hid), Hmem.
    by rewrite bool_decide_eq_true_2 by lia. }
  split.
  { rewrite (flush_one_sticky _ _ _ _ Hone), flush_prepare_sticky, Hsticky.
    apply delete_singleton_eq. }
  split; [by eapply flush_one_on_disk|].
  rewrite (flush_one_mem _ _ _ _ _ Hone Hid), Hmem. lia.
Qed.

(** X19. [clear_all] empties the transient map, the sticky map, the revision
    ids and the head tracking but for [last_ref]; it leaves the disk tier,
    the files, the reference counts and the memory counter as they are.
    After it a blob of the disk tier is still fetched, and [fetch_blob] of
    any other id raises [KeyError]. *)
Theorem clear_all_keeps_the_disk_tier (w : World) :
  ∃ w', clear_all w = (Return tt, w') ∧
    _blobs (mgr w') = ∅ ∧ _sticky_blobs (mgr w') = ∅ ∧
    revision_ids (mgr w') = ∅ ∧ last_ids (mgr w') = ∅ ∧ heads (mgr w') = ∅ ∧
    last_ref (mgr w') = last_ref (mgr w) ∧
    _disk_blobs (mgr w') = _disk_blobs (mgr w) ∧ files w' = files w ∧
    _blob_ref_counts (mgr w') = _blob_ref_counts (mgr w) ∧
    _sticky_memory_bytes (mgr w') = _sticky_memory_bytes (mgr w) ∧
    (∀ id data, on_disk w id data →
       ∃ w'', fetch_blob id w' = (Return data, w'')) ∧
    (∀ id, _disk_blobs (mgr w) !! id = None →
       fetch_blob id w' = (Raise KeyError, w')).
Proof.
  eexists. split; [reflexivity|]. cbn. repeat (split; [done|]). split.
  - intros id data Hdisk. apply fetch_held. split; [done|]. right. by split.
  - intros id Hid. by apply fetch_absent.
Qed.

Lemma lookup_foldl_insert (l : list string) (n : Z) (counts : gmap string Z) x :
  foldl (λ counts b, <[b := n]> counts) counts l !! x =
    if decide (x ∈ l) then Some n else counts !! x.
Proof.
  revert counts. induction l as [|b l IH]; intros counts; cbn [foldl].
  - destruct (decide (x ∈ [])) as [Hin|]; [|done]. by apply elem_of_nil in Hin.
  - rewrite IH. destruct (decide (x ∈ l)) as [Hin|Hnin].
    + rewrite decide_True by (by right). done.
    + destruct (decide (x = b)) as [->|Hne].
      * rewrite lookup_insert_eq. rewrite decide_True by (by left). done.
      * rewrite lookup_insert_ne by done.
        rewrite decide_False; [done|].
        intros Hin. apply elem_of_cons in Hin as [?|?]; done.
Qed.

Lemma py_int_raises s e : py_int s = Raise e → e = ValueError.
Proof.
  unfold py_int.
  destruct (reverse (lstrip (reverse (lstrip (list_ascii_of_string s)))))
    as [|c body]; [by intros [= <-]|].
  assert (Hds : ∀ sign ds,
    match ds, digits_value 0 ds with
    | _ :: _, Some n => Return (sign * n)
    | _, _ => Raise ValueError
    end = Raise e → e = ValueError).
  { intros sign [|d ds]; [by intros [= <-]|].
    destruct (digits_value 0 (d :: ds)); [done|by intros [= <-]]. }
  destruct (Ascii.eqb_spec c "-"%char) as [->|Hm]; [apply Hds|].
  destruct (Ascii.eqb_spec c "+"%char) as [->|Hp]; [apply Hds|].
  assert (Hplain :
    (let '(sign, ds) :=
       match c :: body with
       | "-"%char :: ds => (-1, ds)
       | "+"%char :: ds => (1, ds)
       | _ => (1, c :: body)
       end in
     match ds, digits_value 0 ds with
     | _ :: _, Some n => Return (sign * n)
     | _, _ => Raise ValueError
     end) =
    match digits_value 0 (c :: body) with
    | Some n => Return (1 * n)
    | None => Raise ValueError
    end).
  { destruct c as [[] [] [] [] [] [] [] []]; try done. }
  rewrite Hplain. destruct (digits_value 0 (c :: body)); [done|by intros [= <-]].
Qed.

Lemma read_ref_counts_Return items counts :
  Forall (λ item, ∃ n, py_int item.1 = Return n) items →
  ∃ counts', read_ref_counts items counts = Return counts' ∧
    (∀ b n, counts' !! b = Some n →
       counts !! b = Some n ∨
       ∃ key l, (key, l) ∈ items ∧ b ∈ l ∧ py_int key = Return n) ∧
    (∀ b, counts' !! b = None ↔
       counts !! b = None ∧ ∀ key l, (key, l) ∈ items → b ∉ l).
Proof.
  revert counts. induction items as [|[key l] items IH]; intros counts Hall.
  - exists counts. split; [done|]. split; [by left|].
    intros b. split; [|by intros [? _]]. intros Hb. split; [done|].
    intros key l Hin. by apply elem_of_nil in Hin.
  - apply Forall_cons in Hall as [[n Hn] Hall]. cbn [read_ref_counts].
    cbn [fst] in Hn. rewrite Hn.
    destruct (IH (foldl (λ counts b, <[b := n]> counts) counts l) Hall)
      as (counts' & -> & Hsome & Hnone).
    exists counts'. split; [done|]. split.
    + intros b k Hb. apply Hsome in Hb as [Hb|(key' & l' & Hin & Hbl & Hk)].
      * rewrite lookup_foldl_insert in Hb.
        destruct (decide (b ∈ l)) as [Hbl|]; [|by left].
        injection Hb as <-. right. exists key, l. split; [by left|done].
      * right. exists key', l'. split; [by right|done].
    + intros b. rewrite Hnone, lookup_foldl_insert. split.
      * intros [Hb Hrest]. destruct (decide (b ∈ l)) as [|Hbl]; [done|].
        split; [done|]. intros key' l' Hin.
        apply elem_of_cons in Hin as [[= -> ->]|Hin]; [done|by eapply Hrest].
      * intros [Hb Hrest]. split.
        -- rewrite decide_False; [done|]. apply (Hrest key). by left.
        -- intros key' l' Hin. apply (Hrest key'). by right.
Qed.

Lemma read_ref_counts_Raise items counts :
  Exists (λ item, py_int item.1 = Raise ValueError) items →
  read_ref_counts items counts = Raise ValueError.
Proof.
  revert counts. induction items as [|[key l] items IH]; intros counts Hex.
  - by apply Exists_nil in Hex.
  - cbn [read_ref_counts]. destruct (py_int key) as [n|e] eqn:Hkey.
    + apply IH. apply Exists_cons in Hex as [Hex|Hex]; [|done].
      cbn in Hex. congruence.
    + by rewrite (py_int_raises _ _ Hkey).
Qed.

(** X20. A new manager reads its reference counts from the section
    ['Blob reference counts'] of the hints: when every key of the section is
    an integer literal, a blob has a count exactly when a list of the section
    names it, and its count is the key of such a list; the cache starts
    empty. A key that is no integer literal makes the constructor raise
    [ValueError]. *)
Theorem CacheManager_init_reads_the_hints (info : ConfigObj)
    (section : gmap string (list string)) :
  info !! "Blob reference counts" = Some section →
  (map_Forall (λ key _, ∃ n, py_int key = Return n) section →
   ∃ m, CacheManager_init (Some info) = Return m ∧
     (∀ b n, _blob_ref_counts m !! b = Some n →
        ∃ key l, section !! key = Some l ∧ b ∈ l ∧ py_int key = Return n) ∧
     (∀ b, _blob_ref_counts m !! b = None ↔
        ∀ key l, section !! key = Some l → b ∉ l) ∧
     ∀ id, in_no_tier (init_world m) id) ∧
  ((∃ key l, section !! key = Some l ∧ py_int key = Raise ValueError) →
   CacheManager_init (Some info) = Raise ValueError).
Proof.
  intros Hsection. unfold CacheManager_init. rewrite Hsection.
  assert (Hitems : ∀ key l, (key, l) ∈ dict_items section ↔ section !! key = Some l).
  { intros key l. rewrite (dict_items_perm section). apply elem_of_map_to_list. }
  split.
  - intros Hall.
    destruct (read_ref_counts_Return (dict_items section) ∅)
      as (counts & -> & Hsome & Hnone).
    { apply Forall_forall. intros [key l] Hin. apply Hitems in Hin.
      exact (Hall _ _ Hin). }
    eexists. split; [done|]. cbn. split; [|split; [|done]].
    + intros b n Hb. apply Hsome in Hb as [Hb|(key & l & Hin & Hbl & Hk)];
        [by rewrite lookup_empty in Hb|].
      exists key, l. by rewrite <- Hitems.
    + intros b. rewrite Hnone. split.
      * intros [_ Hrest] key l Hin. apply (Hrest key). by apply Hitems.
      * intros Hrest. split; [apply lookup_empty|].
        intros key l Hin. apply (Hrest key). by apply Hitems.
  - intros (key & l & Hin & Hkey). rewrite read_ref_counts_Raise; [done|].
    apply Exists_exists. exists (key, l). split; [by apply Hitems|done].
Qed.

(** X21. The fetch that uses up the last reference count there is leaves the
    table of counts empty, and with an empty table [store_blob] keeps every
    blob: a blob stored afterwards, also one without a hint, is returned by
    any number of fetches. *)
Theorem last_reference_ends_the_counting (id data : string) (n : Z) (w : World) :
  held w id data →
  _blob_ref_counts (mgr w) = {[ id := n ]} → n ≤ 1 →
  ∃ w', fetch_blob id w = (Return data, w') ∧
    _blob_ref_counts (mgr w') = ∅ ∧
    ∀ id' data' w1,
      _blobs (mgr w') !! id' = None → _disk_blobs (mgr w') !! id' = None →
      store_blob id' data' w' = (Return tt, w1) →
      ∀ k, fetch_times k id' w1 = (replicate k (Return data'), w1).
Proof.
  intros Hheld Hcounts Hn.
  destruct (fetch_held_last id data w n Hheld) as (w' & Hrun & _ & Hgone);
    [by rewrite Hcounts, lookup_singleton_eq|done|].
  assert (Hempty : _blob_ref_counts (mgr w') = ∅).
  { apply map_empty. intros x. destruct (decide (x = id)) as [->|Hne]; [done|].
    apply eq_None_not_Some. intros Hx.
    apply (fetch_blob_counts _ _ _ _ _ Hrun) in Hx.
    rewrite Hcounts, lookup_singleton_ne in Hx by done. by destruct Hx. }
  exists w'. split; [done|]. split; [done|].
  intros id' data' w1 Hb Hd Hstore k.
  destruct (store_blob_held id' data' w' w1) as [Hheld' Hc];
    [left; by left|done..|].
  apply fetch_times_uncounted; [done|]. left. by rewrite Hc.
Qed.

(** X22. A flush while the memory counter is at or below the low-water mark
    evicts nothing: it returns, makes sure that the temporary directory and
    the small-blob file exist, and notes 0 blobs flushed; the three tiers and
    the files stay as they are. *)
Theorem flush_at_low_water_evicts_nothing (w : World) :
  _sticky_memory_bytes (mgr w) ≤ _sticky_flushed_size →
  ∃ w', _flush_blobs_to_disk w = (Return tt, w') ∧
    _blobs (mgr w') = _blobs (mgr w) ∧
    _sticky_blobs (mgr w') = _sticky_blobs (mgr w) ∧
    _disk_blobs (mgr w') = _disk_blobs (mgr w) ∧
    _sticky_memory_bytes (mgr w') = _sticky_memory_bytes (mgr w) ∧
    files w' = files w ∧
    is_Some (_tempdir (mgr w')) ∧
    (_tempdir (mgr w) = None → small_blobs (_cleanup (mgr w')) = Some "") ∧
    notes w' = notes w ++
      [mk_note 0 (Z.of_nat (size (_sticky_blobs (mgr w)))) 0 0].
Proof.
  intros Hlow. rewrite flush_run.
  assert (Hloop : flush_loop (flush_stack w) 0 0 0 (flush_prepare w) =
                  (Return (0, 0, 0), flush_prepare w)).
  { destruct (flush_stack w) as [|id stack].
    - rewrite flush_loop_nil, flush_prepare_mem.
      by rewrite bool_decide_eq_false_2 by lia.
    - rewrite flush_loop_cons, flush_prepare_mem.
      by rewrite bool_decide_eq_false_2 by lia. }
  rewrite Hloop. eexists. split; [reflexivity|].
  unfold flush_prepare. destruct (_tempdir (mgr w)) eqn:Hdir; cbn.
  - rewrite Hdir. by repeat (split; [done|]).
  - by repeat (split; [done|]).
Qed.
End cache_facts.

Lemma blob_without_hints_is_kept_witness :
  ∃ w1, store_blob "X" "payload" (init_world new_CacheManager) = (Return tt, w1) ∧
    fetch_times 3 "X" w1 =
      ([Return "payload"; Return "payload"; Return "payload"], w1).
Proof.
  exists (store_blob "X" "payload" (init_world new_CacheManager)).2.
  split; [by vm_compute|].
  destruct (blob_without_hints_is_kept "X" "payload" (init_world new_CacheManager))
    as [_ Hkept]; [by vm_compute..|].
  destruct (Hkept (store_blob "X" "payload" (init_world new_CacheManager)).2)
    as [_ Hfetch]; [by vm_compute|].
  exact (Hfetch 3%nat).
Defined.

Lemma blob_without_its_hint_is_fetched_once_witness :
  let w := init_world (set__blob_ref_counts {[ "Y" := 2 ]} new_CacheManager) in
  ∃ w1, store_blob "X" "payload" w = (Return tt, w1) ∧
    _blobs (mgr w1) !! "X" = Some "payload" ∧
    fetch_blob "X" w1 = (Return "payload", w) ∧
    fetch_blob "X" w = (Raise KeyError, w).
Proof.
  cbv zeta.
  apply (blob_without_its_hint_is_fetched_once "X" "payload"
    (init_world (set__blob_ref_counts {[ "Y" := 2 ]} new_CacheManager))).
  - by vm_compute.
  - by vm_compute.
  - done.
  - by vm_compute.
Defined.

Lemma sticky_memory_is_counted_and_bounded_witness :
  let w := run_op (Fetch "X")
             (run_op (Store "X" "abc") (init_world new_CacheManager)) in
  _sticky_memory_bytes (mgr w) = sticky_bytes (_sticky_blobs (mgr w)) ∧
  _sticky_memory_bytes (mgr w) ≤ _sticky_cache_size.
Proof.
  apply sticky_memory_is_counted_and_bounded.
  apply reachable_fresh_fetch, reachable_fresh_store.
  - by apply (reachable_fresh_init None).
  - by vm_compute.
Defined.

Lemma len_sizeable_blob : len sizeable_blob = 200 * 1024 * 1024.
Proof. unfold sizeable_blob. rewrite len_str_repeat. apply Z2Nat.id. lia. Qed.

#[global] Opaque sizeable_blob.

Lemma store_blob_over_a_sticky_blob_can_raise_witness :
  ∃ w1 w2,
    store_blob "X" sizeable_blob (init_world new_CacheManager) = (Return tt, w1) ∧
    _sticky_blobs (mgr w1) = {[ "X" := sizeable_blob ]} ∧
    store_blob "X" sizeable_blob w1 = (Raise IndexError, w2) ∧
    _sticky_blobs (mgr w2) = ∅ ∧
    on_disk w2 "X" sizeable_blob ∧
    _sticky_memory_bytes (mgr w2) = len sizeable_blob.
Proof.
  apply (store_blob_over_a_sticky_blob_can_raise "X" sizeable_blob sizeable_blob);
    rewrite len_sizeable_blob;
    unfold _sticky_flushed_size, _sticky_cache_size; lia.
Defined.

Lemma CacheManager_init_reads_the_hints_witness :
  let hints : ConfigObj :=
    {[ "Blob reference counts" := {[ "2" := ["X"; "Y"]; " 3 " := ["Z"] ]} ]} in
  let bad : ConfigObj := {[ "Blob reference counts" := {[ "two" := ["X"] ]} ]} in
  (∃ m, CacheManager_init (Some hints) = Return m ∧
        _blob_ref_counts m !! "Z" = Some 3 ∧ _blob_ref_counts m !! "W" = None) ∧
  CacheManager_init (Some bad) = Raise ValueError.
Proof.
  cbv zeta. split.
  - destruct (CacheManager_init_reads_the_hints
      {[ "Blob reference counts" := {[ "2" := ["X"; "Y"]; " 3 " := ["Z"] ]} ]}
      {[ "2" := ["X"; "Y"]; " 3 " := ["Z"] ]}) as [Hok _];
      [vm_compute; reflexivity|].
    destruct Hok as (m & Hm & _).
    + apply map_Forall_insert_2; [eexists; vm_compute; reflexivity|].
      apply map_Forall_singleton. eexists; vm_compute; reflexivity.
    + exists m. split; [exact Hm|]. vm_compute in Hm. injection Hm as <-.
      split; vm_compute; reflexivity.
  - destruct (CacheManager_init_reads_the_hints
      {[ "Blob reference counts" := {[ "two" := ["X"] ]} ]}
      {[ "two" := ["X"] ]}) as [_ Hbad]; [vm_compute; reflexivity|].
    apply Hbad. exists "two", ["X"]. split; vm_compute; reflexivity.
Defined.

Lemma last_reference_ends_the_counting_witness :
  let w := (store_blob "X" "a"
              (init_world (set__blob_ref_counts {[ "X" := 1 ]} new_CacheManager))).2 in
  ∃ w' w1, fetch_blob "X" w = (Return "a", w') ∧
    _blob_ref_counts (mgr w') = ∅ ∧
    store_blob "Y" "b" w' = (Return tt, w1) ∧
    fetch_times 2 "Y" w1 = ([Return "b"; Return "b"], w1).
Proof.
  cbv zeta.
  set (w := (store_blob "X" "a"
    (init_world (set__blob_ref_counts {[ "X" := 1 ]} new_CacheManager))).2).
  destruct (last_reference_ends_the_counting "X" "a" 1 w)
    as (w' & Hfetch & Hempty & Hkeeps).
  - vm_compute. split; [reflexivity|]. left. split; reflexivity.
  - vm_compute. reflexivity.
  - lia.
  - exists w', (store_blob "Y" "b" w').2. split; [exact Hfetch|].
    split; [exact Hempty|].
    assert (Hw' : w' = (fetch_blob "X" w).2) by (by rewrite Hfetch).
    assert (Hstore : store_blob "Y" "b" w' = (Return tt, (store_blob "Y" "b" w').2)).
    { rewrite Hw'. vm_compute. reflexivity. }
    split; [exact Hstore|].
    apply (Hkeeps "Y" "b" _); [rewrite Hw'; vm_compute; reflexivity..|exact Hstore].
Defined.

Lemma flush_at_low_water_evicts_nothing_witness :
  let w := run_op (Store "X" "abc") (init_world new_CacheManager) in
  ∃ w', _flush_blobs_to_disk w = (Return tt, w') ∧
    _sticky_blobs (mgr w') = {[ "X" := "abc" ]} ∧
    _disk_blobs (mgr w') = ∅ ∧
    notes w' = [mk_note 0 1 0 0].
Proof.
  cbv zeta.
  destruct (flush_at_low_water_evicts_nothing
    (run_op (Store "X" "abc") (init_world new_CacheManager)))
    as (w' & Hrun & _ & Hs & Hd & _ & _ & _ & _ & Hn); [by vm_compute|].
  exists w'. split; [exact Hrun|]. rewrite Hs, Hd, Hn.
  split; [|split]; vm_compute; reflexivity.
Defined.

(** * Further properties of the teardown *)

Section teardown.
Context `{DictOrder}.

Lemma reachable_fresh_tiers w : reachable_fresh w → ∀ id, in_at_most_one_tier w id.
Proof.
  induction 1 as [info m Hinit|id data w Hw IH Hfresh|id w Hw IH|w Hw IH];
    intros x.
  - destruct (CacheManager_init_tiers _ _ x Hinit) as (Hb & Hs & _). by left.
  - cbn [run_op]. destruct (store_blob id data w) as [r w'] eqn:Hrun.
    by eapply store_blob_at_most_one.
  - cbn [run_op]. destruct (fetch_blob id w) as [r w'] eqn:Hrun.
    eapply tiers_shrink_at_most_one; [by eapply fetch_blob_shrinks|done].
  - cbn [run_op]. destruct (_flush_blobs_to_disk w) as [r w'] eqn:Hrun.
    eapply flush_frame_at_most_one; [by eapply flush_is_frame|done].
Qed.

Lemma sticky_not_on_disk w id blob :
  in_at_most_one_tier w id → _sticky_blobs (mgr w) !! id = Some blob →
  _disk_blobs (mgr w) !! id = None.
Proof. intros [[_ Hs]|[[_ Hd]|[Hs _]]] Hid; congruence. Qed.

Lemma flush_one_spill id w r w' :
  spill_files_ok w → in_at_most_one_tier w id →
  flush_one id w = (r, w') → spill_files_ok w'.
Proof.
  intros (Hhas & Hinj & Hown & Hshared & Hdir) Hone. rewrite flush_one_run.
  destruct (_sticky_blobs (mgr w) !! id) as [blob|] eqn:Hid.
  2:{ by intros [= <- <-]. }
  pose proof (sticky_not_on_disk _ _ _ Hone Hid) as Hnot.
  cbv zeta. destruct (bool_decide (len blob < _small_blob_threshold)).
  - destruct (small_blobs (_cleanup (mgr w))) as [content|].
    2:{ by intros [= <- <-]. }
    intros [= <- <-]. split; [|split; [|split; [|done]]]; cbn.
    + intros id' info name. destruct (decide (id' = id)) as [->|Hne].
      * rewrite lookup_insert_eq. by intros [= <-].
      * rewrite lookup_insert_ne by done. apply Hhas.
    + intros id1 id2 info1 info2 name.
      destruct (decide (id1 = id)) as [->|Hne1];
        [rewrite lookup_insert_eq; by intros [= <-]|].
      destruct (decide (id2 = id)) as [->|Hne2];
        [rewrite (lookup_insert_eq _ id); by intros _ [= <-]|].
      rewrite !lookup_insert_ne by done. apply Hinj.
    + intros name Hname. destruct (Hown _ Hname) as (id0 & info & Hd & Hf).
      exists id0, info. split; [|done]. rewrite lookup_insert_ne; [done|].
      intros <-. congruence.
  - intros [= <- <-].
    set (name := fresh_string _ (files w)).
    assert (Hfresh : files w !! name = None) by apply fresh_string_fresh.
    split; [|split; [|split; [|done]]]; cbn.
    + intros id' info name'. destruct (decide (id' = id)) as [->|Hne].
      * rewrite lookup_insert_eq. intros [= <-] [= <-].
        by rewrite lookup_insert_eq.
      * rewrite lookup_insert_ne by done. intros Hd Hf.
        destruct (Hhas _ _ _ Hd Hf) as [c Hc]. exists c.
        rewrite lookup_insert_ne; [done|]. intros <-. congruence.
    + intros id1 id2 info1 info2 name'.
      destruct (decide (id1 = id)) as [->|Hne1];
        destruct (decide (id2 = id)) as [->|Hne2]; [done|..].
      * rewrite lookup_insert_eq, lookup_insert_ne by done.
        intros [= <-] Hd [= <-] Hf. destruct (Hhas _ _ _ Hd Hf). congruence.
      * rewrite lookup_insert_eq, lookup_insert_ne by done.
        intros Hd [= <-] Hf [= <-]. destruct (Hhas _ _ _ Hd Hf). congruence.
      * rewrite !lookup_insert_ne by done. apply Hinj.
    + intros name' Hname. destruct (decide (name' = name)) as [->|Hne].
      * exists id, (0, len blob, Some name). by rewrite lookup_insert_eq.
      * rewrite lookup_insert_ne in Hname by done.
        destruct (Hown _ Hname) as (id0 & info & Hd & Hf).
        exists id0, info. split; [|done]. rewrite lookup_insert_ne; [done|].
        intros <-. congruence.
Qed.

Lemma flush_loop_spill stack count bytes n_small_bytes w r w' :
  spill_files_ok w → (∀ x, in_at_most_one_tier w x) →
  flush_loop stack count bytes n_small_bytes w = (r, w') → spill_files_ok w'.
Proof.
  revert count bytes n_small_bytes w.
  induction stack as [|id stack IH]; intros count bytes n_small_bytes w Hok Hone.
  - rewrite flush_loop_nil. by destruct (bool_decide _); intros [= <- <-].
  - rewrite flush_loop_cons. destruct (bool_decide _).
    2:{ by intros [= <- <-]. }
    destruct (flush_one id w) as [[[n_bytes n_small]|e] w1] eqn:Hrun.
    + apply IH; [by eapply flush_one_spill|].
      intros x. eapply flush_frame_at_most_one; [by eapply flush_one_frame|done].
    + intros [= <- <-]. by eapply flush_one_spill.
Qed.

Lemma flush_spill w r w' :
  spill_files_ok w → (∀ x, in_at_most_one_tier w x) →
  _flush_blobs_to_disk w = (r, w') → spill_files_ok w'.
Proof.
  intros Hok Hone. rewrite flush_run.
  assert (Hprep : spill_files_ok (flush_prepare w)).
  { unfold flush_prepare. destruct (_tempdir (mgr w)); [exact Hok|].
    destruct Hok as (Hhas & Hinj & Hown & Hshared & Hdir).
    split; [exact Hhas|]. split; [exact Hinj|]. split; [exact Hown|].
    split; [exact Hshared|reflexivity]. }
  assert (Hone' : ∀ x, in_at_most_one_tier (flush_prepare w) x).
  { intros x. eapply flush_frame_at_most_one; [apply flush_prepare_frame|done]. }
  destruct (flush_loop _ _ _ _ _) as [[[[count bytes] n_small]|e] w1] eqn:Hloop.
  - apply flush_loop_spill in Hloop; [|done..]. intros [= <- <-]. exact Hloop.
  - apply flush_loop_spill in Hloop; [|done..]. intros [= <- <-]. exact Hloop.
Qed.

Lemma store_blob_spill id data w r w' :
  spill_files_ok w → (∀ x, in_at_most_one_tier w x) → in_no_tier w id →
  store_blob id data w = (r, w') → spill_files_ok w'.
Proof.
  intros Hok Hone (Hb & Hs & Hd). rewrite store_blob_run.
  destruct (bool_decide (_ ∨ _)).
  - destruct (bool_decide (_ < _)); [|by intros [= <- <-]].
    apply flush_spill; [done|]. intros x.
    destruct (decide (x = id)) as [->|Hne].
    + right. left. by split.
    + unfold in_at_most_one_tier. cbn. rewrite lookup_insert_ne by done.
      apply Hone.
  - by destruct (bool_decide (data = "")); intros [= <- <-].
Qed.

Lemma fetch_blob_spill id w r w' :
  spill_files_ok w → fetch_blob id w = (r, w') → spill_files_ok w'.
Proof.
  intros Hok. pose proof Hok as (Hhas & Hinj & Hown & Hshared & Hdir).
  unfold fetch_blob. monad_unfold. cbn [mgr].
  destruct (_blobs (mgr w) !! id) as [data|]; [by intros [= <- <-]|].
  destruct (_disk_blobs (mgr w) !! id) as [[[offset n_bytes] fn]|] eqn:Hid.
  - assert (Hdec : ∀ r1 w1, (fn = None ∨ ∃ name, fn = Some name) →
              _decref id the__disk_blobs fn w = (r1, w1) → spill_files_ok w1).
    { intros r1 w1 _. rewrite _decref_run.
      destruct (bool_decide (_ = ∅)); [by intros [= <- <-]|].
      destruct (_blob_ref_counts (mgr w) !! id) as [count|];
        [|by intros [= <- <-]].
      destruct (bool_decide (count - 1 ≤ 0)); [|by intros [= <- <-]].
      unfold cache_del, os_unlink. monad_unfold. cbn [mgr]. rewrite Hid.
      destruct fn as [name|].
      - change (files (set_mgr ?m w)) with (files w).
        destruct (Hhas id _ name Hid eq_refl) as [c Hc]. rewrite Hc.
        intros [= <- <-]. split; [|split; [|split; [|done]]]; cbn.
        + intros id' info name'. rewrite lookup_delete_Some.
          intros [Hne Hd] Hf. destruct (Hhas _ _ _ Hd Hf) as [c' Hc']. exists c'.
          rewrite lookup_delete_ne; [done|]. intros <-.
          apply Hne. by eapply (Hinj id id').
        + intros id1 id2 info1 info2 name'. rewrite !lookup_delete_Some.
          intros [_ H1] [_ H2]. by apply Hinj.
        + intros name' [c' Hname]. apply lookup_delete_Some in Hname as [Hne Hname].
          destruct (Hown name') as (id0 & info & Hd & Hf); [by eexists|].
          exists id0, info. split; [|done]. apply lookup_delete_Some.
          split; [|done]. intros <-. rewrite Hid in Hd. injection Hd as <-.
          cbn in Hf. congruence.
      - intros [= <- <-]. split; [|split; [|split; [|done]]]; cbn.
        + intros id' info name'. rewrite lookup_delete_Some.
          intros [_ Hd]. by apply (Hhas id').
        + intros id1 id2 info1 info2 name'. rewrite !lookup_delete_Some.
          intros [_ H1] [_ H2]. by apply Hinj.
        + intros name' Hname. destruct (Hown _ Hname) as (id0 & info & Hd & Hf).
          exists id0, info. split; [|done]. apply lookup_delete_Some.
          split; [|done]. intros <-. rewrite Hid in Hd. injection Hd as <-.
          done. }
    destruct fn as [name|].
    + unfold open_read. destruct (files w !! name); [|by intros [= <- <-]].
      destruct (_decref id the__disk_blobs (Some name) w) as [[gone|e] w1] eqn:Hrun;
        intros [= <- <-]; eapply Hdec; eauto.
    + destruct (small_blobs (_cleanup (mgr w))); [|by intros [= <- <-]].
      destruct (_decref id the__disk_blobs None w) as [[gone|e] w1] eqn:Hrun;
        intros [= <- <-]; eapply Hdec; eauto.
  - destruct (_sticky_blobs (mgr w) !! id) as [content|] eqn:Hs;
      [|by intros [= <- <-]].
    rewrite _decref_run.
    destruct (bool_decide (_ = ∅)); [by intros [= <- <-]|].
    destruct (_blob_ref_counts (mgr w) !! id) as [count|];
      [|by intros [= <- <-]].
    destruct (bool_decide (count - 1 ≤ 0)); [|by intros [= <- <-]].
    unfold cache_del. monad_unfold. cbn [mgr]. rewrite Hs.
    by intros [= <- <-].
Qed.

Lemma reachable_fresh_spill w : reachable_fresh w → spill_files_ok w.
Proof.
  intros Hw. induction Hw as [info m Hinit|id data w Hw IH Hfresh|id w Hw IH|w Hw IH].
  - assert (Hm : _disk_blobs m = ∅ ∧ _cleanup m = mk_Cleanup (Some shared_disk_blobs) None None
                 ∧ _tempdir m = None).
    { unfold CacheManager_init in Hinit. destruct info as [info|].
      - destruct (info !! "Blob reference counts") as [section|].
        + destruct (read_ref_counts _ _); [|done]. by injection Hinit as <-.
        + by injection Hinit as <-.
      - by injection Hinit as <-. }
    destruct Hm as (Hd & Hc & Ht).
    split. { intros id info' name. cbn. rewrite Hd. by rewrite lookup_empty. }
    split. { intros id1 id2 info1 info2 name. cbn. rewrite Hd.
             by rewrite lookup_empty. }
    split. { intros name [c Hc']. cbn in Hc'. by rewrite lookup_empty in Hc'. }
    cbn. by rewrite Hc, Ht.
  - cbn [run_op]. destruct (store_blob id data w) as [r w'] eqn:Hrun.
    eapply store_blob_spill; [done|by apply reachable_fresh_tiers|done..].
  - cbn [run_op]. destruct (fetch_blob id w) as [r w'] eqn:Hrun.
    by eapply fetch_blob_spill.
  - cbn [run_op]. destruct (_flush_blobs_to_disk w) as [r w'] eqn:Hrun.
    eapply flush_spill; [done|by apply reachable_fresh_tiers|done].
Qed.

Lemma unlink_all_run infos w :
  NoDup (omap spill_file infos) →
  (∀ name, name ∈ omap spill_file infos → is_Some (files w !! name)) →
  ∃ w', unlink_all infos w = (Return tt, w') ∧
    mgr w' = mgr w ∧ dirs w' = dirs w ∧
    ∀ x, files w' !! x =
      if decide (x ∈ omap spill_file infos) then None else files w !! x.
Proof.
  revert w. induction infos as [|[[offset n] fn] infos IH]; intros w Hnodup Hhas.
  - exists w. split; [done|]. split; [done|]. split; [done|]. intros x.
    cbn [omap list_omap]. rewrite decide_False; [done|]. apply not_elem_of_nil.
  - cbn [unlink_all]. unfold mbind, St_bind. destruct fn as [name|].
    + cbn [omap list_omap spill_file snd] in *.
      apply NoDup_cons in Hnodup as [Hnotin Hnodup].
      destruct (Hhas name) as [c Hc]; [by left|].
      unfold os_unlink at 1. rewrite Hc.
      destruct (IH (set_files (delete name (files w)) w) Hnodup)
        as (w' & -> & Hm & Hd & Hf).
      { intros x Hx. cbn. destruct (Hhas x) as [cx Hcx]; [by right|].
        exists cx. rewrite lookup_delete_ne; [done|]. by intros <-. }
      exists w'. split; [done|]. split; [done|]. split; [done|].
      intros x. rewrite Hf. cbn.
      destruct (decide (x ∈ omap spill_file infos)) as [Hin|Hnin].
      * by rewrite decide_True by (by right).
      * destruct (decide (x = name)) as [->|Hne].
        -- rewrite lookup_delete_eq. by rewrite decide_True by (by left).
        -- rewrite lookup_delete_ne by done. rewrite decide_False; [done|].
           intros Hx. apply elem_of_cons in Hx as [?|?]; done.
    + cbn [omap list_omap spill_file snd] in *.
      unfold mret, St_ret. by apply IH.
Qed.

Lemma NoDup_spill_files (items : list (string * (Z * Z * option string))) :
  NoDup items.*1 →
  (∀ k1 k2 v1 v2 name, (k1, v1) ∈ items → (k2, v2) ∈ items →
     spill_file v1 = Some name → spill_file v2 = Some name → k1 = k2) →
  NoDup (omap spill_file items.*2).
Proof.
  induction items as [|[k v] items IH]; intros Hkeys Hinj; [constructor|].
  cbn [fmap list_fmap snd fst] in *. apply NoDup_cons in Hkeys as [Hk Hkeys].
  cbn [omap list_omap].
  assert (Hrest : NoDup (omap spill_file items.*2)).
  { apply IH; [done|]. intros k1 k2 v1 v2 name H1 H2.
    apply Hinj; by right. }
  destruct (spill_file v) as [name|] eqn:Hv; [|done].
  apply NoDup_cons. split; [|done]. intros Hin.
  apply list_elem_of_omap in Hin as (v' & Hv' & Hname).
  apply list_elem_of_fmap in Hv' as ([k' v''] & -> & Hin).
  assert (k = k') as <-.
  { apply (Hinj k k' v v'' name); [by left|by right|done..]. }
  apply Hk. apply list_elem_of_fmap. by exists (k, v'').
Qed.

Lemma finalize_again w :
  disk_blobs (_cleanup (mgr w)) = None →
  small_blobs (_cleanup (mgr w)) = None →
  finalize w =
    ((if tempdir (_cleanup (mgr w)) is Some _ then Raise NameError
      else Return tt), w).
Proof.
  intros Hd Hs. unfold finalize. monad_unfold. cbn [mgr]. rewrite Hd, Hs.
  by destruct (tempdir (_cleanup (mgr w))).
Qed.

(** X23. In a run in which no blob is stored under a cached id, [finalize]
    unlinks every file the manager has written and closes the small-blob
    file: no unlink fails and no file is left. It returns when there has been
    no flush, and raises [NameError] at [shutils.rmtree] when there has been
    one; the temporary directory is never removed. A second [finalize] ends
    in the same way and changes nothing. *)
Theorem finalize_deletes_the_spill_files (w : World) :
  reachable_fresh w →
  let outcome :=
    if _tempdir (mgr w) is Some _ then Raise NameError else Return tt in
  ∃ w', finalize w = (outcome, w') ∧
    files w' = ∅ ∧
    small_blobs (_cleanup (mgr w')) = None ∧
    disk_blobs (_cleanup (mgr w')) = None ∧
    dirs w' = dirs w ∧
    finalize w' = (outcome, w').
Proof.
  intros Hw. cbv zeta. destruct (reachable_fresh_spill w Hw)
    as (Hhas & Hinj & Hown & Hshared & Hdir).
  assert (Hitems : ∀ k v, (k, v) ∈ dict_items (_disk_blobs (mgr w)) ↔
                          _disk_blobs (mgr w) !! k = Some v).
  { intros k v. rewrite (dict_items_perm (_disk_blobs (mgr w))).
    apply elem_of_map_to_list. }
  destruct (unlink_all_run (dict_values (_disk_blobs (mgr w))) w)
    as (w1 & Hrun & Hm & Hd & Hf).
  { unfold dict_values. apply NoDup_spill_files.
    - rewrite (dict_items_perm (_disk_blobs (mgr w))). apply NoDup_fst_map_to_list.
    - intros k1 k2 v1 v2 name H1 H2. apply Hitems in H1, H2. by eapply Hinj. }
  { intros name Hname. apply list_elem_of_omap in Hname as (v & Hv & Hname).
    unfold dict_values in Hv. apply list_elem_of_fmap in Hv as ([k v'] & -> & Hin).
    apply Hitems in Hin. by eapply Hhas. }
  assert (Hfiles : files w1 = ∅).
  { apply map_empty. intros x. rewrite Hf.
    destruct (decide (x ∈ _)) as [|Hnin]; [done|].
    apply eq_None_not_Some. intros Hx.
    destruct (Hown _ Hx) as (id & info & Hid & Hname). apply Hnin.
    apply list_elem_of_omap. exists info. split; [|done].
    unfold dict_values. apply list_elem_of_fmap. exists (id, info).
    split; [done|]. by apply Hitems. }
  set (w' := set_mgr
    (set__cleanup (mk_Cleanup None (_tempdir (mgr w)) None) (mgr w)) w1).
  assert (Hfirst : finalize w =
    ((if _tempdir (mgr w) is Some _ then Raise NameError else Return tt), w')).
  { unfold finalize. monad_unfold. cbn [mgr]. rewrite Hshared, Hrun.
    cbn [mgr set_mgr _cleanup set__cleanup small_blobs set_disk_blobs_ref tempdir
         set_small_blobs]. rewrite Hm. unfold w'. rewrite <- Hdir.
    destruct (small_blobs (_cleanup (mgr w))) eqn:Hsmall;
      cbn [mgr set_mgr _cleanup set__cleanup small_blobs set_disk_blobs_ref
           tempdir set_small_blobs];
      destruct (tempdir (_cleanup (mgr w))) eqn:Htemp;
      unfold set_mgr, set__cleanup, set_small_blobs, set_disk_blobs_ref; cbn;
      by rewrite ?Hsmall, ?Htemp. }
  exists w'. split; [exact Hfirst|]. split; [exact Hfiles|].
  split; [reflexivity|]. split; [reflexivity|]. split; [exact Hd|].
  by rewrite finalize_again.
Qed.

(** X25. In a run in which no blob is stored under a cached id, the files of
    the manager are the files the disk tier names: every entry that names a
    file has it, no two entries name the same file, and there is no file that
    no entry names. *)
Theorem spill_files_are_those_of_the_disk_tier (w : World) :
  reachable_fresh w →
  (∀ name, is_Some (files w !! name) ↔
     ∃ id offset n_bytes,
       _disk_blobs (mgr w) !! id = Some (offset, n_bytes, Some name)) ∧
  (∀ id1 id2 offset1 n1 offset2 n2 name,
     _disk_blobs (mgr w) !! id1 = Some (offset1, n1, Some name) →
     _disk_blobs (mgr w) !! id2 = Some (offset2, n2, Some name) →
     id1 = id2).
Proof.
  intros Hw. destruct (reachable_fresh_spill w Hw) as (Hhas & Hinj & Hown & _).
  split.
  - intros name. split.
    + intros Hname. destruct (Hown _ Hname) as (id & [[offset n] fn] & Hid & Hfn).
      cbn in Hfn. subst fn. by exists id, offset, n.
    + intros (id & offset & n & Hid). by eapply Hhas.
  - intros id1 id2 offset1 n1 offset2 n2 name H1 H2. by eapply Hinj.
Qed.
End teardown.

Lemma finalize_deletes_the_spill_files_witness :
  let w := run_op (Fetch "X")
             (run_op (Store "X" "abc") (init_world new_CacheManager)) in
  ∃ w', finalize w = (Return tt, w') ∧ files w' = ∅ ∧
        small_blobs (_cleanup (mgr w')) = None ∧
        disk_blobs (_cleanup (mgr w')) = None ∧ dirs w' = dirs w ∧
        finalize w' = (Return tt, w').
Proof.
  cbv zeta.
  apply (finalize_deletes_the_spill_files
    (run_op (Fetch "X") (run_op (Store "X" "abc") (init_world new_CacheManager)))).
  apply reachable_fresh_fetch, reachable_fresh_store.
  - by apply (reachable_fresh_init None).
  - by vm_compute.
Defined.

Lemma small_then_big_reachable :
  reachable_fresh
    (run_op (Store "b" big_blob)
       (run_op (Store "a" "x") (init_world new_CacheManager))).
Proof.
  pose proof small_then_big_run as (w2 & Hrun & Hfirst & _).
  apply reachable_fresh_store; [apply reachable_fresh_store|].
  - by apply (reachable_fresh_init None).
  - split; [|split]; reflexivity.
  - cbn [run_op]. rewrite Hfirst. cbn [snd].
    split; [reflexivity|]. split; [|reflexivity].
    cbn. by rewrite lookup_insert_ne.
Qed.

Lemma spill_files_are_those_of_the_disk_tier_witness :
  ∃ w2 name,
    store_blob "b" big_blob (stored_sticky "a" "x" (init_world new_CacheManager))
      = (Return tt, w2) ∧
    _disk_blobs (mgr w2) !! "b" = Some (0, len big_blob, Some name) ∧
    is_Some (files w2 !! name).
Proof.
  destruct small_then_big_run as (w2 & Hrun & Hfirst & _ & _ & Hdisk & _).
  exists w2, "bzr_fastimport_blobs-/blob-". split; [exact Hrun|].
  assert (Hentry : _disk_blobs (mgr w2) !! "b"
                   = Some (0, len big_blob, Some "bzr_fastimport_blobs-/blob-")).
  { rewrite Hdisk. apply lookup_singleton_eq. }
  split; [exact Hentry|].
  assert (Hw2 : reachable_fresh w2).
  { pose proof small_then_big_reachable as Hreach. revert Hreach.
    cbn [run_op]. rewrite Hfirst. cbn [snd]. rewrite Hrun. cbn [snd].
    exact (λ Hreach, Hreach). }
  destruct (spill_files_are_those_of_the_disk_tier w2 Hw2) as [Hfiles _].
  apply (proj2 (Hfiles "bzr_fastimport_blobs-/blob-")).
  exists "b", 0, (len big_blob). exact Hentry.
Defined.

(** * Further properties of the output of the informational pass *)

Lemma string_leb_trans (a b c : string) :
  String.leb a b = true → String.leb b c = true → String.leb a c = true.
Proof.
  unfold String.leb. revert b c.
  induction a as [|x a IH]; intros [|y b] [|z c]; cbn; try done.
  unfold Ascii.compare.
  destruct (N.compare_spec (N_of_ascii x) (N_of_ascii y)) as [Hxy|Hxy|Hxy];
    destruct (N.compare_spec (N_of_ascii y) (N_of_ascii z)) as [Hyz|Hyz|Hyz];
    destruct (N.compare_spec (N_of_ascii x) (N_of_ascii z)) as [Hxz|Hxz|Hxz];
    try done; try lia.
  apply IH.
Qed.

#[local] Instance string_leb_antisymm :
  AntiSymm (=) (λ a b : string, String.leb a b = true).
Proof. intros a b. apply String.leb_antisym. Qed.

Lemma sorted_insert_perm x l : sorted_insert x l ≡ₚ x :: l.
Proof.
  induction l as [|y l IH]; [done|]. cbn [sorted_insert].
  destruct (String.leb x y); [done|]. by rewrite IH, Permutation_swap.
Qed.

Lemma sorted_perm l : sorted l ≡ₚ l.
Proof.
  induction l as [|x l IH]; [done|]. cbn [sorted].
  by rewrite sorted_insert_perm, IH.
Qed.

Lemma sorted_insert_sorted x l :
  StronglySorted (λ a b, String.leb a b = true) l →
  StronglySorted (λ a b, String.leb a b = true) (sorted_insert x l).
Proof.
  induction 1 as [|y l Hl IH Hy]; cbn [sorted_insert].
  - repeat constructor.
  - destruct (String.leb x y) eqn:Hxy.
    + constructor; [by constructor|]. constructor; [done|].
      eapply Forall_impl; [exact Hy|]. intros z Hz. by eapply string_leb_trans.
    + constructor; [done|]. rewrite sorted_insert_perm. constructor; [|done].
      destruct (String.leb_total x y) as [?|?]; [congruence|done].
Qed.

Lemma sorted_sorted l : StronglySorted (λ a b, String.leb a b = true) (sorted l).
Proof.
  induction l as [|x l IH]; [constructor|]. by apply sorted_insert_sorted.
Qed.

Lemma sorted_permutation l1 l2 : l1 ≡ₚ l2 → sorted l1 = sorted l2.
Proof.
  intros Hperm.
  apply (StronglySorted_unique (λ a b, String.leb a b = true));
    [apply sorted_sorted..|].
  by rewrite !sorted_perm.
Qed.

Lemma contains_join_comma x y items :
  contains "," (join ", " (x :: y :: items)) = true.
Proof.
  cbn [join]. rewrite contains_app, contains_app.
  cbn [contains]. rewrite bool_decide_eq_true_2 by done.
  by rewrite orb_true_r.
Qed.

(** X24. [_iterable_as_config_list] gives the items in ascending order,
    whatever the order in which the iterable yields them; one item is given
    with a comma after it, several with a comma and a space between them, so
    that the result holds a comma whenever there is an item; nothing gives
    the empty string. *)
Theorem config_list_is_sorted_and_has_a_comma :
  (∀ s1 s2, s1 ≡ₚ s2 →
     _iterable_as_config_list s1 = _iterable_as_config_list s2) ∧
  (∀ s, StronglySorted (λ a b, String.leb a b = true) s →
     _iterable_as_config_list s =
       match s with
       | [item] => item +:+ ","
       | _ => join ", " s
       end) ∧
  (∀ s, s ≠ [] → contains "," (_iterable_as_config_list s) = true) ∧
  _iterable_as_config_list [] = "".
Proof.
  split_and!.
  - intros s1 s2 Hperm. unfold _iterable_as_config_list.
    by rewrite (sorted_permutation s1 s2).
  - intros s Hs. unfold _iterable_as_config_list.
    assert (Hsame : sorted s = s).
    { apply (StronglySorted_unique (λ a b, String.leb a b = true));
        [apply sorted_sorted|done|apply sorted_perm]. }
    rewrite Hsame. by destruct s as [|x [|y s]].
  - intros s Hs. unfold _iterable_as_config_list.
    assert (Hlen : length (sorted s) = length s) by (by rewrite sorted_perm).
    destruct (sorted s) as [|x [|y items]].
    + by destruct s.
    + rewrite bool_decide_eq_true_2 by done. rewrite contains_app.
      cbn [contains]. rewrite bool_decide_eq_true_2 by done.
      by rewrite orb_true_r.
    + rewrite bool_decide_eq_false_2 by done. apply contains_join_comma.
  - done.
Qed.

Lemma config_list_is_sorted_and_has_a_comma_witness :
  _iterable_as_config_list [":3"; ":1"; ":2"] = ":1, :2, :3" ∧
  _iterable_as_config_list [":1"; ":2"; ":3"] = ":1, :2, :3" ∧
  _iterable_as_config_list [":7"] = ":7,".
Proof.
  destruct config_list_is_sorted_and_has_a_comma as (Hperm & Hsorted & _).
  split; [|split].
  - rewrite (Hperm [":3"; ":1"; ":2"] [":1"; ":2"; ":3"]).
    + by vm_compute.
    + by rewrite (Permutation_cons_append [":1"; ":2"] ":3").
  - by vm_compute.
  - rewrite (Hsorted [":7"]); [done|]. repeat constructor.
Defined.
